(** * Online auction platform: bidding engine, closer, invoicer, image importer

    A shallow embedding of the TypeScript services of the platform:

    - [Rules]   : the increment helpers of [src/utils/db.ts]
                  ([calculateBidIncrement], [getMinimumNextBid],
                  [parseJSON]) on whole amounts, and [RulesF], the same
                  helpers on doubles;
    - [Spec]    : the minimum next bid as the specification words it, to
                  compare with the code's;
    - [Engine]  : [BiddingEngine] of the bidding service ([placeBid],
                  [executeBidTransaction], [checkSoftClose],
                  [getActiveMaxBid], [getIncrementRules], [closeLot]);
    - [Invoicer]: [calculateBuyersPremium] of [src/utils/db.ts] and
                  [InvoiceService.generateInvoice];
    - [Importer]: [ImportService.parseImageFilename] and
                  [ImportService.processBulkImages];
    - [Limiter] : [RateLimiter] of [src/utils/auth.ts];
    - [BidRoute], [CloseRoute]: the handlers [POST /api/bids/:lotId] and
                  [POST /api/auctions/:id/close] of [src/routes/auctions.ts];
    - [InvoiceRun]: [InvoiceService.generateInvoicesForAuction];
    - [Csv]     : [ImportService.parseCSVRow];
    - [Paging]  : [buildPagination] and [getPaginationMeta] of
                  [src/utils/db.ts] with the listing handler that uses them.

    Conventions of the embedding.

    - The D1 database is an explicit store threaded through every
      operation; a table is a finite map keyed by its primary key when the
      code addresses rows by id ([users], [lots], [auctions]) and a list in
      insertion order when the code appends and filters ([bids],
      [bid_audit_log], [image_mappings]).  D1 enforces the foreign keys of
      the schema: a statement that breaks one throws, a batch that throws
      is rolled back, and the [catch] branch of the caller is taken.
    - A JavaScript [number] is an IEEE 754 double.  The bidding engine is
      modelled on whole amounts, ids and Unix times, held in [Z]; a sum of
      two amounts is rounded as a double rounds it ([js_add]: exact up to
      [2^53], to the nearest double beyond).  Amounts with cents are not
      whole numbers: where a property depends on them ([RulesF], the
      invoicer) the code is embedded over primitive floats, which are those
      very doubles.
    - [x | null] is [option]; JavaScript truthiness ([if (x)], [x && ...],
      [x || null]) is written out by [truthy].
    - [now()] is the server clock; one call of an engine operation reads
      one clock value [t], passed as an argument. *)

From Stdlib Require Import ZArith List Bool Lia String Ascii QArith Qround Floats.
From stdpp Require Import base option list gmap strings pretty.
Import ListNotations.

Set Warnings "-inexact-float".

Close Scope Q_scope.
Local Open Scope Z_scope.

(** ** JavaScript numbers *)

(** [Number.MAX_SAFE_INTEGER + 1]: up to this magnitude every whole number
    is a double. *)
Definition max_safe : Z := 2 ^ 53.

(** The double nearest to a whole number, ties to the even significand
    (overflow to [Infinity], beyond [2^1024], is out of the range of the
    model). *)
Definition round53 (z : Z) : Z :=
  let a := Z.abs z in
  if a <=? max_safe then z
  else
    let e := Z.log2 a - 52 in
    let q := Z.shiftr a e in
    let r := a - Z.shiftl q e in
    let half := Z.shiftl 1 (e - 1) in
    let q' := if r <? half then q
              else if half <? r then q + 1
              else if Z.even q then q else q + 1 in
    Z.sgn z * Z.shiftl q' e.

(** [a + b] on two doubles that hold whole numbers. *)
Definition js_add (a b : Z) : Z := round53 (a + b).

(** The double that a whole number below [2^62] converts to, and the whole
    number that a double holds. *)
Definition float_of_whole (z : Z) : float :=
  if z <? 0 then PrimFloat.opp (PrimFloat.of_uint63 (Uint63.of_Z (- z)))
  else PrimFloat.of_uint63 (Uint63.of_Z z).

Definition whole_of_float (f : float) : Z :=
  match Prim2SF f with
  | S754_finite s m e => (if s then -1 else 1) * Z.shiftl (Z.pos m) e
  | _ => 0
  end.

(** A key of a parsed JSON object that holds a number or [null], or is not
    there at all ([undefined] when read). *)
Inductive Field (A : Type) :=
| Absent
| Null
| Num (x : A).
Arguments Absent {A}.
Arguments Null {A}.
Arguments Num {A} x.

(** JavaScript truthiness of a nullable number: [null], [undefined] and [0]
    are falsy. *)
Definition truthy (x : option Z) : bool :=
  match x with
  | Some v => negb (v =? 0)
  | None => false
  end.

(** [x || null] on a nullable number. *)
Definition or_null (x : option Z) : option Z :=
  if truthy x then x else None.

(** ** Rules: [src/utils/db.ts] *)

Module Rules.

(** [{ min: number; max: number | null; increment: number }], as
    [JSON.parse] hands it over: nothing checks that the [max] key is
    there. *)
Record IncrementRule := mkRule {
  rule_min : Z;
  rule_max : Field Z;
  rule_increment : Z
}.

(** The loop condition
    [currentBid >= rule.min && (rule.max === null || currentBid < rule.max)].
    With the key missing [rule.max] is [undefined]: it is not [=== null],
    and [currentBid < undefined] is [false]. *)
Definition covers (currentBid : Z) (rule : IncrementRule) : bool :=
  (rule_min rule <=? currentBid) &&
  match rule_max rule with
  | Null => true
  | Num m => currentBid <? m
  | Absent => false
  end.

(** [for (const rule of rules) { if (...) return rule.increment; } return 1;] *)
Fixpoint calculateBidIncrement (currentBid : Z) (rules : list IncrementRule) : Z :=
  match rules with
  | [] => 1
  | rule :: rest =>
      if covers currentBid rule then rule_increment rule
      else calculateBidIncrement currentBid rest
  end.

(** [return currentBid + increment;] *)
Definition getMinimumNextBid (currentBid : Z) (incrementRules : list IncrementRule) : Z :=
  let increment := calculateBidIncrement currentBid incrementRules in
  js_add currentBid increment.

(** A JSON text column holding increment rules, as [parseJSON] sees it:
    [NULL] or the empty string (falsy), a text on which [JSON.parse]
    throws, or a text that parses to a rule list. *)
Inductive RulesColumn :=
| ColEmpty
| ColGarbage
| ColRules (rules : list IncrementRule).

(** [if (json)] on the column. *)
Definition column_truthy (c : RulesColumn) : bool :=
  match c with
  | ColEmpty => false
  | _ => true
  end.

(** [parseJSON(json, defaultValue)]:
    [if (!json) return defaultValue; try { return JSON.parse(json) } catch { return defaultValue }] *)
Definition parseJSON (json : RulesColumn) (defaultValue : list IncrementRule)
  : list IncrementRule :=
  match json with
  | ColEmpty => defaultValue
  | ColGarbage => defaultValue
  | ColRules rules => rules
  end.

End Rules.

(** ** The tier lookup as the specification words it *)

Module Spec.
Import Rules.

(** [min <= current < (max ?? infinity)]: a tier whose [max] is [null] or
    missing has no upper bound. *)
Definition in_tier (current : Z) (tier : IncrementRule) : bool :=
  match rule_max tier with
  | Num m => (rule_min tier <=? current) && (current <? m)
  | _ => rule_min tier <=? current
  end.

(** The first tier, in list order, that the current bid lies in. *)
Fixpoint first_tier (current : Z) (rules : list IncrementRule) : option IncrementRule :=
  match rules with
  | [] => None
  | tier :: rest => if in_tier current tier then Some tier else first_tier current rest
  end.

(** [min_next_bid(current, starting, rules)]: [starting] when
    [current = 0], else [current + step] of the first tier; not defined
    when no tier matches. *)
Definition min_next_bid (current starting : Z) (rules : list IncrementRule) : option Z :=
  if current =? 0 then Some starting
  else match first_tier current rules with
       | Some tier => Some (current + rule_increment tier)
       | None => None
       end.

End Spec.

(** ** The same helpers on amounts with cents *)

(** [calculateBidIncrement], [getMinimumNextBid] and the floor test of
    [placeBid] over the doubles that the [REAL] columns hold. *)
Module RulesF.
Local Open Scope float_scope.

Record IncrementRule := mkRule {
  rule_min : float;
  rule_max : Field float;
  rule_increment : float
}.

(** [currentBid >= rule.min && (rule.max === null || currentBid < rule.max)] *)
Definition covers (currentBid : float) (rule : IncrementRule) : bool :=
  (rule_min rule <=? currentBid) &&
  match rule_max rule with
  | Null => true
  | Num m => currentBid <? m
  | Absent => false
  end.

Fixpoint calculateBidIncrement (currentBid : float) (rules : list IncrementRule) : float :=
  match rules with
  | [] => 1
  | rule :: rest =>
      if covers currentBid rule then rule_increment rule
      else calculateBidIncrement currentBid rest
  end.

Definition getMinimumNextBid (currentBid : float) (incrementRules : list IncrementRule) : float :=
  let increment := calculateBidIncrement currentBid incrementRules in
  currentBid + increment.

(** The fallback table of [getIncrementRules]. *)
Definition default_increment_rules : list IncrementRule :=
  [ mkRule 0 (Num 100) 5; mkRule 100 (Num 500) 10; mkRule 500 Null 25 ].

(** [lot.current_bid > 0 ? getMinimumNextBid(lot.current_bid, incrementRules)
                         : lot.starting_bid] *)
Definition minimum_bid (current_bid starting_bid : float) (incrementRules : list IncrementRule)
  : float :=
  if 0 <? current_bid then getMinimumNextBid current_bid incrementRules
  else starting_bid.

(** [if (amount < minimumBid) return this.error('BID_TOO_LOW', ...)] *)
Definition bid_too_low (amount current_bid starting_bid : float)
    (incrementRules : list IncrementRule) : bool :=
  amount <? minimum_bid current_bid starting_bid incrementRules.

(** The rule list of whole numbers, as doubles. *)
Definition of_whole_rule (r : Rules.IncrementRule) : IncrementRule :=
  mkRule (float_of_whole (Rules.rule_min r))
         (match Rules.rule_max r with
          | Absent => Absent
          | Null => Null
          | Num m => Num (float_of_whole m)
          end)
         (float_of_whole (Rules.rule_increment r)).

End RulesF.

(** ** The bidding engine: [BiddingEngine] *)

Module Engine.
Import Rules.

(** The number held by a nullable that has been tested truthy. *)
Definition val (x : option Z) : Z :=
  match x with
  | Some v => v
  | None => 0
  end.

(** [LotStatus], [BidType], [BidStatus], [BidAuditEventType] of
    [src/types/index.ts]. *)
Inductive LotStatus := pending | active | closed | sold | unsold | withdrawn.

(** [AuctionStatus], and the [status] and [role] columns of [users]. *)
Inductive AuctionStatus :=
| au_draft | au_published | au_active | au_closed | au_archived.

Inductive UserStatus := us_active | us_suspended | us_banned.

Inductive UserRole := role_guest | role_bidder | role_staff | role_admin.

Inductive BidType := manual | proxy_auto.

Inductive BidStatus :=
| bs_active | bs_outbid | bs_winning | bs_won | bs_lost | bs_cancelled.

Inductive BidAuditEventType :=
| bid_placed | bid_rejected | proxy_triggered | outbid_occurred
| soft_close_triggered | lot_closed | bid_cancelled | ev_reserve_met
| buy_now_executed.

(** The [code] of a [BidResult]. *)
Inductive ResultCode :=
| INVALID_AMOUNT | INVALID_MAX_BID | LOT_NOT_FOUND | LOT_NOT_ACTIVE
| AUCTION_CLOSED | BID_TOO_LOW | SELF_OUTBID | MAX_BID_TIED
| OUTBID_BY_PROXY | BID_SUCCESS | BID_FAILED.

#[global] Instance LotStatus_eq_dec : EqDecision LotStatus.
Proof. solve_decision. Defined.
#[global] Instance BidStatus_eq_dec : EqDecision BidStatus.
Proof. solve_decision. Defined.
#[global] Instance BidAuditEventType_eq_dec : EqDecision BidAuditEventType.
Proof. solve_decision. Defined.
#[global] Instance ResultCode_eq_dec : EqDecision ResultCode.
Proof. solve_decision. Defined.
#[global] Instance UserStatus_eq_dec : EqDecision UserStatus.
Proof. solve_decision. Defined.
#[global] Instance AuctionStatus_eq_dec : EqDecision AuctionStatus.
Proof. solve_decision. Defined.

(** A row of [users] (the columns the middleware reads). *)
Record User := mkUser {
  user_role : UserRole;
  user_status : UserStatus;
  email_verified : Z
}.

(** A row of [lots] (the columns the engine reads or writes). *)
Record Lot := mkLot {
  lot_id : Z;
  auction_id : Z;
  lot_number : Z;
  starting_bid : Z;
  reserve_price : option Z;
  reserve_met : bool;
  increment_override : RulesColumn;
  current_bid : Z;
  current_bidder_id : option Z;
  bid_count : Z;
  original_close_time : option Z;
  current_close_time : option Z;
  extension_count : Z;
  status : LotStatus;
  updated_at : Z;
  closed_at : option Z
}.

(** A row of [auctions] (the columns the engine reads and the closing
    route writes). *)
Record Auction := mkAuction {
  soft_close_enabled : bool;
  soft_close_trigger_minutes : Z;
  soft_close_extension_minutes : Z;
  increment_rules : RulesColumn;
  auction_status : AuctionStatus;
  auction_updated_at : Z;
  auction_closed_at : option Z
}.

(** A row of [bids].  [bidder_id] is the bound parameter, which the code
    takes from [lot.current_bidder_id] for proxy rows. *)
Record Bid := mkBid {
  bid_lot_id : Z;
  bidder_id : option Z;
  amount : Z;
  bid_type : BidType;
  max_bid : option Z;
  is_max_bid_active : bool;
  is_winning : bool;
  was_outbid : bool;
  outbid_at : option Z;
  previous_bid_amount : Z;
  previous_bidder_id : option Z;
  ip_address : option string;
  user_agent : option string;
  bid_status : BidStatus
}.

(** A row of [bid_audit_log]; the free-text columns [event_data] and
    [result_message] carry no decision of the engine and are left out. *)
Record AuditEvent := mkAudit {
  event_type : BidAuditEventType;
  ev_lot_id : Z;
  ev_auction_id : Z;
  ev_bidder_id : option Z;
  previous_amount : option Z;
  new_amount : option Z;
  result_code : string;
  ev_ip_address : option string;
  ev_user_agent : option string
}.

(** The store. *)
Record DB := mkDB {
  users : gmap Z User;
  lots : gmap Z Lot;
  auctions : gmap Z Auction;
  bids : list Bid;
  bid_audit_log : list AuditEvent
}.

Record Metadata := mkMeta {
  meta_ip_address : option string;
  meta_user_agent : option string
}.

(** [metadata?.ip_address || null] *)
Definition str_or_null (s : option string) : option string :=
  match s with
  | Some EmptyString => None
  | _ => s
  end.

Definition meta_ip (metadata : option Metadata) : option string :=
  str_or_null (metadata ≫= meta_ip_address).

Definition meta_ua (metadata : option Metadata) : option string :=
  str_or_null (metadata ≫= meta_user_agent).

(** [BidResult]; the optional members are [None] when absent. *)
Record BidResult := mkResult {
  success : bool;
  code : ResultCode;
  lot : option Lot;
  outbidOccurred : option bool;
  proxyBidTriggered : option bool;
  minimumBid : option Z;
  currentBid : option Z;
  proxyTriggered : option bool
}.

(** [private error(code, message, data)]: builds a result object and
    touches nothing else. *)
Definition error (c : ResultCode) : BidResult :=
  mkResult false c None None None None None None.

Definition error_minimumBid (c : ResultCode) (m : Z) : BidResult :=
  mkResult false c None None None (Some m) None None.

Definition error_currentBid (c : ResultCode) (cur : Z) : BidResult :=
  mkResult false c None None None None (Some cur) (Some true).

(** *** The statements the engine prepares *)

(** One prepared statement of [executeBidTransaction]. *)
Inductive Query :=
| InsertBid (row : Bid)
  (** [UPDATE lots SET current_bid = ?, [current_bidder_id = ?,]
      bid_count = bid_count + n, reserve_met = CASE ..., updated_at = ?
      WHERE id = ?] *)
| UpdateLot (lotId : Z) (newBid : Z) (newBidder : option Z) (n : Z) (t : Z)
  (** [UPDATE bids SET status = 'outbid', is_winning = 0, was_outbid = 1,
      outbid_at = ? [, is_max_bid_active = 0]
      WHERE lot_id = ? AND bidder_id = ? AND is_winning = 1] *)
| MarkOutbid (lotId : Z) (bidder : option Z) (t : Z) (clearMax : bool)
| InsertAudit (ev : AuditEvent).

Definition set_lot_bid (newBid : Z) (newBidder : option Z) (n t : Z) (l : Lot) : Lot :=
  {| lot_id := lot_id l;
     auction_id := auction_id l;
     lot_number := lot_number l;
     starting_bid := starting_bid l;
     reserve_price := reserve_price l;
     reserve_met :=
       match reserve_price l with
       | Some r => if r <=? newBid then true else reserve_met l
       | None => reserve_met l
       end;
     increment_override := increment_override l;
     current_bid := newBid;
     current_bidder_id :=
       match newBidder with
       | Some b => Some b
       | None => current_bidder_id l
       end;
     bid_count := bid_count l + n;
     original_close_time := original_close_time l;
     current_close_time := current_close_time l;
     extension_count := extension_count l;
     status := status l;
     updated_at := t;
     closed_at := closed_at l |}.

(** The [WHERE] clause of the outbid update; [bidder_id = NULL] selects
    nothing. *)
Definition outbid_target (lotId : Z) (bidder : option Z) (b : Bid) : bool :=
  (bid_lot_id b =? lotId) &&
  match bidder, bidder_id b with
  | Some x, Some y => x =? y
  | _, _ => false
  end &&
  is_winning b.

Definition set_outbid (t : Z) (clearMax : bool) (b : Bid) : Bid :=
  {| bid_lot_id := bid_lot_id b;
     bidder_id := bidder_id b;
     amount := amount b;
     bid_type := bid_type b;
     max_bid := max_bid b;
     is_max_bid_active := if clearMax then false else is_max_bid_active b;
     is_winning := false;
     was_outbid := true;
     outbid_at := Some t;
     previous_bid_amount := previous_bid_amount b;
     previous_bidder_id := previous_bidder_id b;
     ip_address := ip_address b;
     user_agent := user_agent b;
     bid_status := bs_outbid |}.

(** What a statement writes when the database accepts it. *)
Definition write (db : DB) (q : Query) : DB :=
  match q with
  | InsertBid row =>
      mkDB (users db) (lots db) (auctions db) (bids db ++ [row]) (bid_audit_log db)
  | UpdateLot lotId newBid newBidder n t =>
      mkDB (users db) (alter (set_lot_bid newBid newBidder n t) lotId (lots db))
           (auctions db) (bids db) (bid_audit_log db)
  | MarkOutbid lotId bidder t clearMax =>
      mkDB (users db) (lots db) (auctions db)
           (map (fun b => if outbid_target lotId bidder b
                          then set_outbid t clearMax b else b) (bids db))
           (bid_audit_log db)
  | InsertAudit ev =>
      mkDB (users db) (lots db) (auctions db) (bids db) (bid_audit_log db ++ [ev])
  end.

(** [REFERENCES users(id)] on a nullable column. *)
Definition user_ref (db : DB) (u : option Z) : bool :=
  match u with
  | Some id => bool_decide (is_Some (users db !! id))
  | None => true
  end.

Definition lot_ref (db : DB) (lotId : Z) : bool :=
  bool_decide (is_Some (lots db !! lotId)).

Definition auction_ref (db : DB) (auctionId : Z) : bool :=
  bool_decide (is_Some (auctions db !! auctionId)).

(** The constraints of the schema that a statement can break:
    [bids.bidder_id INTEGER NOT NULL] and the foreign keys of [bids]
    ([lot_id], [bidder_id], [previous_bidder_id]), of [lots]
    ([current_bidder_id]) and of [bid_audit_log] ([lot_id], [auction_id],
    [bidder_id]; [bid_id] is never bound). *)
Definition accepted (db : DB) (q : Query) : bool :=
  match q with
  | InsertBid row =>
      lot_ref db (bid_lot_id row) &&
      match bidder_id row with
      | Some b => user_ref db (Some b)
      | None => false
      end &&
      user_ref db (previous_bidder_id row)
  | UpdateLot lotId newBid newBidder n t =>
      negb (lot_ref db lotId) || user_ref db newBidder
  | MarkOutbid lotId bidder t clearMax => true
  | InsertAudit ev =>
      lot_ref db (ev_lot_id ev) && auction_ref db (ev_auction_id ev) &&
      user_ref db (ev_bidder_id ev)
  end.

(** One statement: [None] when it throws. *)
Definition run_query (db : DB) (q : Query) : option DB :=
  if accepted db q then Some (write db q) else None.

(** [transaction(db, queries)]: [db.batch] runs the statements in order
    and commits them together; when one throws, nothing is written and
    the call throws ([None]). *)
Fixpoint transaction (db : DB) (queries : list Query) : option DB :=
  match queries with
  | [] => Some db
  | q :: rest =>
      match run_query db q with
      | Some db1 => transaction db1 rest
      | None => None
      end
  end.

(** The store after every statement of a list has been written. *)
Definition committed (db : DB) (queries : list Query) : DB :=
  fold_left write queries db.

(** [createAuditLog(eventType, lot, bidderId, newAmount, previousAmount,
    resultCode, resultMessage, metadata)] *)
Definition createAuditLog (eventType : BidAuditEventType) (l : Lot)
    (bidderId : option Z) (newAmount previousAmount : option Z)
    (resultCode : string) (metadata : option Metadata) : Query :=
  InsertAudit
    {| event_type := eventType;
       ev_lot_id := lot_id l;
       ev_auction_id := auction_id l;
       ev_bidder_id := bidderId;
       previous_amount := previousAmount;
       new_amount := newAmount;
       result_code := resultCode;
       ev_ip_address := meta_ip metadata;
       ev_user_agent := meta_ua metadata |}.

(** *** Reads *)

(** [getActiveMaxBid(lotId, bidderId)]:
    [SELECT max_bid FROM bids WHERE lot_id = ? AND bidder_id = ? AND
    is_max_bid_active = 1 ORDER BY created_at DESC LIMIT 1], then
    [bid?.max_bid || null].  [created_at] is the insertion time, so the
    latest row is the last matching row of the table. *)
Definition active_max_row (lotId bidderId : Z) (b : Bid) : bool :=
  (bid_lot_id b =? lotId) &&
  match bidder_id b with
  | Some y => y =? bidderId
  | None => false
  end &&
  is_max_bid_active b.

Definition getActiveMaxBid (db : DB) (lotId bidderId : Z) : option Z :=
  match List.filter (active_max_row lotId bidderId) (rev (bids db)) with
  | [] => None
  | bid :: _ => or_null (max_bid bid)
  end.

(** The fallback table of [getIncrementRules]. *)
Definition default_increment_rules : list IncrementRule :=
  [ mkRule 0 (Num 100) 5; mkRule 100 (Num 500) 10; mkRule 500 Null 25 ].

(** [getIncrementRules(lot)] *)
Definition getIncrementRules (db : DB) (l : Lot) : list IncrementRule :=
  if column_truthy (increment_override l) then
    parseJSON (increment_override l) []
  else
    let auction := auctions db !! auction_id l in
    parseJSON (match auction with
               | Some a => increment_rules a
               | None => ColEmpty
               end)
              default_increment_rules.

(** *** [executeBidTransaction] *)

Definition new_bid_row (l : Lot) (bidder : option Z) (amt : Z) (ty : BidType)
    (mx : option Z) (act win : bool) (ip ua : option string) (st : BidStatus) : Bid :=
  {| bid_lot_id := lot_id l;
     bidder_id := bidder;
     amount := amt;
     bid_type := ty;
     max_bid := mx;
     is_max_bid_active := act;
     is_winning := win;
     was_outbid := false;
     outbid_at := None;
     previous_bid_amount := current_bid l;
     previous_bidder_id := current_bidder_id l;
     ip_address := ip;
     user_agent := ua;
     bid_status := st |}.

(** Scenario 1 (no existing max bid): the statements pushed, in order.
    [if (maxBid && maxBid > bidAmount) finalBidAmount = bidAmount] assigns
    the value [finalBidAmount] already has. *)
Definition simple_bid_queries (l : Lot) (bidderId bidAmount : Z)
    (maxBid : option Z) (metadata : option Metadata) (t : Z) : list Query :=
  let finalBidAmount := bidAmount in
  [ InsertBid (new_bid_row l (Some bidderId) finalBidAmount manual
                 (or_null maxBid) (truthy maxBid) true
                 (meta_ip metadata) (meta_ua metadata) bs_winning);
    UpdateLot (lot_id l) finalBidAmount (Some bidderId) 1 t ]
  ++ (if truthy (current_bidder_id l)
      then [ MarkOutbid (lot_id l) (current_bidder_id l) t false ]
      else [])
  ++ [ createAuditLog bid_placed l (Some bidderId) (Some finalBidAmount)
         (Some (current_bid l)) "success" metadata ].

(** Scenario 2, new bidder's max above the incumbent's. *)
Definition overtake_queries (l : Lot) (bidderId : Z) (maxBid : option Z)
    (h finalBidAmount : Z) (metadata : option Metadata) (t : Z) : list Query :=
  [ InsertBid (new_bid_row l (Some bidderId) finalBidAmount manual
                 maxBid true true
                 (meta_ip metadata) (meta_ua metadata) bs_winning);
    InsertBid (new_bid_row l (current_bidder_id l) h proxy_auto
                 (Some h) false false None None bs_outbid);
    UpdateLot (lot_id l) finalBidAmount (Some bidderId) 2 t;
    MarkOutbid (lot_id l) (current_bidder_id l) t true;
    createAuditLog proxy_triggered l (current_bidder_id l) (Some h)
      (Some (current_bid l)) "outbid" metadata;
    createAuditLog bid_placed l (Some bidderId) (Some finalBidAmount)
      (Some h) "success" metadata ].

(** Scenario 2, incumbent's max is higher: the statements pushed before
    the function returns. *)
Definition defend_queries (l : Lot) (bidderId bidAmount : Z) (maxBid : option Z)
    (h finalBidAmount : Z) (metadata : option Metadata) (t : Z) : list Query :=
  let placed := if truthy maxBid then val maxBid else bidAmount in
  [ InsertBid (new_bid_row l (Some bidderId) placed manual
                 (or_null maxBid) false false
                 (meta_ip metadata) (meta_ua metadata) bs_outbid);
    InsertBid (new_bid_row l (current_bidder_id l) finalBidAmount proxy_auto
                 (Some h) true true None None bs_winning);
    UpdateLot (lot_id l) finalBidAmount None 2 t;
    createAuditLog bid_placed l (Some bidderId) (Some placed)
      (Some (current_bid l)) "outbid" metadata;
    createAuditLog proxy_triggered l (current_bidder_id l) (Some finalBidAmount)
      (Some (current_bid l)) "success" metadata ].

(** The success object built after [await transaction(this.db, queries)]
    and the re-read of the lot; [None] when the batch throws. *)
Definition commit (db : DB) (l : Lot) (queries : list Query)
    (proxy outbid : bool) : option (BidResult * DB) :=
  match transaction db queries with
  | Some db' =>
      let updatedLot := lots db' !! lot_id l in
      Some (mkResult true BID_SUCCESS updatedLot (Some outbid) (Some proxy)
              None None None,
            db')
  | None => None
  end.

(** [executeBidTransaction(lot, bidderId, bidAmount, maxBid,
    currentHighBidderMaxBid, incrementRules, metadata)]; [None] when it
    throws.

    The two [return this.error(...)] of the proxy scenario leave the
    function before [await transaction(this.db, queries)] is reached: the
    statements pushed so far are dropped with the local array. *)
Definition executeBidTransaction (db : DB) (l : Lot) (bidderId bidAmount : Z)
    (maxBid currentHighBidderMaxBid : option Z)
    (incrementRules : list IncrementRule) (metadata : option Metadata) (t : Z)
  : option (BidResult * DB) :=
  if negb (truthy currentHighBidderMaxBid) then
    let queries := simple_bid_queries l bidderId bidAmount maxBid metadata t in
    commit db l queries false (truthy (current_bidder_id l))
  else
    let h := val currentHighBidderMaxBid in
    let increment := calculateBidIncrement (current_bid l) incrementRules in
    if truthy maxBid && (h <? val maxBid) then
      let finalBidAmount := Z.min (val maxBid) (js_add h increment) in
      let queries := overtake_queries l bidderId maxBid h finalBidAmount metadata t in
      commit db l queries true true
    else if truthy maxBid && (val maxBid =? h) then
      Some (error MAX_BID_TIED, db)
    else
      let finalBidAmount :=
        if truthy maxBid then Z.min h (js_add (val maxBid) increment)
        else js_add bidAmount increment in
      let queries := defend_queries l bidderId bidAmount maxBid h finalBidAmount metadata t in
      Some (error_currentBid OUTBID_BY_PROXY finalBidAmount, db).

(** *** [checkSoftClose] *)

Definition set_close_time (newCloseTime t : Z) (l : Lot) : Lot :=
  {| lot_id := lot_id l;
     auction_id := auction_id l;
     lot_number := lot_number l;
     starting_bid := starting_bid l;
     reserve_price := reserve_price l;
     reserve_met := reserve_met l;
     increment_override := increment_override l;
     current_bid := current_bid l;
     current_bidder_id := current_bidder_id l;
     bid_count := bid_count l;
     original_close_time := original_close_time l;
     current_close_time := Some newCloseTime;
     extension_count := extension_count l + 1;
     status := status l;
     updated_at := t;
     closed_at := closed_at l |}.

(** [checkSoftClose(lot, currentTime)]; [lot] is the row read at the top
    of [placeBid]. *)
Definition checkSoftClose (db : DB) (l : Lot) (currentTime : Z) : DB :=
  if negb (truthy (current_close_time l)) then db
  else
    match auctions db !! auction_id l with
    | None => db
    | Some auction =>
        if negb (soft_close_enabled auction) then db
        else
          let timeUntilClose := val (current_close_time l) - currentTime in
          let triggerSeconds := soft_close_trigger_minutes auction * 60 in
          if timeUntilClose <=? triggerSeconds then
            let extensionSeconds := soft_close_extension_minutes auction * 60 in
            let newCloseTime := currentTime + extensionSeconds in
            mkDB (users db)
                 (alter (set_close_time newCloseTime currentTime) (lot_id l) (lots db))
                 (auctions db)
                 (bids db)
                 (bid_audit_log db ++
                  [ {| event_type := soft_close_triggered;
                       ev_lot_id := lot_id l;
                       ev_auction_id := auction_id l;
                       ev_bidder_id := None;
                       previous_amount := current_close_time l;
                       new_amount := Some newCloseTime;
                       result_code := "extended";
                       ev_ip_address := None;
                       ev_user_agent := None |} ])
          else db
    end.

(** *** [placeBid] *)

(** The floor computed in [placeBid]:
    [lot.current_bid > 0 ? getMinimumNextBid(lot.current_bid, incrementRules)
                         : lot.starting_bid]. *)
Definition minimum_bid (l : Lot) (incrementRules : list IncrementRule) : Z :=
  if 0 <? current_bid l
  then getMinimumNextBid (current_bid l) incrementRules
  else starting_bid l.

(** [placeBid(lotId, bidderId, amount, maxBid, metadata)] at server time
    [t].  The [catch] branch answers [BID_FAILED] when the batch throws:
    nothing was written, and [checkSoftClose] is not reached. *)
Definition placeBid (db : DB) (lotId bidderId amount : Z) (maxBid : option Z)
    (metadata : option Metadata) (t : Z) : BidResult * DB :=
  if amount <=? 0 then (error INVALID_AMOUNT, db)
  else if truthy maxBid && (val maxBid <? amount) then (error INVALID_MAX_BID, db)
  else
    match lots db !! lotId with
    | None => (error LOT_NOT_FOUND, db)
    | Some l =>
        if negb (bool_decide (status l = active)) then (error LOT_NOT_ACTIVE, db)
        else
          let currentTime := t in
          if truthy (current_close_time l) && (val (current_close_time l) <=? currentTime)
          then (error AUCTION_CLOSED, db)
          else
            let incrementRules := getIncrementRules db l in
            let minimumBid := minimum_bid l incrementRules in
            if amount <? minimumBid then (error_minimumBid BID_TOO_LOW minimumBid, db)
            else if bool_decide (current_bidder_id l = Some bidderId)
            then (error SELF_OUTBID, db)
            else
              let currentHighBidderMaxBid :=
                if truthy (current_bidder_id l)
                then getActiveMaxBid db lotId (val (current_bidder_id l))
                else None in
              match executeBidTransaction db l bidderId amount maxBid
                      currentHighBidderMaxBid incrementRules metadata t with
              | Some (result, db1) =>
                  let db2 := checkSoftClose db1 l currentTime in
                  (result, db2)
              | None => (error BID_FAILED, db)
              end
    end.

(** *** [closeLot] *)

Definition set_closed (st : LotStatus) (t : Z) (l : Lot) : Lot :=
  {| lot_id := lot_id l;
     auction_id := auction_id l;
     lot_number := lot_number l;
     starting_bid := starting_bid l;
     reserve_price := reserve_price l;
     reserve_met := reserve_met l;
     increment_override := increment_override l;
     current_bid := current_bid l;
     current_bidder_id := current_bidder_id l;
     bid_count := bid_count l;
     original_close_time := original_close_time l;
     current_close_time := current_close_time l;
     extension_count := extension_count l;
     status := st;
     updated_at := t;
     closed_at := Some t |}.

Definition set_bid_status (st : BidStatus) (b : Bid) : Bid :=
  {| bid_lot_id := bid_lot_id b;
     bidder_id := bidder_id b;
     amount := amount b;
     bid_type := bid_type b;
     max_bid := max_bid b;
     is_max_bid_active := is_max_bid_active b;
     is_winning := is_winning b;
     was_outbid := was_outbid b;
     outbid_at := outbid_at b;
     previous_bid_amount := previous_bid_amount b;
     previous_bidder_id := previous_bidder_id b;
     ip_address := ip_address b;
     user_agent := user_agent b;
     bid_status := st |}.

(** [lot.reserve_price && !lot.reserve_met ? 'unsold' : 'sold'] *)
Definition final_status (l : Lot) : LotStatus :=
  if truthy (reserve_price l) && negb (reserve_met l) then unsold else sold.

Definition status_text (st : LotStatus) : string :=
  match st with
  | pending => "pending" | active => "active" | closed => "closed"
  | sold => "sold" | unsold => "unsold" | withdrawn => "withdrawn"
  end.

(** [WHERE lot_id = ? AND bidder_id = ? AND is_winning = 1] *)
Definition winning_row (lotId : Z) (bidder : option Z) (b : Bid) : bool :=
  outbid_target lotId bidder b.

(** [WHERE lot_id = ? AND status NOT IN ('won', 'cancelled')] *)
Definition losing_row (lotId : Z) (b : Bid) : bool :=
  (bid_lot_id b =? lotId) &&
  negb (bool_decide (bid_status b = bs_won)) &&
  negb (bool_decide (bid_status b = bs_cancelled)).

(** [closeLot(lotId)] at server time [t]. *)
Definition closeLot (db : DB) (lotId : Z) (t : Z) : DB :=
  match lots db !! lotId with
  | None => db
  | Some l =>
      let st := final_status l in
      let lots1 := alter (set_closed st t) lotId (lots db) in
      let bids1 :=
        if truthy (current_bidder_id l) && bool_decide (st = sold)
        then map (fun b => if winning_row lotId (current_bidder_id l) b
                           then set_bid_status bs_won b else b) (bids db)
        else bids db in
      let bids2 :=
        map (fun b => if losing_row lotId b then set_bid_status bs_lost b else b) bids1 in
      mkDB (users db) lots1 (auctions db) bids2
           (bid_audit_log db ++
            [ {| event_type := lot_closed;
                 ev_lot_id := lot_id l;
                 ev_auction_id := auction_id l;
                 ev_bidder_id := current_bidder_id l;
                 previous_amount := None;
                 new_amount := Some (current_bid l);
                 result_code := status_text st;
                 ev_ip_address := None;
                 ev_user_agent := None |} ])
  end.

End Engine.

(** ** The invoicer: [InvoiceService.generateInvoice] *)

Module Invoicer.
Local Open Scope float_scope.

(** [BuyersPremiumRule]: [{ min; max | null; rate }], rate as a decimal
    fraction ([0.15] is 15%). *)
Record BuyersPremiumRule := mkPremiumRule {
  bp_min : float;
  bp_max : Field float;
  bp_rate : float
}.

(** [amount >= rule.min && (rule.max === null || amount < rule.max)] *)
Definition bp_covers (amount : float) (rule : BuyersPremiumRule) : bool :=
  (bp_min rule <=? amount) &&
  match bp_max rule with
  | Null => true
  | Num m => amount <? m
  | Absent => false
  end.

(** [calculateBuyersPremium(amount, rules)] of [src/utils/db.ts]. *)
Fixpoint calculateBuyersPremium (amount : float) (rules : list BuyersPremiumRule) : float :=
  match rules with
  | [] => 0
  | rule :: rest =>
      if bp_covers amount rule then amount * bp_rate rule
      else calculateBuyersPremium amount rest
  end.

(** The loop of [generateInvoice] that finds the applicable rate:
    [let buyersPremiumRate = 0; for (...) if (...) { buyersPremiumRate = rule.rate; break; }] *)
Fixpoint applicable_rate (winningBid : float) (rules : list BuyersPremiumRule) : float :=
  match rules with
  | [] => 0
  | rule :: rest =>
      if bp_covers winningBid rule then bp_rate rule
      else applicable_rate winningBid rest
  end.

(** A row of the winning-lots query. *)
Record WinningLot := mkWinningLot {
  wl_lot_id : Z;
  wl_lot_number : Z;
  wl_current_bid : float;
  wl_lot_shipping : bool
}.

(** A row of [invoice_items]. *)
Record InvoiceItem := mkItem {
  item_lot_id : Z;
  item_lot_number : Z;
  winning_bid : float;
  buyers_premium_rate : float;
  buyers_premium_amount : float;
  tax_rate : float;
  tax_amount : float;
  shipping_amount : float;
  line_total : float
}.

Inductive PaymentStatus := unpaid | paid.
Inductive FulfillmentStatus := fulfil_pending | picked_up | shipped | delivered.

(** A row of [invoices] together with its line items. *)
Record Invoice := mkInvoice {
  inv_auction_id : Z;
  inv_bidder_id : Z;
  subtotal : float;
  buyers_premium : float;
  tax : float;
  shipping : float;
  total : float;
  payment_status : PaymentStatus;
  fulfillment_status : FulfillmentStatus;
  line_items : list InvoiceItem
}.

(** The running totals of the [for (const lot of lots)] loop. *)
Record Totals := mkTotals {
  acc_subtotal : float;
  acc_premium : float;
  acc_tax : float;
  acc_shipping : float;
  acc_items : list InvoiceItem
}.

(** The line item computed for one lot. *)
Definition line_item (rules : list BuyersPremiumRule) (taxEnabled : bool)
    (taxRate : float) (shippingAvailable : bool) (l : WinningLot) : InvoiceItem :=
  let winningBid := wl_current_bid l in
  let buyersPremium := calculateBuyersPremium winningBid rules in
  let buyersPremiumRate := applicable_rate winningBid rules in
  let taxAmount := if taxEnabled then (winningBid + buyersPremium) * taxRate else 0 in
  let shippingAmount := if wl_lot_shipping l && shippingAvailable then 0 else 0 in
  let lineTotal := winningBid + buyersPremium + taxAmount + shippingAmount in
  {| item_lot_id := wl_lot_id l;
     item_lot_number := wl_lot_number l;
     winning_bid := winningBid;
     buyers_premium_rate := buyersPremiumRate;
     buyers_premium_amount := buyersPremium;
     tax_rate := taxRate;
     tax_amount := taxAmount;
     shipping_amount := shippingAmount;
     line_total := lineTotal |}.

(** One iteration of the loop body. *)
Definition add_lot (rules : list BuyersPremiumRule) (taxEnabled : bool)
    (taxRate : float) (shippingAvailable : bool) (acc : Totals) (l : WinningLot) : Totals :=
  let item := line_item rules taxEnabled taxRate shippingAvailable l in
  {| acc_subtotal := acc_subtotal acc + winning_bid item;
     acc_premium := acc_premium acc + buyers_premium_amount item;
     acc_tax := acc_tax acc + tax_amount item;
     acc_shipping := acc_shipping acc + shipping_amount item;
     acc_items := acc_items acc ++ [item] |}.

(** [generateInvoice(auctionId, bidderId, lots, buyersPremiumRules,
    taxEnabled, taxRate, shippingAvailable)]: the invoice row and the item
    rows it writes. *)
Definition generateInvoice (auctionId bidderId : Z) (lots : list WinningLot)
    (buyersPremiumRules : list BuyersPremiumRule) (taxEnabled : bool)
    (taxRate : float) (shippingAvailable : bool) : Invoice :=
  let acc :=
    fold_left (add_lot buyersPremiumRules taxEnabled taxRate shippingAvailable)
              lots (mkTotals 0 0 0 0 []) in
  let total := acc_subtotal acc + acc_premium acc + acc_tax acc + acc_shipping acc in
  {| inv_auction_id := auctionId;
     inv_bidder_id := bidderId;
     subtotal := acc_subtotal acc;
     buyers_premium := acc_premium acc;
     tax := acc_tax acc;
     shipping := acc_shipping acc;
     total := total;
     payment_status := unpaid;
     fulfillment_status := fulfil_pending;
     line_items := acc_items acc |}.

(** A column of the invoice as the loop accumulates it:
    [let s = 0; for (...) s += x]. *)
Definition running_sum (xs : list float) : float :=
  fold_left (fun s x => s + x) xs 0.

(** The first rule, in list order, that covers a winning bid. *)
Definition covering_rule (winningBid : float) (rules : list BuyersPremiumRule)
  : option BuyersPremiumRule :=
  List.find (bp_covers winningBid) rules.

(** What one line of the invoice holds. *)
Definition line_ok (rules : list BuyersPremiumRule) (taxEnabled : bool)
    (taxRate : float) (l : WinningLot) (it : InvoiceItem) : Prop :=
  item_lot_id it = wl_lot_id l /\
  winning_bid it = wl_current_bid l /\
  match covering_rule (wl_current_bid l) rules with
  | Some rule =>
      buyers_premium_rate it = bp_rate rule /\
      buyers_premium_amount it = winning_bid it * buyers_premium_rate it
  | None =>
      buyers_premium_rate it = 0 /\ buyers_premium_amount it = 0
  end /\
  tax_amount it =
    (if taxEnabled then (winning_bid it + buyers_premium_amount it) * taxRate else 0) /\
  shipping_amount it = 0 /\
  line_total it =
    winning_bid it + buyers_premium_amount it + tax_amount it + shipping_amount it.

(** Scenario 7 of the specification: winning bids 100.00 and 250.55, one
    premium tier of 15%, no tax, no shipping. *)
Definition scenario_lots : list WinningLot :=
  [ mkWinningLot 1 1 100 false; mkWinningLot 2 2 250.55 false ].

Definition scenario_rules : list BuyersPremiumRule :=
  [ mkPremiumRule 0 Null 0.15 ].

Definition scenario_invoice : Invoice :=
  generateInvoice 1 7 scenario_lots scenario_rules false 0 false.

End Invoicer.

(** ** The image importer: [ImportService] *)

Module Importer.

(** *** [parseImageFilename] *)

(** [\d] *)
Definition is_digit (c : ascii) : bool :=
  let n := nat_of_ascii c in
  ((48 <=? n)%nat && (n <=? 57)%nat)%bool.

(** Case folding of the [i] flag on ASCII letters. *)
Definition lower (c : ascii) : ascii :=
  let n := nat_of_ascii c in
  if ((65 <=? n)%nat && (n <=? 90)%nat)%bool then ascii_of_nat (n + 32) else c.

Fixpoint chars_eqb (s1 s2 : list ascii) : bool :=
  match s1, s2 with
  | [], [] => true
  | c1 :: r1, c2 :: r2 => Ascii.eqb c1 c2 && chars_eqb r1 r2
  | _, _ => false
  end.

(** The whole number that a run of decimal digits writes. *)
Definition digit_value (c : ascii) : Z := Z.of_nat (nat_of_ascii c) - 48.

Definition decimal_value (ds : list ascii) : Z :=
  fold_left (fun acc c => acc * 10 + digit_value c) ds 0.

(** [parseInt] on a run of decimal digits: the Number for that value,
    which is the nearest double (an engine may drop digits after the
    twentieth before it rounds). *)
Definition parseInt (ds : list ascii) : Z :=
  round53 (decimal_value ds).

(** The longest prefix of digits, and what follows it. *)
Fixpoint span_digits (s : list ascii) : list ascii * list ascii :=
  match s with
  | c :: r =>
      if is_digit c
      then let '(ds, rest) := span_digits r in (c :: ds, rest)
      else ([], s)
  | [] => ([], [])
  end.

(** The extensions of [/\.(jpg|jpeg|png|gif|webp|heic)$/i], dot included. *)
Definition extensions : list (list ascii) :=
  map list_ascii_of_string [".jpg"; ".jpeg"; ".png"; ".gif"; ".webp"; ".heic"]%string.

(** [s] without the suffix [ext], when [s] ends with it up to case. *)
Definition strip_suffix (ext s : list ascii) : option (list ascii) :=
  let n := (length s - length ext)%nat in
  if ((length ext <=? length s)%nat && chars_eqb (map lower (skipn n s)) ext)%bool
  then Some (firstn n s)
  else None.

(** [filename.replace(/\.(jpg|jpeg|png|gif|webp|heic)$/i, '')] *)
Fixpoint strip_extension_from (exts : list (list ascii)) (s : list ascii) : list ascii :=
  match exts with
  | [] => s
  | ext :: rest =>
      match strip_suffix ext s with
      | Some stem => stem
      | None => strip_extension_from rest s
      end
  end.

Definition strip_extension (s : list ascii) : list ascii :=
  strip_extension_from extensions s.

(** [^(\d+)[seps](\d+)$] *)
Definition digits_sep_digits (seps : list ascii) (s : list ascii) : option (Z * Z) :=
  let '(d1, rest) := span_digits s in
  match d1, rest with
  | _ :: _, sep :: ((_ :: _) as d2) =>
      if (existsb (Ascii.eqb sep) seps && forallb is_digit d2)%bool
      then Some (parseInt d1, parseInt d2)
      else None
  | _, _ => None
  end.

(** [/^(\d+)-(\d+)$/] *)
Definition pattern_dash (s : list ascii) : option (Z * Z) :=
  digits_sep_digits ["-"%char] s.

(** [/^lot[_-]?(\d+)[_-](\d+)$/i] *)
Definition pattern_lot (s : list ascii) : option (Z * Z) :=
  match s with
  | l :: o :: t :: r =>
      if chars_eqb [lower l; lower o; lower t] (list_ascii_of_string "lot")
      then
        let r' :=
          match r with
          | c :: r1 => if (Ascii.eqb c "_" || Ascii.eqb c "-")%bool then r1 else r
          | [] => r
          end in
        digits_sep_digits ["_"%char; "-"%char] r'
      else None
  | _ => None
  end.

(** [/^(\d+)_(\d+)$/] *)
Definition pattern_underscore (s : list ascii) : option (Z * Z) :=
  digits_sep_digits ["_"%char] s.

(** [/^(\d+)\.(\d+)$/] *)
Definition pattern_dot (s : list ascii) : option (Z * Z) :=
  digits_sep_digits ["."%char] s.

Definition patterns : list (list ascii -> option (Z * Z)) :=
  [ pattern_dash; pattern_lot; pattern_underscore; pattern_dot ].

Fixpoint first_match (ps : list (list ascii -> option (Z * Z))) (s : list ascii)
  : option (Z * Z) :=
  match ps with
  | [] => None
  | p :: rest =>
      match p s with
      | Some r => Some r
      | None => first_match rest s
      end
  end.

(** [parseImageFilename(filename)]: [Some (lotNumber, photoOrder)], or
    [None] for [{ lotNumber: null, photoOrder: null }]. *)
Definition parseImageFilename (filename : string) : option (Z * Z) :=
  let nameWithoutExt := strip_extension (list_ascii_of_string filename) in
  first_match patterns nameWithoutExt.

(** *** [processBulkImages] *)

(** [MatchStatus] of [src/types/index.ts]. *)
Inductive MatchStatus := matched | unmatched | conflict | manual.

#[global] Instance MatchStatus_eq_dec : EqDecision MatchStatus.
Proof. solve_decision. Defined.

(** The two reason texts the function produces. *)
Inductive Reason :=
| NoLotFound (lotNumber : Z)   (** [No lot found with number N] *)
| CouldNotParse.               (** [Could not parse lot number from filename] *)

Record ImageMatchResult := mkMatch {
  filename : string;
  lotNumber : option Z;
  photoOrder : option Z;
  status : MatchStatus;
  reason : option Reason
}.

(** A row of [image_mappings]. *)
Record ImageMapping := mkMapping {
  import_batch_id : string;
  im_filename : string;
  file_url : string;
  parsed_lot_number : option Z;
  parsed_photo_order : option Z;
  match_status : MatchStatus;
  assigned_lot_id : option Z;
  assigned_order : option Z;
  conflict_reason : option Reason
}.

Inductive BatchStatus := partial | completed.

(** The [images_bulk] row of [import_batches]. *)
Record ImportBatch := mkBatch {
  batch_id : string;
  batch_auction_id : Z;
  batch_status : BatchStatus;
  total_items : nat;
  successful_items : nat;
  failed_items : nat;
  created_by : Z
}.

(** The tables the function reads and writes: the ids in [users] and
    [auctions], the rows of [lots] as [(id, auction_id, lot_number)], and
    the two import tables in insertion order. *)
Record Store := mkStore {
  user_ids : list Z;
  auction_ids : list Z;
  lot_rows : list (Z * Z * Z);
  import_batches : list ImportBatch;
  image_mappings : list ImageMapping
}.

Definition has_id (id : Z) (ids : list Z) : bool := existsb (Z.eqb id) ids.

Definition has_batch (st : Store) (batchId : string) : bool :=
  existsb (fun b => String.eqb (batch_id b) batchId) (import_batches st).

(** [SELECT id, lot_number FROM lots WHERE auction_id = ?] *)
Definition lots_of_auction (st : Store) (auctionId : Z) : list (Z * Z) :=
  map (fun '(id, _, lot_number) => (id, lot_number))
      (List.filter (fun '(_, auction, _) => auction =? auctionId) (lot_rows st)).

(** [lotMap]: lot number to lot id, filled from the rows of the query. *)
Definition build_lotMap (lots : list (Z * Z)) : gmap Z Z :=
  fold_left (fun m '(id, lot_number) => <[lot_number := id]> m) lots ∅.

(** The body of [for (const image of images)]: the row it inserts and the
    result it pushes after the insert.  It reads [lotMap] and the image
    only. *)
Definition process_image (batchId : string) (lotMap : gmap Z Z)
    (image : string * string) : ImageMatchResult * ImageMapping :=
  let '(name, url) := image in
  match parseImageFilename name with
  | Some (lotNum, order) =>
      match lotMap !! lotNum with
      | Some lotId =>
          if negb (lotId =? 0) then
            (mkMatch name (Some lotNum) (Some order) matched None,
             mkMapping batchId name url (Some lotNum) (Some order) matched
                       (Some lotId) (Some order) None)
          else
            (mkMatch name (Some lotNum) (Some order) unmatched (Some (NoLotFound lotNum)),
             mkMapping batchId name url (Some lotNum) (Some order) unmatched
                       None None (Some (NoLotFound lotNum)))
      | None =>
          (mkMatch name (Some lotNum) (Some order) unmatched (Some (NoLotFound lotNum)),
           mkMapping batchId name url (Some lotNum) (Some order) unmatched
                     None None (Some (NoLotFound lotNum)))
      end
  | None =>
      (mkMatch name None None unmatched (Some CouldNotParse),
       mkMapping batchId name url None None unmatched None None (Some CouldNotParse))
  end.

(** [INSERT INTO image_mappings]: the row must name a batch of
    [import_batches] ([import_batch_id REFERENCES import_batches(id)]) and,
    when it is assigned, a lot of [lots]. *)
Definition mapping_accepted (st : Store) (row : ImageMapping) : bool :=
  has_batch st (import_batch_id row) &&
  match assigned_lot_id row with
  | Some id => has_id id (map (fun '(id, _, _) => id) (lot_rows st))
  | None => true
  end.

Definition insert_mapping (st : Store) (row : ImageMapping) : Store :=
  mkStore (user_ids st) (auction_ids st) (lot_rows st) (import_batches st)
          (image_mappings st ++ [row]).

(** [INSERT INTO import_batches]: [id] is the primary key, [auction_id]
    and [created_by] are foreign keys. *)
Definition batch_accepted (st : Store) (batch : ImportBatch) : bool :=
  negb (has_batch st (batch_id batch)) &&
  has_id (batch_auction_id batch) (auction_ids st) &&
  has_id (created_by batch) (user_ids st).

Definition insert_batch (st : Store) (batch : ImportBatch) : Store :=
  mkStore (user_ids st) (auction_ids st) (lot_rows st) (import_batches st ++ [batch])
          (image_mappings st).

(** The loop: every insert is a statement of its own, so the rows written
    before a throw stay; [None] is the throw. *)
Fixpoint process_images (st : Store) (batchId : string) (lotMap : gmap Z Z)
    (images : list (string * string)) (results : list ImageMatchResult)
  : option (list ImageMatchResult) * Store :=
  match images with
  | [] => (Some results, st)
  | image :: rest =>
      let '(r, row) := process_image batchId lotMap image in
      if mapping_accepted st row
      then process_images (insert_mapping st row) batchId lotMap rest (results ++ [r])
      else (None, st)
  end.

Definition count_status (st : MatchStatus) (results : list ImageMatchResult) : nat :=
  length (List.filter (fun r => bool_decide (status r = st)) results).

(** [processBulkImages(auctionId, images, createdBy)] with [batchId] the
    value of [generateId()]: what it returns ([None] when it throws) and
    the store it leaves. *)
Definition processBulkImages (st : Store) (batchId : string) (auctionId : Z)
    (images : list (string * string)) (createdBy : Z)
  : option (string * list ImageMatchResult) * Store :=
  let lotMap := build_lotMap (lots_of_auction st auctionId) in
  match process_images st batchId lotMap images [] with
  | (Some results, st1) =>
      let nmatched := count_status matched results in
      let nunmatched := count_status unmatched results in
      let batch :=
        mkBatch batchId auctionId
                (if (0 <? nunmatched)%nat then partial else completed)
                (length images) nmatched nunmatched createdBy in
      if batch_accepted st1 batch
      then (Some (batchId, results), insert_batch st1 batch)
      else (None, st1)
  | (None, st1) => (None, st1)
  end.

(** Scenario 8 of the specification: lot number 12 exists (id 40). *)
Definition scenario_images : list (string * string) :=
  [ ("12-1.jpg", "/images/12-1.jpg");
    ("lot_12_2.PNG", "/images/lot_12_2.PNG");
    ("12.3.webp", "/images/12.3.webp");
    ("foo.jpg", "/images/foo.jpg");
    ("12-1.jpg", "/images/12-1.jpg") ]%string.

Definition scenario_lots : list (Z * Z) := [ (40, 12) ].

(** The store of scenario 8: auction 1 with lot 12 (id 40), staff user 9,
    no import yet. *)
Definition scenario_store : Store :=
  mkStore [9] [1] [ (40, 1, 12) ] [] [].

(** The id [generateId()] returned for the call. *)
Definition scenario_batch_id : string := "0b0e8f9c-6f0e-4a51-9c7e-3c1d2a4b5e6f".

(** The same store after an earlier import that left a batch row under
    the very id the call draws. *)
Definition scenario_store_with_batch : Store :=
  mkStore [9] [1] [ (40, 1, 12) ]
          [ mkBatch scenario_batch_id 1 completed 0 0 0 9 ] [].

End Importer.

(** ** Concrete stores used by the examples *)

Module Scenarios.
Import Rules Engine.

(** One tier [{0+: 10}], soft close with a five-minute window and a
    five-minute extension. *)
Definition auction_flat10 : Auction :=
  {| soft_close_enabled := true;
     soft_close_trigger_minutes := 5;
     soft_close_extension_minutes := 5;
     increment_rules := ColRules [ mkRule 0 Null 10 ];
     auction_status := au_active;
     auction_updated_at := 0;
     auction_closed_at := None |}.

(** The registered users: ids 1 to 5 and 7, active bidders with a
    verified address. *)
Definition bidders : gmap Z User :=
  list_to_map
    (map (fun id => (id, mkUser role_bidder us_active 1)) [1; 2; 3; 4; 5; 7]).

(** An active lot of auction 1 with no bid yet, starting at [starting],
    closing at [close]. *)
Definition fresh_lot (lotId starting : Z) (reserve : option Z) (close : Z) : Lot :=
  {| lot_id := lotId;
     auction_id := 1;
     lot_number := lotId;
     starting_bid := starting;
     reserve_price := reserve;
     reserve_met := false;
     increment_override := ColEmpty;
     current_bid := 0;
     current_bidder_id := None;
     bid_count := 0;
     original_close_time := Some close;
     current_close_time := Some close;
     extension_count := 0;
     status := active;
     updated_at := 0;
     closed_at := None |}.

(** Lot 1 starts at 0 and closes at time 100000. *)
Definition db_fresh : DB :=
  {| users := bidders;
     lots := {[ 1 := fresh_lot 1 0 None 100000 ]};
     auctions := {[ 1 := auction_flat10 ]};
     bids := [];
     bid_audit_log := [] |}.

(** User 1 bids 50 with a maximum of 200 at time 1000: the state in which
    scenarios 2, 3 and 4 of the specification start. *)
Definition db_proxy : DB :=
  snd (placeBid db_fresh 1 1 50 (Some 200) None 1000).

(** A ten-minute trigger window with a one-minute extension; lot 1 starts
    at 100 and closes at time 10000. *)
Definition auction_short_extension : Auction :=
  {| soft_close_enabled := true;
     soft_close_trigger_minutes := 10;
     soft_close_extension_minutes := 1;
     increment_rules := ColEmpty;
     auction_status := au_active;
     auction_updated_at := 0;
     auction_closed_at := None |}.

Definition db_short_extension : DB :=
  {| users := bidders;
     lots := {[ 1 := fresh_lot 1 100 None 10000 ]};
     auctions := {[ 1 := auction_short_extension ]};
     bids := [];
     bid_audit_log := [] |}.




(** Lot 1 with the override [[{"min":0,"increment":10}]]: one tier, written
    without a [max] key; user 1 leads at 50. *)
Definition open_tier_rules : list IncrementRule :=
  [ mkRule 0 Absent 10 ].

Definition open_tier_lot : Lot :=
  {| lot_id := 1;
     auction_id := 1;
     lot_number := 1;
     starting_bid := 10;
     reserve_price := None;
     reserve_met := false;
     increment_override := ColRules open_tier_rules;
     current_bid := 50;
     current_bidder_id := Some 1;
     bid_count := 1;
     original_close_time := Some 100000;
     current_close_time := Some 100000;
     extension_count := 0;
     status := active;
     updated_at := 0;
     closed_at := None |}.

Definition db_open_tier : DB :=
  {| users := bidders;
     lots := {[ 1 := open_tier_lot ]};
     auctions := {[ 1 := auction_flat10 ]};
     bids := [];
     bid_audit_log := [] |}.

End Scenarios.

(** The seven policy and validation codes of a rejected bid. *)
Definition rejection_code (c : Engine.ResultCode) : bool :=
  match c with
  | Engine.INVALID_AMOUNT | Engine.INVALID_MAX_BID | Engine.LOT_NOT_ACTIVE
  | Engine.AUCTION_CLOSED | Engine.BID_TOO_LOW | Engine.SELF_OUTBID
  | Engine.MAX_BID_TIED => true
  | _ => false
  end.

(** The rows that the statements of a bid transaction refer to are there:
    the lot, its auction, the bidder and the lot's current high bidder. *)
Definition references_hold (db : Engine.DB) (l : Engine.Lot) (bidderId : Z) : bool :=
  Engine.lot_ref db (Engine.lot_id l) && Engine.auction_ref db (Engine.auction_id l) &&
  Engine.user_ref db (Some bidderId) && Engine.user_ref db (Engine.current_bidder_id l).

(** The [bid_rejected] events of the audit log. *)
Definition rejections_logged (db : Engine.DB) : list Engine.AuditEvent :=
  List.filter (fun e => bool_decide (Engine.event_type e = Engine.bid_rejected))
              (Engine.bid_audit_log db).

(** The live bidding snapshot of a lot: [current_bid], [current_bidder_id],
    [bid_count]. *)
Definition bidding_snapshot (db : Engine.DB) (lotId : Z) : option (Z * option Z * Z) :=
  (fun l => (Engine.current_bid l, Engine.current_bidder_id l, Engine.bid_count l))
    <$> Engine.lots db !! lotId.

(** Every row whose max bid is still active is a winning row. *)
Definition active_max_is_winning (db : Engine.DB) : bool :=
  forallb (fun b => implb (Engine.is_max_bid_active b) (Engine.is_winning b))
          (Engine.bids db).

(** The [lot_closed] events logged for a lot. *)
Definition lot_closed_events (db : Engine.DB) (lotId : Z) : list Engine.AuditEvent :=
  List.filter
    (fun e => bool_decide (Engine.event_type e = Engine.lot_closed) &&
              (Engine.ev_lot_id e =? lotId))
    (Engine.bid_audit_log db).

(** The preconditions that [placeBid] tests before it computes the floor: a
    positive amount, a maximum not below the amount, an active lot, a close
    time not yet reached. *)
Definition reaches_floor_check (l : Engine.Lot) (amount : Z) (maxBid : option Z) (t : Z) : Prop :=
  0 < amount /\
  (truthy maxBid = true -> amount <= Engine.val maxBid) /\
  Engine.status l = Engine.active /\
  (truthy (Engine.current_close_time l) = true -> t < Engine.val (Engine.current_close_time l)).

(** The lot of [Scenarios.db_proxy] after user 1's opening bid. *)
Definition proxy_lot : Engine.Lot :=
  Engine.set_lot_bid 50 (Some 1) 1 1000 (Scenarios.fresh_lot 1 0 None 100000).

(** The close times of a lot: [(original_close_time, current_close_time)]. *)
Definition close_times (db : Engine.DB) (lotId : Z) : option (option Z * option Z) :=
  (fun l => (Engine.original_close_time l, Engine.current_close_time l))
    <$> Engine.lots db !! lotId.

(** The status and closing time of a lot. *)
Definition closing_state (db : Engine.DB) (lotId : Z) : option (Engine.LotStatus * option Z) :=
  (fun l => (Engine.status l, Engine.closed_at l)) <$> Engine.lots db !! lotId.

(** Every row whose max bid is still active carries a non-zero maximum. *)
Definition active_max_has_amount (db : Engine.DB) : bool :=
  forallb (fun b => implb (Engine.is_max_bid_active b) (truthy (Engine.max_bid b)))
          (Engine.bids db).

(** The two conditions on one row. *)
Definition active_row_ok (b : Engine.Bid) : bool :=
  implb (Engine.is_max_bid_active b) (Engine.is_winning b) &&
  implb (Engine.is_max_bid_active b) (truthy (Engine.max_bid b)).

(** ** Further notions used by the properties of the engine *)

(** The winning rows of a lot:
    [SELECT * FROM bids WHERE lot_id = ? AND is_winning = 1]. *)
Definition winners (db : Engine.DB) (lotId : Z) : list Engine.Bid :=
  List.filter (fun b => (Engine.bid_lot_id b =? lotId) && Engine.is_winning b)
              (Engine.bids db).

(** A winning row agrees with its lot: it belongs to the lot's current
    bidder, a non-zero id, and stands at the lot's current bid. *)
Definition winner_ok (l : Engine.Lot) (b : Engine.Bid) : bool :=
  match Engine.bidder_id b with
  | Some p => negb (p =? 0) && bool_decide (Engine.current_bidder_id l = Some p)
  | None => false
  end &&
  (Engine.amount b =? Engine.current_bid l).

(** The lot has at most one winning row, and that row agrees with the lot. *)
Definition single_winner (db : Engine.DB) (lotId : Z) : bool :=
  match Engine.lots db !! lotId with
  | Some l =>
      (length (winners db lotId) <=? 1)%nat && forallb (winner_ok l) (winners db lotId)
  | None => true
  end.

(** The columns of a Bid row that say what was bid: lot, bidder, amount,
    type, maximum and the lot snapshot before the bid. *)
Definition bid_identity (b : Engine.Bid)
  : Z * option Z * Z * Engine.BidType * option Z * Z * option Z :=
  (Engine.bid_lot_id b, Engine.bidder_id b, Engine.amount b, Engine.bid_type b,
   Engine.max_bid b, Engine.previous_bid_amount b, Engine.previous_bidder_id b).

(** The rows of the other lots. *)
Definition bids_elsewhere (db : Engine.DB) (lotId : Z) : list Engine.Bid :=
  List.filter (fun b => negb (Engine.bid_lot_id b =? lotId)) (Engine.bids db).

(** The max bid the engine looks up before the transaction: the active max
    of the lot's current bidder, if the lot has one. *)
Definition incumbent_max (db : Engine.DB) (lotId : Z) (l : Engine.Lot) : option Z :=
  if truthy (Engine.current_bidder_id l)
  then Engine.getActiveMaxBid db lotId (Engine.val (Engine.current_bidder_id l))
  else None.

(** The three ways a [placeBid] call that passed every check can leave the
    store, before the soft-close check: untouched (tie, or defended by the
    proxy), the plain bid written, or the overtaking bid written. *)
Inductive BidOutcome (db : Engine.DB) (l : Engine.Lot) (bidderId amount : Z)
    (maxBid : option Z) (metadata : option Engine.Metadata) (t : Z)
  : Engine.ResultCode -> Engine.DB -> Prop :=
| OutcomeTied :
    truthy (incumbent_max db (Engine.lot_id l) l) = true ->
    BidOutcome db l bidderId amount maxBid metadata t Engine.MAX_BID_TIED db
| OutcomeDefended :
    truthy (incumbent_max db (Engine.lot_id l) l) = true ->
    BidOutcome db l bidderId amount maxBid metadata t Engine.OUTBID_BY_PROXY db
| OutcomePlain :
    truthy (incumbent_max db (Engine.lot_id l) l) = false ->
    BidOutcome db l bidderId amount maxBid metadata t Engine.BID_SUCCESS
      (Engine.committed db
         (Engine.simple_bid_queries l bidderId amount maxBid metadata t))
| OutcomeOvertake (h m : Z) :
    incumbent_max db (Engine.lot_id l) l = Some h ->
    h <> 0 ->
    maxBid = Some m ->
    m <> 0 ->
    h < m ->
    BidOutcome db l bidderId amount maxBid metadata t Engine.BID_SUCCESS
      (Engine.committed db
         (Engine.overtake_queries l bidderId maxBid h
            (Z.min m (js_add h (Rules.calculateBidIncrement (Engine.current_bid l)
                                  (Engine.getIncrementRules db l))))
            metadata t)).

(** [Scenarios.db_proxy] with a second lot, on which user 5 leads at 20. *)
Definition two_lot_store : Engine.DB :=
  snd (Engine.placeBid
         (Engine.mkDB (Engine.users Scenarios.db_proxy)
                      (<[ 2 := Scenarios.fresh_lot 2 10 None 100000 ]>
                         (Engine.lots Scenarios.db_proxy))
                      (Engine.auctions Scenarios.db_proxy)
                      (Engine.bids Scenarios.db_proxy)
                      (Engine.bid_audit_log Scenarios.db_proxy))
         2 5 20 None None 1500).

(** A store with one lot that has a reserve of 150, before any bid. *)
Definition reserve_store : Engine.DB :=
  Engine.mkDB Scenarios.bidders
    {[ 1 := Scenarios.fresh_lot 1 100 (Some 150) 100000 ]}
    {[ 1 := Scenarios.auction_flat10 ]} [] [].


(** A lot of auction 1 whose [increment_override] column does not parse. *)
Definition garbled_override_lot : Engine.Lot :=
  Engine.mkLot 1 1 1 10 None false Rules.ColGarbage 700 (Some 1) 1
    (Some 100000) (Some 100000) 0 Engine.active 1000 None.

(** ** The rate limiter: [RateLimiter] of [src/utils/auth.ts] *)

Module Limiter.

(** [private attempts: Map<string, number[]>] with the two constructor
    arguments; the times are [Date.now()] in milliseconds. *)
Record RateLimiter := mkLimiter {
  maxAttempts : Z;
  windowMs : Z;
  attempts : gmap string (list Z)
}.

(** [new RateLimiter(maxAttempts, windowMs)] *)
Definition new (maxAttempts windowMs : Z) : RateLimiter :=
  mkLimiter maxAttempts windowMs ∅.

(** [time => now - time < this.windowMs] *)
Definition recent (windowMs now time : Z) : bool := now - time <? windowMs.

(** [this.attempts.get(key) || []] *)
Definition attempts_of (lim : RateLimiter) (key : string) : list Z :=
  match attempts lim !! key with
  | Some a => a
  | None => []
  end.

(** [isAllowed(key)] when [Date.now()] is [now]: the answer and the limiter
    afterwards. *)
Definition isAllowed (lim : RateLimiter) (now : Z) (key : string) : bool * RateLimiter :=
  let recentAttempts := List.filter (recent (windowMs lim) now) (attempts_of lim key) in
  if maxAttempts lim <=? Z.of_nat (length recentAttempts) then (false, lim)
  else (true,
        mkLimiter (maxAttempts lim) (windowMs lim)
                  (<[key := recentAttempts ++ [now]]> (attempts lim))).

(** [reset(key)] *)
Definition reset (lim : RateLimiter) (key : string) : RateLimiter :=
  mkLimiter (maxAttempts lim) (windowMs lim) (delete key (attempts lim)).

(** [new RateLimiter(10, 60000)]: 10 bids per minute. *)
Definition bidRateLimiter : RateLimiter := new 10 60000.

(** [new RateLimiter(5, 300000)]: 5 attempts per 5 minutes. *)
Definition authRateLimiter : RateLimiter := new 5 300000.

(** A run of [isAllowed] calls, each a time and a key: the limiter reached
    and the calls that were answered [true], in order. *)
Definition replay_step (s : RateLimiter * list (Z * string)) (c : Z * string)
  : RateLimiter * list (Z * string) :=
  let '(ok, lim') := isAllowed (fst s) (fst c) (snd c) in
  (lim', if ok then snd s ++ [c] else snd s).

Definition replay (lim : RateLimiter) (calls : list (Z * string))
  : RateLimiter * list (Z * string) :=
  fold_left replay_step calls (lim, []).

(** The times at which [key] was answered [true]. *)
Definition granted_times (key : string) (granted : list (Z * string)) : list Z :=
  map fst (List.filter (fun c => bool_decide (snd c = key)) granted).

(** Those of them in the window of length [w] that ends at [T]. *)
Definition granted_in_window (w T : Z) (key : string) (granted : list (Z * string))
  : list Z :=
  List.filter (fun time => (time <=? T) && recent w T time) (granted_times key granted).

(** The clock does not run backwards over the calls. *)
Fixpoint nondecreasing (ts : list Z) : bool :=
  match ts with
  | a :: rest =>
      match rest with
      | b :: _ => (a <=? b) && nondecreasing rest
      | [] => true
      end
  | [] => true
  end.

(** What a run from a fresh limiter keeps true. *)
Definition run_ok (mx w : Z) (calls : list (Z * string))
    (s : RateLimiter * list (Z * string)) : Prop :=
  maxAttempts (fst s) = mx /\
  windowMs (fst s) = w /\
  (forall c, In c (snd s) -> In c calls) /\
  (forall key now, (forall c, In c calls -> fst c <= now) ->
     List.filter (recent w now) (attempts_of (fst s) key) =
     List.filter (recent w now) (granted_times key (snd s))) /\
  (forall key T, Z.of_nat (length (granted_in_window w T key (snd s))) <= mx).

End Limiter.

(** ** The bidding route: [POST /api/bids/:lotId] of [src/routes/auctions.ts] *)

Module BidRoute.
Import Engine Limiter.

(** The JSON bodies the handler sends: [{ success: false, error }], a
    [BidResult], or the text of the framework's error handler. *)
Inductive Body :=
| ErrorBody (message : string)
| ResultBody (r : BidResult)
| ServerError.

Record Response := mkResponse {
  http_status : Z;
  body : Body
}.

(** What the handler reads and writes: the module-level [bidRateLimiter]
    and the database. *)
Record Server := mkServer {
  limiter : RateLimiter;
  store : DB
}.

(** What [extractToken] and [verifyJWT] make of the [Authorization]
    header: no token, a token that does not verify, or the [userId] of a
    verified payload. *)
Inductive Credentials :=
| NoToken
| BadToken
| Token (userId : Z).

(** What [await c.req.json()] and [const { amount, maxBid } = body] make
    of the request body: they throw (no JSON, or JSON [null]), or yield
    the two members ([None] when absent). *)
Inductive JsonBody :=
| BodyThrows
| BodyFields (amount maxBid : option Z).

(** [`bid:${user.userId}`] *)
Definition bid_key (userId : Z) : string := "bid:" +:+ pretty userId.

(** [c.req.header('CF-Connecting-IP') || c.req.header('X-Forwarded-For')] *)
Definition header_or (a b : option string) : option string :=
  match str_or_null a with
  | Some s => Some s
  | None => b
  end.

(** The [authenticate] middleware: the response it sends itself, or the
    user id it sets before [next()]. *)
Definition authenticate (db : DB) (cred : Credentials) : Response + Z :=
  match cred with
  | NoToken => inl (mkResponse 401 (ErrorBody "No token provided"))
  | BadToken => inl (mkResponse 401 (ErrorBody "Invalid or expired token"))
  | Token userId =>
      match users db !! userId with
      | Some user =>
          if bool_decide (user_status user = us_active) then inr userId
          else inl (mkResponse 401 (ErrorBody "User not found or inactive"))
      | None => inl (mkResponse 401 (ErrorBody "User not found or inactive"))
      end
  end.

(** The [requireEmailVerified] middleware on the user that
    [authenticate] set: [true] when it calls [next()]. *)
Definition requireEmailVerified (db : DB) (userId : Z) : bool :=
  match users db !! userId with
  | Some dbUser => negb (email_verified dbUser =? 0)
  | None => false
  end.

(** The handler proper, for the user that the middleware let through:
    [nowMs] is the limiter's [Date.now()] and [t] the engine's [now()]. *)
Definition handler (srv : Server) (userId lotId : Z) (json : JsonBody)
    (cfIp xff ua : option string) (nowMs t : Z) : Response * Server :=
  match json with
  | BodyThrows => (mkResponse 500 ServerError, srv)
  | BodyFields amount maxBid =>
      let '(ok, lim) := isAllowed (limiter srv) nowMs (bid_key userId) in
      if negb ok then
        (mkResponse 429 (ErrorBody "Too many bids. Please slow down."),
         mkServer lim (store srv))
      else if negb (truthy amount) || (val amount <=? 0) then
        (mkResponse 400 (ErrorBody "Valid bid amount required"),
         mkServer lim (store srv))
      else if truthy maxBid && (val maxBid <? val amount) then
        (mkResponse 400
           (ErrorBody "Max bid must be greater than or equal to bid amount"),
         mkServer lim (store srv))
      else
        let '(result, db) :=
          placeBid (store srv) lotId userId (val amount) maxBid
                   (Some (mkMeta (header_or cfIp xff) ua)) t in
        if negb (success result)
        then (mkResponse 400 (ResultBody result), mkServer lim db)
        else (mkResponse 200 (ResultBody result), mkServer lim db)
  end.

(** [bidding.post('/:lotId', authenticate, requireEmailVerified, handler)] *)
Definition post_bid (srv : Server) (cred : Credentials) (lotId : Z)
    (json : JsonBody) (cfIp xff ua : option string) (nowMs t : Z)
  : Response * Server :=
  match authenticate (store srv) cred with
  | inl resp => (resp, srv)
  | inr userId =>
      if requireEmailVerified (store srv) userId
      then handler srv userId lotId json cfIp xff ua nowMs t
      else (mkResponse 403 (ErrorBody "Email verification required"), srv)
  end.

(** The user of a verified token has a row in [users] with status
    [active]; that row has [email_verified] set. *)
Definition active_user (db : DB) (cred : Credentials) (userId : Z) : Prop :=
  cred = Token userId /\
  exists user, users db !! userId = Some user /\ user_status user = us_active.

Definition verified_user (db : DB) (userId : Z) : Prop :=
  exists user, users db !! userId = Some user /\ email_verified user <> 0.

(** One request as the route sees it. *)
Record Request := mkRequest {
  req_cred : Credentials;
  req_lot : Z;
  req_json : JsonBody;
  req_cfIp : option string;
  req_xff : option string;
  req_ua : option string;
  req_nowMs : Z;
  req_t : Z
}.

Definition handle (srv : Server) (req : Request) : Response * Server :=
  post_bid srv (req_cred req) (req_lot req) (req_json req)
           (req_cfIp req) (req_xff req) (req_ua req) (req_nowMs req) (req_t req).

(** Requests served one after the other: the server reached and each
    request with its response. *)
Definition serve_step (s : Server * list (Request * Response)) (req : Request)
  : Server * list (Request * Response) :=
  let '(resp, srv') := handle (fst s) req in
  (srv', snd s ++ [(req, resp)]).

Definition serve (srv : Server) (reqs : list Request)
  : Server * list (Request * Response) :=
  fold_left serve_step reqs (srv, []).

(** The user a request claims to be. *)
Definition req_user (req : Request) : option Z :=
  match req_cred req with
  | Token userId => Some userId
  | _ => None
  end.

(** A response sent after the limiter let the request through: the
    handler answers 400 or 200 from there on. *)
Definition past_limiter (resp : Response) : bool :=
  (http_status resp =? 400) || (http_status resp =? 200).

(** A response sent by the handler after it called [isAllowed]. *)
Definition reached_limiter (resp : Response) : bool :=
  (http_status resp =? 429) || past_limiter resp.

(** The [isAllowed] calls behind a log of requests and responses. *)
Definition limiter_call (e : Request * Response) : option (Z * string) :=
  match req_user (fst e) with
  | Some u => if reached_limiter (snd e) then Some (req_nowMs (fst e), bid_key u) else None
  | None => None
  end.

Definition limiter_calls (log : list (Request * Response)) : list (Z * string) :=
  omap limiter_call log.

(** The requests of user [u] that got past the limiter with a limiter time
    in the minute that ends at [T]. *)
Definition passed_in_minute (u T : Z) (log : list (Request * Response))
  : list (Request * Response) :=
  List.filter
    (fun e => bool_decide (req_user (fst e) = Some u) &&
              past_limiter (snd e) &&
              ((req_nowMs (fst e) <=? T) && recent 60000 T (req_nowMs (fst e))))
    log.

(** The limiter calls of the log entries that got past the limiter. *)
Definition passed_calls (log : list (Request * Response)) : list (Z * string) :=
  omap (fun e => if past_limiter (snd e) then limiter_call e else None) log.

(** The limiter's clock does not run backwards over the requests. *)
Definition clock_ok (reqs : list Request) : bool :=
  nondecreasing (map req_nowMs reqs).

(** Twelve bids of user 7 on lot 1, one every second. *)
Definition twelve_requests : list Request :=
  map (fun i => mkRequest (Token 7) 1 (BodyFields (Some (10 + i)) None)
                          None None None (1000 * i) 5000)
      [0; 1; 2; 3; 4; 5; 6; 7; 8; 9; 10; 11].

End BidRoute.

(** ** Invoices of an auction: [InvoiceService.generateInvoicesForAuction] *)

Module InvoiceRun.
Import Invoicer.

(** The [buyers_premium_rules] column as [parseJSON] sees it. *)
Inductive PremiumColumn :=
| PremiumEmpty
| PremiumGarbage
| PremiumRules (rules : list BuyersPremiumRule).

(** The auction row the function selects. *)
Record AuctionRow := mkAuctionRow {
  buyers_premium_rules : PremiumColumn;
  tax_enabled : Z;
  auction_tax_rate : option float;
  shipping_available : Z
}.

(** A row of the winning-lots query: the lot columns with
    [l.current_bidder_id as bidder_id]. *)
Record WinningRow := mkWinningRow {
  wr_bidder_id : Z;
  wr_lot : WinningLot
}.

(** [parseJSON(auction.buyers_premium_rules, [{ min: 0, max: null, rate: 0.15 }])] *)
Definition premium_rules (c : PremiumColumn) : list BuyersPremiumRule :=
  match c with
  | PremiumRules rules => rules
  | _ => [ mkPremiumRule 0%float Null 0.15%float ]
  end.

(** [auction.tax_rate || 0]: [null], [0], [-0] and [NaN] are falsy. *)
Definition tax_rate_or_0 (r : option float) : float :=
  match r with
  | Some q => if PrimFloat.eqb q 0%float || PrimFloat.is_nan q then 0%float else q
  | None => 0%float
  end.

(** [lotsByBidder]: a [Map] iterates in insertion order, so it is kept as
    a list of entries in the order the keys were first set.  One step of
    the grouping loop:
    [if (!m.has(b)) m.set(b, []); m.get(b).push(lot)]. *)
Fixpoint push_lot (bidder : Z) (lot : WinningLot) (groups : list (Z * list WinningLot))
  : list (Z * list WinningLot) :=
  match groups with
  | [] => [(bidder, [lot])]
  | (b, ls) :: rest =>
      if (b =? bidder)%Z then (b, ls ++ [lot]) :: rest
      else (b, ls) :: push_lot bidder lot rest
  end.

Definition group_rows (rows : list WinningRow) (groups : list (Z * list WinningLot))
  : list (Z * list WinningLot) :=
  fold_left (fun g row => push_lot (wr_bidder_id row) (wr_lot row) g) rows groups.

Definition lotsByBidder (rows : list WinningRow) : list (Z * list WinningLot) :=
  group_rows rows [].


(** [generateInvoicesForAuction(auctionId)] over the auction row and the
    rows of the winning-lots query: [None] when it throws
    ([Auction not found]), else the invoices written, in order. *)
Definition generateInvoicesForAuction (auction : option AuctionRow) (auctionId : Z)
    (winningLots : list WinningRow) : option (list Invoice) :=
  match auction with
  | None => None
  | Some a =>
      match winningLots with
      | [] => Some []
      | _ =>
          let buyersPremiumRules := premium_rules (buyers_premium_rules a) in
          Some (map (fun '(bidderId, lots) =>
                       generateInvoice auctionId bidderId lots buyersPremiumRules
                         (tax_enabled a =? 1)%Z (tax_rate_or_0 (auction_tax_rate a))
                         (shipping_available a =? 1)%Z)
                    (lotsByBidder winningLots))
      end
  end.



End InvoiceRun.

(** ** File names the image importer is meant to read *)

(** [<lot><sep><order><ext>], the numbers in decimal: ["12-1.jpg"]. *)
Definition image_name (lot : N) (sep : ascii) (order : N) (ext : string) : string :=
  pretty lot +:+ String sep (pretty order +:+ ext).

(** The same after a prefix: ["lot_12-1.jpg"], ["LOT12_1.png"]. *)
Definition lot_image_name (prefix : string) (lot : N) (sep : ascii) (order : N)
    (ext : string) : string :=
  prefix +:+ image_name lot sep order ext.

(** [ext] is one of the six extensions, in any mix of cases. *)
Definition known_extension (ext : string) : bool :=
  existsb (Importer.chars_eqb (map Importer.lower (list_ascii_of_string ext)))
          Importer.extensions.

(** [prefix] is ["lot"], ["lot_"] or ["lot-"], in any mix of cases. *)
Definition lot_prefix (prefix : string) : bool :=
  existsb (Importer.chars_eqb (map Importer.lower (list_ascii_of_string prefix)))
          (map list_ascii_of_string ["lot"; "lot_"; "lot-"]%string).

(** ** Closing an auction: [POST /api/auctions/:id/close] of [src/routes/auctions.ts] *)

Module CloseRoute.
Import Engine.

(** [UPDATE auctions SET status = 'closed', closed_at = ?, updated_at = ?
    WHERE id = ?] *)
Definition set_auction_closed (t : Z) (a : Auction) : Auction :=
  {| soft_close_enabled := soft_close_enabled a;
     soft_close_trigger_minutes := soft_close_trigger_minutes a;
     soft_close_extension_minutes := soft_close_extension_minutes a;
     increment_rules := increment_rules a;
     auction_status := au_closed;
     auction_updated_at := t;
     auction_closed_at := Some t |}.

Definition close_auction (db : DB) (id t : Z) : DB :=
  mkDB (users db) (lots db) (alter (set_auction_closed t) id (auctions db))
       (bids db) (bid_audit_log db).

(** The body of [for (const lot of lots.results || [])], on the row [lot]
    as the [SELECT] returned it. *)
Definition close_one (db : DB) (lot : Lot) (t : Z) : DB :=
  let st := final_status lot in
  let lots1 := alter (set_closed st t) (lot_id lot) (lots db) in
  let bids1 :=
    if truthy (current_bidder_id lot) && bool_decide (st = sold)
    then map (fun b => if winning_row (lot_id lot) (current_bidder_id lot) b
                       then set_bid_status bs_won b else b) (bids db)
    else bids db in
  let bids2 :=
    map (fun b => if losing_row (lot_id lot) b then set_bid_status bs_lost b else b)
        bids1 in
  mkDB (users db) lots1 (auctions db) bids2 (bid_audit_log db).

(** [SELECT ... FROM lots WHERE auction_id = ? AND status = 'active'] *)
Definition active_lots_of (db : DB) (id : Z) : list Lot :=
  List.filter (fun l => (auction_id l =? id) && bool_decide (status l = active))
              (map snd (map_to_list (lots db))).

(** The handler, after the [authenticate] and [requireAdmin] middleware
    let the request through, with the clock reading [t] at every [now()]
    of the request: the HTTP status and the store.  (The [auditLog]
    middleware then writes to [admin_audit_log], a table the store does not
    carry.) *)
Definition post_close (db : DB) (id t : Z) : Z * DB :=
  match auctions db !! id with
  | None => (404, db)
  | Some _ =>
      let db1 := close_auction db id t in
      (200, fold_left (fun d lot => close_one d lot t) (active_lots_of db1 id) db1)
  end.

(** Two stores with the same rows in [users], [lots] and [bids]. *)
Definition same_tables (d1 d2 : DB) : Prop :=
  users d1 = users d2 /\ lots d1 = lots d2 /\ bids d1 = bids d2.

End CloseRoute.

(** ** Paging: [buildPagination] and [getPaginationMeta] of [src/utils/db.ts] *)

Module Paging.

(** The object [buildPagination] returns. *)
Record Pagination := mkPagination {
  pg_limit : Z;
  pg_offset : Z;
  pg_page : Z;
  pg_orderBy : string;
  pg_order : string;
  pg_sql : string
}.

(** [x || d] on a number that may be missing ([undefined] or [NaN]). *)
Definition num_or (x : option Z) (d : Z) : Z :=
  if truthy x then match x with Some v => v | None => d end else d.

(** [s || d] on an optional string. *)
Definition text_or (s : option string) (d : string) : string :=
  match s with
  | Some EmptyString => d
  | Some t => t
  | None => d
  end.

(** [buildPagination(params)]; [desc] is [params.order === 'desc'].  The
    difference and the product are those of doubles. *)
Definition buildPagination (page limit : option Z) (sort : option string) (desc : bool)
  : Pagination :=
  let page := Z.max 1 (num_or page 1) in
  let limit := Z.min 100 (Z.max 1 (num_or limit 20)) in
  let offset := round53 (round53 (page - 1) * limit) in
  let orderBy := text_or sort "id" in
  let order := if desc then "DESC"%string else "ASC"%string in
  {| pg_limit := limit;
     pg_offset := offset;
     pg_page := page;
     pg_orderBy := orderBy;
     pg_order := order;
     pg_sql := "ORDER BY " +:+ orderBy +:+ " " +:+ order +:+ " LIMIT " +:+ pretty limit
               +:+ " OFFSET " +:+ pretty offset |}.

(** [Math.ceil(total / limit)] on integers: [None] when the quotient is not
    a finite number ([limit] is 0 or missing). *)
Definition ceil_div (total : Z) (limit : option Z) : option Z :=
  match limit with
  | Some l => if l =? 0 then None else Some (- ((- total) / l))
  | None => None
  end.

Record PaginationMeta := mkPageMeta {
  meta_page : option Z;
  meta_limit : option Z;
  meta_total : Z;
  meta_totalPages : option Z
}.

(** [getPaginationMeta(total, page, limit)] *)
Definition getPaginationMeta (total : Z) (page limit : option Z) : PaginationMeta :=
  let totalPages := ceil_div total limit in
  {| meta_page := page; meta_limit := limit; meta_total := total;
     meta_totalPages := totalPages |}.

(** [... LIMIT ? OFFSET ?] over the rows the query selects, in its order. *)
Definition limit_offset {A : Type} (limit offset : Z) (rows : list A) : list A :=
  take (Z.to_nat limit) (drop (Z.to_nat offset) rows).

(** The body the listing handler [GET /api/auctions] of
    [src/routes/auctions.ts] sends when its two queries run: the page of
    rows and the [pagination] object, for the [page] and [limit] read from
    the query string ([parseInt], so [None] for [NaN]) over the rows
    matching the filters, in query order. *)
Definition list_page {A : Type} (rows : list A) (page limit : option Z)
    (sort : option string) (desc : bool) : list A * PaginationMeta :=
  let pagination := buildPagination page limit sort desc in
  (limit_offset (pg_limit pagination) (pg_offset pagination) rows,
   getPaginationMeta (Z.of_nat (length rows)) page limit).

(** A number bound to [LIMIT ?] or [OFFSET ?] must be a 64-bit integer:
    D1 refuses a larger one ([SQLITE_MISMATCH]). *)
Definition binds_as_integer (x : Z) : bool :=
  (- 2 ^ 63 <=? x) && (x <? 2 ^ 63).

(** The handler itself: [None] when the paged query throws, which the
    framework answers with status 500. *)
Definition get_auctions {A : Type} (rows : list A) (page limit : option Z)
  : option (list A * PaginationMeta) :=
  let pagination := buildPagination page limit (Some "start_date"%string) true in
  if binds_as_integer (pg_limit pagination) && binds_as_integer (pg_offset pagination)
  then Some (list_page rows page limit (Some "start_date"%string) true)
  else None.

End Paging.

(** ** CSV rows: [ImportService.parseCSVRow] of [src/services/import.ts] *)

Module Csv.
Local Open Scope N_scope.

(** A row is a string of UTF-16 code units. *)
Definition quote_char : N := 34.
Definition comma_char : N := 44.

(** The code units [String.prototype.trim] removes: white space and line
    terminators. *)
Definition is_space (c : N) : bool :=
  existsb (N.eqb c)
    [ 9; 10; 11; 12; 13; 32; 160; 5760;
      8192; 8193; 8194; 8195; 8196; 8197; 8198; 8199; 8200; 8201; 8202;
      8232; 8233; 8239; 8287; 12288; 65279 ].

Fixpoint drop_space (s : list N) : list N :=
  match s with
  | c :: rest => if is_space c then drop_space rest else s
  | [] => []
  end.

(** [s.trim()] *)
Definition trim (s : list N) : list N :=
  rev (drop_space (rev (drop_space s))).

(** The loop of [parseCSVRow] from position [i] on, with its three
    variables. *)
Fixpoint scan (row : list N) (values : list (list N)) (currentValue : list N)
    (inQuotes : bool) : list (list N) :=
  match row with
  | [] => values ++ [trim currentValue]
  | char :: rest =>
      if char =? quote_char then scan rest values currentValue (negb inQuotes)
      else if (char =? comma_char) && negb inQuotes
      then scan rest (values ++ [trim currentValue]) [] inQuotes
      else scan rest values (currentValue ++ [char]) inQuotes
  end.

(** [parseCSVRow(row)] *)
Definition parseCSVRow (row : list N) : list (list N) :=
  scan row [] [] false.

(** A field as a writer puts it in a row: as it is, or between double
    quotes. *)
Definition written (field : bool * list N) : list N :=
  if fst field then quote_char :: snd field ++ [quote_char] else snd field.

(** The fields of a row joined by commas. *)
Fixpoint join_fields (fields : list (list N)) : list N :=
  match fields with
  | [] => []
  | f :: rest =>
      match rest with
      | [] => f
      | _ :: _ => f ++ comma_char :: join_fields rest
      end
  end.

(** A field the parser can give back: it holds no double quote, neither
    starts nor ends with white space, and holds a comma only if it is
    written between quotes. *)
Definition readable (field : bool * list N) : bool :=
  forallb (fun c => negb (c =? quote_char)) (snd field) &&
  match snd field with
  | c :: _ => negb (is_space c)
  | [] => true
  end &&
  match rev (snd field) with
  | c :: _ => negb (is_space c)
  | [] => true
  end &&
  (fst field || forallb (fun c => negb (c =? comma_char)) (snd field)).

End Csv.

(** * Properties *)

(** ** Tier lookup *)

Module RulesFacts.
Import Rules.

(** Sums that stay within [2^53] are exact. *)
Lemma round53_exact (z : Z) : Z.abs z <= max_safe -> round53 z = z.
Proof.
  intros H. unfold round53. cbv zeta.
  destruct (Z.abs z <=? max_safe) eqn:E; [reflexivity | lia].
Qed.

(** Beyond that range the nearest double is still at least [2^53]. *)
Lemma round53_large (z : Z) : max_safe < z -> max_safe <= round53 z.
Proof.
  intros Hz. unfold round53.
  assert (Hm : max_safe = 9007199254740992) by reflexivity.
  assert (Hp53 : 2 ^ 53 = 9007199254740992) by reflexivity.
  assert (Hp52 : 2 ^ 52 = 4503599627370496) by reflexivity.
  replace (Z.abs z) with z by lia.
  destruct (z <=? max_safe) eqn:E; [apply Z.leb_le in E; lia|].
  cbv zeta.
  assert (Hlog : 53 <= Z.log2 z) by (apply Z.log2_le_pow2; lia).
  set (e := Z.log2 z - 52).
  assert (He : 0 < e) by (unfold e; lia).
  rewrite Z.shiftr_div_pow2 by lia.
  set (q := z / 2 ^ e).
  assert (Hq : 2 ^ 52 <= q).
  { unfold q. apply Z.div_le_lower_bound; [apply Z.pow_pos_nonneg; lia|].
    rewrite Z.mul_comm, <- Z.pow_add_r by lia.
    replace (52 + e) with (Z.log2 z) by (unfold e; lia).
    apply Z.log2_spec. lia. }
  set (q' := if _ <? _ then _ else _).
  assert (Hq' : q <= q').
  { unfold q'. destruct (_ <? _); [lia|]. destruct (_ <? _); [lia|].
    destruct (Z.even q); lia. }
  rewrite Z.shiftl_mul_pow2 by lia.
  replace (Z.sgn z) with 1 by lia.
  assert (Hp : 2 <= 2 ^ e).
  { change 2 with (2 ^ 1) at 1. apply Z.pow_le_mono_r; lia. }
  nia.
Qed.

Lemma js_add_exact (a b : Z) : Z.abs (a + b) <= max_safe -> js_add a b = a + b.
Proof. apply round53_exact. Qed.

(** Beyond [2^53] they are not: [2^53 + 1] is no double. *)
Lemma js_add_rounds : js_add max_safe 1 = max_safe.
Proof. reflexivity. Qed.

(** [js_add] agrees with the addition of primitive floats on sample
    pairs on both sides of [2^53]. *)
Lemma js_add_is_double_addition :
  forallb (fun '(a, b) =>
             js_add a b =? whole_of_float (float_of_whole a + float_of_whole b)%float)
    [ (118, 10); (0, 0); (-5, 3); (max_safe, 1); (max_safe, 2); (max_safe, 3);
      (max_safe + 2, 1); (max_safe + 2, 3); (max_safe - 1, 1); (max_safe - 1, 2);
      (2 ^ 60, 2 ^ 7); (2 ^ 60, 2 ^ 7 + 1); (2 ^ 60, 3 * 2 ^ 7); (2 ^ 61, 1000001);
      (- max_safe, -1); (- max_safe, -3); (2 ^ 55 + 8, 4); (2 ^ 55 + 16, 4);
      (2 ^ 55 + 8, 3); (2 ^ 55 + 8, 5); (2 ^ 54 + 4, 1); (2 ^ 54 + 4, 2);
      (2 ^ 54 + 4, 3); (2 ^ 54 + 8, 2); (2 ^ 61 + 2 ^ 60, 2 ^ 59 + 2 ^ 8) ] = true.
Proof. vm_compute. reflexivity. Qed.

(** Where no tier covers the current bid in the code's sense, the
    increment is 1. *)
Lemma calculateBidIncrement_no_tier (cur : Z) (rules : list IncrementRule) :
  Forall (fun r => covers cur r = false) rules ->
  calculateBidIncrement cur rules = 1.
Proof.
  induction 1 as [|r rest Hr _ IH]; simpl; [reflexivity|].
  rewrite Hr. exact IH.
Qed.

Lemma getMinimumNextBid_no_tier (cur : Z) (rules : list IncrementRule) :
  Forall (fun r => covers cur r = false) rules ->
  Z.abs (cur + 1) <= max_safe ->
  getMinimumNextBid cur rules = cur + 1.
Proof.
  intros H Hr. unfold getMinimumNextBid.
  rewrite (calculateBidIncrement_no_tier _ _ H). apply js_add_exact, Hr.
Qed.

(** On a tier that has its [max] key the code's test and the
    specification's test are the same. *)
Lemma covers_in_tier (cur : Z) (r : IncrementRule) :
  rule_max r <> Absent -> covers cur r = Spec.in_tier cur r.
Proof.
  unfold covers, Spec.in_tier. destruct (rule_max r); [congruence | |reflexivity].
  intros _. rewrite andb_true_r. reflexivity.
Qed.

Lemma calculateBidIncrement_first_tier (cur : Z) (rules : list IncrementRule)
    (tier : IncrementRule) :
  Forall (fun r => rule_max r <> Absent) rules ->
  Spec.first_tier cur rules = Some tier ->
  calculateBidIncrement cur rules = rule_increment tier.
Proof.
  induction 1 as [|r rest Hr _ IH]; simpl; [discriminate|].
  rewrite (covers_in_tier _ _ Hr).
  destruct (Spec.in_tier cur r); [intros [= ->]; reflexivity | exact IH].
Qed.

End RulesFacts.

(** ** The bidding engine *)

Module EngineFacts.
Import Rules Engine RulesFacts.

(** *** Truthiness *)

Lemma truthy_Some (x : option Z) :
  truthy x = true -> exists v, x = Some v /\ v <> 0.
Proof.
  destruct x as [v|]; simpl; [|discriminate].
  intros H. exists v. split; [reflexivity|].
  apply negb_true_iff in H. lia.
Qed.

Lemma truthy_nonzero (v : Z) : v <> 0 -> truthy (Some v) = true.
Proof. intros H. simpl. apply negb_true_iff. lia. Qed.



(** *** The batch and the foreign keys *)

(** No statement of the engine adds or removes a user, a lot or an
    auction: whether a statement is accepted does not depend on the
    statements that ran before it. *)
Lemma accepted_write (db : DB) (q' q : Query) :
  accepted (write db q') q = accepted db q.
Proof.
  assert (Hlot : forall k, lot_ref (write db q') k = lot_ref db k).
  { intros k. unfold lot_ref. destruct q'; cbn [write lots]; try reflexivity.
    apply bool_decide_ext. rewrite <- !elem_of_dom, dom_alter_L. reflexivity. }
  assert (Husr : forall u, user_ref (write db q') u = user_ref db u).
  { intros u. destruct q'; reflexivity. }
  assert (Hauc : forall k, auction_ref (write db q') k = auction_ref db k).
  { intros k. destruct q'; reflexivity. }
  destruct q; cbn [accepted]; rewrite ?Hlot, ?Husr, ?Hauc; try reflexivity.
  destruct (bidder_id row); rewrite ?Husr; reflexivity.
Qed.

Lemma transaction_committed (db : DB) (queries : list Query) :
  transaction db queries =
    if forallb (accepted db) queries then Some (committed db queries) else None.
Proof.
  unfold committed. revert db.
  induction queries as [|q rest IH]; intros db; [reflexivity|].
  cbn [transaction forallb fold_left]. unfold run_query.
  destruct (accepted db q); [|reflexivity].
  rewrite IH. cbn [andb].
  replace (forallb (accepted (write db q)) rest) with (forallb (accepted db) rest);
    [reflexivity|].
  clear IH. induction rest as [|x rest IH]; [reflexivity|].
  cbn [forallb]. rewrite accepted_write, IH. reflexivity.
Qed.

(** The statements of a plain bid are accepted exactly when the rows they
    refer to exist. *)
Lemma simple_bid_queries_accepted (db : DB) (l : Lot) (bidderId amount : Z)
    (maxBid : option Z) (metadata : option Metadata) (t : Z) :
  forallb (accepted db) (simple_bid_queries l bidderId amount maxBid metadata t) =
    references_hold db l bidderId.
Proof.
  unfold simple_bid_queries, references_hold, createAuditLog.
  destruct (truthy (current_bidder_id l));
    cbn [app forallb accepted new_bid_row bid_lot_id bidder_id previous_bidder_id
         ev_lot_id ev_auction_id ev_bidder_id];
    destruct (lot_ref db (lot_id l)), (auction_ref db (auction_id l)),
             (user_ref db (Some bidderId)), (user_ref db (current_bidder_id l));
    reflexivity.
Qed.

(** So are those of an overtaking bid, on a lot that has a high bidder. *)
Lemma overtake_queries_accepted (db : DB) (l : Lot) (bidderId : Z)
    (maxBid : option Z) (h final : Z) (metadata : option Metadata) (t : Z) :
  truthy (current_bidder_id l) = true ->
  forallb (accepted db) (overtake_queries l bidderId maxBid h final metadata t) =
    references_hold db l bidderId.
Proof.
  intros Hcur. apply truthy_Some in Hcur as (prev & Hprev & _).
  unfold overtake_queries, references_hold, createAuditLog.
  cbn [forallb accepted new_bid_row bid_lot_id bidder_id previous_bidder_id
       ev_lot_id ev_auction_id ev_bidder_id].
  rewrite !Hprev.
  destruct (lot_ref db (lot_id l)), (auction_ref db (auction_id l)),
           (user_ref db (Some bidderId)), (user_ref db (Some prev));
    reflexivity.
Qed.

(** *** The floor check of [placeBid] *)

Lemma placeBid_at_floor_check (db : DB) (lotId bidderId amount : Z)
    (maxBid : option Z) (metadata : option Metadata) (t : Z) (l : Lot) :
  lots db !! lotId = Some l ->
  reaches_floor_check l amount maxBid t ->
  placeBid db lotId bidderId amount maxBid metadata t =
    let incrementRules := getIncrementRules db l in
    let minimumBid := minimum_bid l incrementRules in
    if amount <? minimumBid then (error_minimumBid BID_TOO_LOW minimumBid, db)
    else if bool_decide (current_bidder_id l = Some bidderId)
    then (error SELF_OUTBID, db)
    else
      let currentHighBidderMaxBid :=
        if truthy (current_bidder_id l)
        then getActiveMaxBid db lotId (val (current_bidder_id l))
        else None in
      match executeBidTransaction db l bidderId amount maxBid
              currentHighBidderMaxBid incrementRules metadata t with
      | Some (result, db1) => (result, checkSoftClose db1 l t)
      | None => (error BID_FAILED, db)
      end.
Proof.
  intros Hl (Hpos & Hmax & Hact & Hclose).
  unfold placeBid. rewrite Hl.
  destruct (amount <=? 0) eqn:E1; [lia|].
  destruct (truthy maxBid && (val maxBid <? amount)) eqn:E2.
  { apply andb_true_iff in E2 as [Ht Hlt]. specialize (Hmax Ht). lia. }
  rewrite Hact. rewrite bool_decide_eq_true_2 by reflexivity. cbn [negb].
  destruct (truthy (current_close_time l) && (val (current_close_time l) <=? t)) eqn:E3.
  { apply andb_true_iff in E3 as [Ht Hle]. specialize (Hclose Ht). lia. }
  reflexivity.
Qed.

Lemma executeBidTransaction_code (db : DB) (l : Lot) (bidderId amount : Z)
    (maxBid H : option Z) (rules : list IncrementRule)
    (metadata : option Metadata) (t : Z) (r : BidResult) (db1 : DB) :
  executeBidTransaction db l bidderId amount maxBid H rules metadata t = Some (r, db1) ->
  code r = BID_SUCCESS \/ code r = MAX_BID_TIED \/ code r = OUTBID_BY_PROXY.
Proof.
  unfold executeBidTransaction, commit.
  destruct (negb (truthy H)).
  { destruct (transaction _ _); [intros [= <- _]; left; reflexivity | discriminate]. }
  destruct (truthy maxBid && _).
  { destruct (transaction _ _); [intros [= <- _]; left; reflexivity | discriminate]. }
  destruct (truthy maxBid && _); intros [= <- _];
    [right; left; reflexivity | right; right; reflexivity].
Qed.

(** Both error returns of [executeBidTransaction] hand back the store
    untouched. *)
Lemma executeBidTransaction_error_keeps_store (db : DB) (l : Lot) (bidderId amount : Z)
    (maxBid H : option Z) (rules : list IncrementRule)
    (metadata : option Metadata) (t : Z) (r : BidResult) (db1 : DB) :
  executeBidTransaction db l bidderId amount maxBid H rules metadata t = Some (r, db1) ->
  code r <> BID_SUCCESS ->
  db1 = db.
Proof.
  unfold executeBidTransaction, commit.
  destruct (negb (truthy H)).
  { destruct (transaction _ _); [intros [= <- _]; simpl; congruence | discriminate]. }
  destruct (truthy maxBid && _).
  { destruct (transaction _ _); [intros [= <- _]; simpl; congruence | discriminate]. }
  destruct (truthy maxBid && _); intros [= _ <-]; reflexivity.
Qed.

(** *** What the statements do to the store *)

Lemma committed_simple_lots (db : DB) (l : Lot) (bidderId amount : Z)
    (maxBid : option Z) (metadata : option Metadata) (t : Z) :
  lots (committed db (simple_bid_queries l bidderId amount maxBid metadata t)) =
  alter (set_lot_bid amount (Some bidderId) 1 t) (lot_id l) (lots db).
Proof.
  unfold simple_bid_queries, committed.
  destruct (truthy (current_bidder_id l)); reflexivity.
Qed.

Lemma checkSoftClose_bids (db : DB) (l : Lot) (t : Z) :
  bids (checkSoftClose db l t) = bids db.
Proof.
  unfold checkSoftClose.
  destruct (negb (truthy (current_close_time l))); [reflexivity|].
  destruct (auctions db !! auction_id l) as [a|]; [|reflexivity].
  destruct (negb (soft_close_enabled a)); [reflexivity|].
  destruct (_ <=? _); reflexivity.
Qed.

Lemma checkSoftClose_snapshot (db : DB) (l : Lot) (t lotId : Z) :
  bidding_snapshot (checkSoftClose db l t) lotId = bidding_snapshot db lotId.
Proof.
  unfold checkSoftClose.
  destruct (negb (truthy (current_close_time l))); [reflexivity|].
  destruct (auctions db !! auction_id l) as [a|]; [|reflexivity].
  destruct (negb (soft_close_enabled a)); [reflexivity|].
  destruct (_ <=? _); [|reflexivity].
  unfold bidding_snapshot. cbn [lots].
  destruct (decide (lot_id l = lotId)) as [->|Hne].
  - rewrite lookup_alter_eq. destruct (lots db !! lotId); reflexivity.
  - rewrite lookup_alter_ne by exact Hne. reflexivity.
Qed.

(** The only event [checkSoftClose] can append is [soft_close_triggered]. *)
Lemma checkSoftClose_audit (db : DB) (l : Lot) (t : Z) :
  exists extra,
    bid_audit_log (checkSoftClose db l t) = bid_audit_log db ++ extra /\
    Forall (fun e => event_type e = soft_close_triggered) extra.
Proof.
  unfold checkSoftClose.
  destruct (negb (truthy (current_close_time l)));
    [exists []; split; [symmetry; apply app_nil_r | constructor]|].
  destruct (auctions db !! auction_id l) as [a|];
    [|exists []; split; [symmetry; apply app_nil_r | constructor]].
  destruct (negb (soft_close_enabled a));
    [exists []; split; [symmetry; apply app_nil_r | constructor]|].
  destruct (_ <=? _);
    [|exists []; split; [symmetry; apply app_nil_r | constructor]].
  eexists. split; [reflexivity|]. repeat constructor.
Qed.



(** With no proxy to answer, a bid that passes every check is written as
    the new high bid, provided the rows it refers to exist. *)
Lemma placeBid_accepts_without_proxy (db : DB) (lotId bidderId amount : Z)
    (maxBid : option Z) (metadata : option Metadata) (t : Z) (l : Lot) :
  lots db !! lotId = Some l ->
  lot_id l = lotId ->
  reaches_floor_check l amount maxBid t ->
  minimum_bid l (getIncrementRules db l) <= amount ->
  current_bidder_id l <> Some bidderId ->
  (forall b, current_bidder_id l = Some b -> getActiveMaxBid db lotId b = None) ->
  references_hold db l bidderId = true ->
  code (fst (placeBid db lotId bidderId amount maxBid metadata t)) = BID_SUCCESS /\
  bidding_snapshot (snd (placeBid db lotId bidderId amount maxBid metadata t)) lotId =
    Some (amount, Some bidderId, bid_count l + 1).
Proof.
  intros Hl Hid Hpre Hge Hself Hnomax Href.
  rewrite (placeBid_at_floor_check _ _ _ _ _ _ _ _ Hl Hpre). cbv zeta.
  destruct (amount <? _) eqn:E; [lia|].
  rewrite bool_decide_eq_false_2 by exact Hself.
  assert (HH : (if truthy (current_bidder_id l)
                then getActiveMaxBid db lotId (val (current_bidder_id l))
                else None) = None).
  { destruct (truthy (current_bidder_id l)) eqn:Et; [|reflexivity].
    apply truthy_Some in Et as (b & Hb & _). rewrite Hb. simpl. auto. }
  rewrite HH. unfold executeBidTransaction, commit. cbn [truthy negb].
  rewrite transaction_committed, simple_bid_queries_accepted, Href.
  cbn [fst snd code].
  split; [reflexivity|].
  rewrite checkSoftClose_snapshot. unfold bidding_snapshot.
  rewrite committed_simple_lots, Hid, lookup_alter_eq, Hl. reflexivity.
Qed.

(** On whole amounts within [2^53], under tiers that all carry their
    [max] key, the floor of [placeBid] is the specification's
    [min_next_bid] wherever that is defined. *)
Lemma minimum_bid_is_min_next_bid (l : Lot) (rules : list IncrementRule) (f : Z) :
  0 <= current_bid l ->
  Forall (fun r => rule_max r <> Absent) rules ->
  Spec.min_next_bid (current_bid l) (starting_bid l) rules = Some f ->
  Z.abs f <= max_safe ->
  minimum_bid l rules = f.
Proof.
  intros Hcur Hkeys Hspec Hsafe. unfold Spec.min_next_bid in Hspec. unfold minimum_bid.
  destruct (current_bid l =? 0) eqn:E0.
  - injection Hspec as <-. destruct (0 <? current_bid l) eqn:E1; [lia | reflexivity].
  - destruct (Spec.first_tier _ _) as [tier|] eqn:Et; [|discriminate].
    injection Hspec as <-. destruct (0 <? current_bid l) eqn:E1; [|lia].
    unfold getMinimumNextBid.
    rewrite (calculateBidIncrement_first_tier _ _ _ Hkeys Et).
    apply js_add_exact, Hsafe.
Qed.

(** The helpers over doubles give, on whole amounts, what the helpers over
    whole numbers give. *)
Lemma getMinimumNextBid_on_doubles :
  forallb (fun cur =>
             whole_of_float
               (RulesF.getMinimumNextBid (float_of_whole cur)
                  (map RulesF.of_whole_rule default_increment_rules))
             =? getMinimumNextBid cur default_increment_rules)
    [ 1; 50; 99; 100; 118; 499; 500; 12345; max_safe - 25; max_safe ] = true.
Proof. vm_compute. reflexivity. Qed.

(** C4 fails on the code, in two ways.

    Amounts carry cents and are doubles.  On a lot whose current bid is
    118.04 under the default tiers the floor the specification names is
    128.04; the code computes [118.04 + 10] in doubles, which is
    128.04000000000002, so a bid of exactly 128.04 is below the code's floor
    and is rejected with [BID_TOO_LOW].

    A tier written without its [max] key has no upper bound for the
    specification ([max ?? infinity]) but never matches in the code
    ([rule.max === null] is false for a missing key): with the one tier
    [{min: 0, increment: 10}] and a current bid of 50 the specification's
    floor is 60, the code's floor is 51, and a bid of 51 is accepted as the
    new high bid. *)
Lemma placeBid_floor_departs_from_min_next_bid :
  RulesF.getMinimumNextBid 118.04 RulesF.default_increment_rules
    = 128.04000000000002%float /\
  (128.04 <? RulesF.getMinimumNextBid 118.04 RulesF.default_increment_rules)%float = true /\
  RulesF.bid_too_low 128.04 118.04 0 RulesF.default_increment_rules = true /\
  let db := Scenarios.db_open_tier in
  let r := fst (placeBid db 1 2 51 None None 2000) in
  let db' := snd (placeBid db 1 2 51 None None 2000) in
  lots db !! 1 = Some Scenarios.open_tier_lot /\
  getIncrementRules db Scenarios.open_tier_lot = Scenarios.open_tier_rules /\
  Spec.min_next_bid 50 10 Scenarios.open_tier_rules = Some 60 /\
  minimum_bid Scenarios.open_tier_lot Scenarios.open_tier_rules = 51 /\
  code r = BID_SUCCESS /\
  bidding_snapshot db' 1 = Some (51, Some 2, 2).
Proof.
  split; [reflexivity|]. split; [reflexivity|]. split; [reflexivity|].
  intros db r db'. repeat split; reflexivity.
Qed.

(** Scenario 1 of the specification, run through the engine: the lot starts
    at 100 under the default tiers; user 1's bid of 100 is accepted, user
    2's bid of 105 is rejected with a floor of 110, and 110 is accepted. *)
Lemma scenario_increment_floor :
  let db0 := Scenarios.db_short_extension in
  let step1 := placeBid db0 1 1 100 None None 1000 in
  let step2 := placeBid (snd step1) 1 2 105 None None 1001 in
  let step3 := placeBid (snd step2) 1 2 110 None None 1002 in
  code (fst step1) = BID_SUCCESS /\
  bidding_snapshot (snd step1) 1 = Some (100, Some 1, 1) /\
  code (fst step2) = BID_TOO_LOW /\
  minimumBid (fst step2) = Some 110 /\
  snd step2 = snd step1 /\
  code (fst step3) = BID_SUCCESS /\
  bidding_snapshot (snd step3) 1 = Some (110, Some 2, 2).
Proof.
  intros db0 step1 step2 step3. repeat split; reflexivity.
Qed.

(** *** The fallback increment *)

Lemma getIncrementRules_override (db : DB) (l : Lot) (rules : list IncrementRule) :
  increment_override l = ColRules rules -> getIncrementRules db l = rules.
Proof. intros H. unfold getIncrementRules. rewrite H. reflexivity. Qed.

Lemma getIncrementRules_auction (db : DB) (l : Lot) (a : Auction) (rules : list IncrementRule) :
  increment_override l = ColEmpty ->
  auctions db !! auction_id l = Some a ->
  increment_rules a = ColRules rules ->
  getIncrementRules db l = rules.
Proof.
  intros Ho Ha Hr. unfold getIncrementRules. rewrite Ho, Ha, Hr. reflexivity.
Qed.



(** At [2^53] the sum [current_bid + 1] rounds back to [current_bid]: the
    floor is the current bid itself. *)
Lemma no_covering_tier_floor_at_max_safe :
  getMinimumNextBid max_safe [] = max_safe.
Proof. reflexivity. Qed.

(** *** A higher maximum overtakes the proxy *)

Lemma filter_none {A : Type} (f : A -> bool) (xs : list A) :
  (forall x, In x xs -> f x = false) -> List.filter f xs = [].
Proof.
  induction xs as [|x rest IH]; intros H; simpl; [reflexivity|].
  rewrite (H x (or_introl eq_refl)). apply IH.
  intros y Hy. apply H. right. exact Hy.
Qed.


Lemma getActiveMaxBid_bids (db db' : DB) (lotId bidderId : Z) :
  bids db' = bids db ->
  getActiveMaxBid db' lotId bidderId = getActiveMaxBid db lotId bidderId.
Proof. intros E. unfold getActiveMaxBid. rewrite E. reflexivity. Qed.




(** Without the rows the batch refers to, the same call answers
    [BID_FAILED] and writes nothing: user 99 is not in [users]. *)
Lemma placeBid_unknown_bidder_fails :
  placeBid Scenarios.db_proxy 1 99 80 (Some 300) None 2000 =
    (error BID_FAILED, Scenarios.db_proxy).
Proof. reflexivity. Qed.

(** *** Active max rows stay winning rows *)

Lemma active_rows_ok_iff (db : DB) :
  active_max_is_winning db = true /\ active_max_has_amount db = true <->
  (forall b, In b (bids db) -> active_row_ok b = true).
Proof.
  unfold active_max_is_winning, active_max_has_amount, active_row_ok.
  rewrite !forallb_forall. split.
  - intros [H1 H2] b Hb. rewrite (H1 b Hb), (H2 b Hb). reflexivity.
  - intros H. split; intros b Hb; specialize (H b Hb);
      apply andb_true_iff in H; tauto.
Qed.

Lemma truthy_or_null (x : option Z) : truthy (or_null x) = truthy x.
Proof. unfold or_null. destruct (truthy x) eqn:E; [exact E | reflexivity]. Qed.

(** If the bidder has no (non-zero) active max on the lot, none of his rows
    on the lot is an active max row. *)
Lemma no_active_max_no_row (db : DB) (lotId prev : Z) :
  active_max_has_amount db = true ->
  truthy (getActiveMaxBid db lotId prev) = false ->
  forall b, In b (bids db) -> active_max_row lotId prev b = false.
Proof.
  unfold active_max_has_amount, getActiveMaxBid. rewrite forallb_forall.
  intros Hamt Hnone b Hb.
  destruct (active_max_row lotId prev b) eqn:Erow; [exfalso | reflexivity].
  destruct (List.filter (active_max_row lotId prev) (rev (bids db))) as [|b' rest] eqn:Ef.
  - assert (Hin : In b (List.filter (active_max_row lotId prev) (rev (bids db)))).
    { apply filter_In. split; [apply in_rev in Hb; exact Hb | exact Erow]. }
    rewrite Ef in Hin. exact Hin.
  - assert (Hin : In b' (List.filter (active_max_row lotId prev) (rev (bids db)))).
    { rewrite Ef. left. reflexivity. }
    apply filter_In in Hin as [Hin Hrow'].
    apply in_rev in Hin.
    specialize (Hamt b' Hin).
    unfold active_max_row in Hrow'.
    apply andb_true_iff in Hrow' as [_ Hact]. rewrite Hact in Hamt. simpl in Hamt.
    rewrite truthy_or_null, Hamt in Hnone. discriminate Hnone.
Qed.

(** X4.  The two conditions, active max rows are winning rows and carry a
    non-zero maximum, are kept by every [placeBid] call on a store whose
    lot rows sit under their own id (they hold of the empty table). *)
Lemma placeBid_keeps_active_rows_ok (db : DB) (lotId bidderId amount : Z)
    (maxBid : option Z) (metadata : option Metadata) (t : Z) :
  (forall l, lots db !! lotId = Some l -> lot_id l = lotId) ->
  active_max_is_winning db = true /\ active_max_has_amount db = true ->
  active_max_is_winning (snd (placeBid db lotId bidderId amount maxBid metadata t)) = true /\
  active_max_has_amount (snd (placeBid db lotId bidderId amount maxBid metadata t)) = true.
Proof.
  intros Hwf Hinv. pose proof Hinv as [_ Hamt].
  rewrite active_rows_ok_iff in Hinv. rewrite active_rows_ok_iff.
  unfold placeBid.
  destruct (amount <=? 0); [exact Hinv|].
  destruct (truthy maxBid && _); [exact Hinv|].
  destruct (lots db !! lotId) as [l|] eqn:Hl; [|exact Hinv].
  specialize (Hwf l eq_refl).
  destruct (negb (bool_decide (status l = active))); [exact Hinv|].
  destruct (truthy (current_close_time l) && _); [exact Hinv|].
  destruct (amount <? _); [exact Hinv|].
  destruct (bool_decide (current_bidder_id l = Some bidderId)) eqn:Eself; [exact Hinv|].
  apply bool_decide_eq_false in Eself.
  unfold executeBidTransaction, commit.
  match goal with
  | |- context [negb (truthy ?h)] => set (H := h); destruct (truthy H) eqn:EH
  end; cbn [negb].
  - (* a proxy answers *)
    destruct (truthy maxBid && (val H <? val maxBid)) eqn:Eover.
    + rewrite transaction_committed.
      destruct (forallb _ _); [|exact Hinv].
      cbn [snd]. rewrite checkSoftClose_bids.
      apply andb_true_iff in Eover as [Emax _].
      unfold overtake_queries, committed, createAuditLog.
      cbn [fold_left write bids].
      intros b Hb. apply in_map_iff in Hb as (b0 & <- & Hb0).
      destruct (outbid_target _ _ b0); [reflexivity|].
      apply in_app_or in Hb0 as [Hb0 | [<- | []]].
      * apply in_app_or in Hb0 as [Hb0 | [<- | []]]; [exact (Hinv b0 Hb0)|].
        unfold active_row_ok. cbn [new_bid_row is_max_bid_active is_winning max_bid].
        rewrite Emax. reflexivity.
      * reflexivity.
    + destruct (truthy maxBid && (val maxBid =? val H)); cbn [snd];
        rewrite checkSoftClose_bids; exact Hinv.
  - (* no proxy: the bid is written *)
    rewrite transaction_committed.
    destruct (forallb _ _); [|exact Hinv].
    cbn [snd]. rewrite checkSoftClose_bids.
    assert (Hnew : active_row_ok
                     (new_bid_row l (Some bidderId) amount manual (or_null maxBid)
                        (truthy maxBid) true (meta_ip metadata) (meta_ua metadata)
                        bs_winning) = true).
    { unfold active_row_ok. cbn [new_bid_row is_max_bid_active is_winning max_bid].
      rewrite truthy_or_null. destruct (truthy maxBid); reflexivity. }
    unfold simple_bid_queries, committed, createAuditLog.
    destruct (truthy (current_bidder_id l)) eqn:Ecur;
      cbn [app fold_left write bids].
    + apply truthy_Some in Ecur as (prev & Hprev & Hprev0).
      subst H. rewrite Hprev in EH. try rewrite (truthy_nonzero _ Hprev0) in EH.
      cbn [val] in EH.
      pose proof (no_active_max_no_row db lotId prev Hamt EH) as Hnorow.
      intros b Hb. apply in_map_iff in Hb as (b0 & <- & Hb0).
      apply in_app_or in Hb0 as [Hb0 | [<- | []]].
      * destruct (outbid_target (lot_id l) (current_bidder_id l) b0) eqn:Et;
          [|exact (Hinv b0 Hb0)].
        specialize (Hnorow b0 Hb0).
        unfold outbid_target in Et. rewrite Hprev, Hwf in Et.
        unfold active_max_row in Hnorow.
        destruct (bid_lot_id b0 =? lotId); [|discriminate Et].
        destruct (bidder_id b0) as [y|]; [|discriminate Et].
        rewrite (Z.eqb_sym prev y) in Et.
        destruct (y =? prev); [|discriminate Et].
        cbn [andb] in Hnorow.
        unfold active_row_ok. cbn [set_outbid is_max_bid_active is_winning max_bid].
        rewrite Hnorow. reflexivity.
      * unfold outbid_target. cbn [new_bid_row bid_lot_id bidder_id is_winning].
        rewrite Hprev. destruct (prev =? bidderId) eqn:E3.
        { exfalso. apply Eself. rewrite Hprev. f_equal. lia. }
        rewrite andb_false_r. cbn [andb]. exact Hnew.
    + intros b Hb. apply in_app_or in Hb as [Hb | [<- | []]];
        [exact (Hinv b Hb) | exact Hnew].
Qed.

(** *** Rejected bids *)

(** A store that did not change satisfies all four parts of the rejection
    property. *)
Lemma unchanged_store_ok (db : DB) (lotId : Z) (c : ResultCode) :
  bids db = bids db /\
  bidding_snapshot db lotId = bidding_snapshot db lotId /\
  (exists extra,
     bid_audit_log db = bid_audit_log db ++ extra /\
     Forall (fun e => event_type e <> bid_rejected) extra) /\
  (c <> MAX_BID_TIED -> db = db).
Proof.
  split; [reflexivity|]. split; [reflexivity|]. split; [|reflexivity].
  exists []. split; [symmetry; apply app_nil_r | constructor].
Qed.

(** What a rejected call leaves behind: no [bid_rejected] audit event, no
    new or changed Bid row, the lot's [current_bid], [current_bidder_id]
    and [bid_count] as they were; for the six codes other than
    [MAX_BID_TIED] the store is exactly as it was. *)
Lemma placeBid_rejected_leaves_state (db : DB) (lotId bidderId amount : Z)
    (maxBid : option Z) (metadata : option Metadata) (t : Z)
    (r : BidResult) (db' : DB) :
  placeBid db lotId bidderId amount maxBid metadata t = (r, db') ->
  rejection_code (code r) = true ->
  bids db' = bids db /\
  bidding_snapshot db' lotId = bidding_snapshot db lotId /\
  (exists extra,
     bid_audit_log db' = bid_audit_log db ++ extra /\
     Forall (fun e => event_type e <> bid_rejected) extra) /\
  (code r <> MAX_BID_TIED -> db' = db).
Proof.
  unfold placeBid. intros Hrun Hrej.
  destruct (amount <=? 0);
    [injection Hrun as <- <-; apply unchanged_store_ok|].
  destruct (truthy maxBid && _);
    [injection Hrun as <- <-; apply unchanged_store_ok|].
  destruct (lots db !! lotId) as [l|];
    [|injection Hrun as <- <-; apply unchanged_store_ok].
  destruct (negb (bool_decide (status l = active)));
    [injection Hrun as <- <-; apply unchanged_store_ok|].
  destruct (truthy (current_close_time l) && _);
    [injection Hrun as <- <-; apply unchanged_store_ok|].
  destruct (amount <? _);
    [injection Hrun as <- <-; apply unchanged_store_ok|].
  destruct (bool_decide (current_bidder_id l = Some bidderId));
    [injection Hrun as <- <-; apply unchanged_store_ok|].
  match type of Hrun with
  | context [executeBidTransaction ?a ?b ?c ?d ?e ?f ?g ?h ?i] =>
      pose proof (executeBidTransaction_code a b c d e f g h i) as Hcode;
      pose proof (executeBidTransaction_error_keeps_store a b c d e f g h i) as Hkeep;
      destruct (executeBidTransaction a b c d e f g h i) as [[r1 db1]|]
  end; [|injection Hrun as <- <-; apply unchanged_store_ok].
  specialize (Hcode r1 db1 eq_refl). specialize (Hkeep r1 db1 eq_refl).
  injection Hrun as <- <-.
  assert (Htied : code r1 = MAX_BID_TIED).
  { destruct Hcode as [E | [E | E]]; rewrite E in Hrej; [discriminate | exact E | discriminate]. }
  rewrite Hkeep by (rewrite Htied; discriminate).
  split; [apply checkSoftClose_bids|].
  split; [apply checkSoftClose_snapshot|].
  split; [|intros Hne; contradiction].
  destruct (checkSoftClose_audit db l t) as (extra & Hlog & Hev).
  exists extra. split; [exact Hlog|].
  clear Hlog. induction Hev as [|e rest He _ IH]; constructor;
    [rewrite He; discriminate | exact IH].
Qed.

(** The batch of a bid writes [bid_placed] and [proxy_triggered] events
    only. *)
Lemma committed_rejections (db : DB) (l : Lot) (bidderId amount : Z)
    (maxBid : option Z) (h final : Z) (metadata : option Metadata) (t : Z) :
  rejections_logged (committed db (simple_bid_queries l bidderId amount maxBid metadata t)) =
    rejections_logged db /\
  rejections_logged (committed db (overtake_queries l bidderId maxBid h final metadata t)) =
    rejections_logged db.
Proof.
  unfold rejections_logged, simple_bid_queries, overtake_queries, committed, createAuditLog.
  split.
  - destruct (truthy (current_bidder_id l));
      cbn [app fold_left write bid_audit_log];
      rewrite List.filter_app; cbn; apply app_nil_r.
  - cbn [fold_left write bid_audit_log].
    rewrite !List.filter_app; cbn. rewrite !app_nil_r. reflexivity.
Qed.

Lemma checkSoftClose_rejections (db : DB) (l : Lot) (t : Z) :
  rejections_logged (checkSoftClose db l t) = rejections_logged db.
Proof.
  destruct (checkSoftClose_audit db l t) as (extra & Hlog & Hev).
  unfold rejections_logged. rewrite Hlog, List.filter_app.
  replace (List.filter _ extra) with (@nil AuditEvent); [apply app_nil_r|].
  clear Hlog. induction Hev as [|e rest He _ IH]; [reflexivity|].
  cbn [List.filter]. rewrite He. rewrite bool_decide_eq_false_2 by discriminate.
  exact IH.
Qed.

(** No path of [placeBid] writes a [bid_rejected] event. *)
Lemma placeBid_rejections (db : DB) (lotId bidderId amount : Z)
    (maxBid : option Z) (metadata : option Metadata) (t : Z) :
  rejections_logged (snd (placeBid db lotId bidderId amount maxBid metadata t)) =
    rejections_logged db.
Proof.
  unfold placeBid.
  destruct (amount <=? 0); [reflexivity|].
  destruct (truthy maxBid && _); [reflexivity|].
  destruct (lots db !! lotId) as [l|]; [|reflexivity].
  destruct (negb (bool_decide (status l = active))); [reflexivity|].
  destruct (truthy (current_close_time l) && _); [reflexivity|].
  destruct (amount <? _); [reflexivity|].
  destruct (bool_decide (current_bidder_id l = Some bidderId)); [reflexivity|].
  unfold executeBidTransaction, commit.
  destruct (negb (truthy _)).
  { rewrite transaction_committed. destruct (forallb _ _); [|reflexivity].
    cbn [snd]. rewrite checkSoftClose_rejections.
    apply (committed_rejections db l bidderId amount maxBid 0 0 metadata t). }
  destruct (truthy maxBid && (_ <? _)).
  { rewrite transaction_committed. destruct (forallb _ _); [|reflexivity].
    cbn [snd]. rewrite checkSoftClose_rejections.
    apply (committed_rejections db l bidderId amount maxBid). }
  destruct (truthy maxBid && _); cbn [snd]; apply checkSoftClose_rejections.
Qed.

(** C2 fails on the code.  The engine never writes a [bid_rejected] event:
    whatever the call, the [bid_rejected] events of the audit log are those
    that were there before.  In the state of scenario 2 (user 1 leads at 50
    with a max of 200), a bid of 55 against a floor of 60 is rejected with
    [BID_TOO_LOW] and the store, audit log included, is left as it was.  And
    a rejection is not always without effect: a bid with a max of 200 that
    arrives at 99800, inside the five-minute window before the close at
    100000, is rejected with [MAX_BID_TIED], and the soft close still moves
    the close time to 100100, counts an extension and logs
    [soft_close_triggered]. *)
Lemma placeBid_rejection_is_not_logged :
  (forall db lotId bidderId amount maxBid metadata t,
     rejections_logged (snd (placeBid db lotId bidderId amount maxBid metadata t)) =
       rejections_logged db) /\
  (let db := Scenarios.db_proxy in
   let r := fst (placeBid db 1 2 55 None None 2000) in
   let db' := snd (placeBid db 1 2 55 None None 2000) in
   code r = BID_TOO_LOW /\
   minimumBid r = Some 60 /\
   db' = db /\
   rejections_logged db' = []) /\
  (let db := Scenarios.db_proxy in
   let r := fst (placeBid db 1 4 100 (Some 200) None 99800) in
   let db' := snd (placeBid db 1 4 100 (Some 200) None 99800) in
   code r = MAX_BID_TIED /\
   bids db' = bids db /\
   bidding_snapshot db' 1 = bidding_snapshot db 1 /\
   rejections_logged db' = [] /\
   close_times db 1 = Some (Some 100000, Some 100000) /\
   close_times db' 1 = Some (Some 100000, Some 100100) /\
   (extension_count <$> lots db' !! 1) = Some 1 /\
   map event_type (bid_audit_log db') =
     map event_type (bid_audit_log db) ++ [soft_close_triggered]).
Proof.
  split; [exact placeBid_rejections|].
  split; [intros db r db'; repeat split; reflexivity|].
  intros db r db'. repeat split; reflexivity.
Qed.

(** *** The proxy defends: nothing is committed *)

(** Whatever the inputs, a call that returns [OUTBID_BY_PROXY] has run no
    statement of the bid transaction: Bid rows and the lot's bidding
    snapshot are those of the store before the call. *)
Lemma placeBid_outbid_by_proxy_commits_nothing (db : DB) (lotId bidderId amount : Z)
    (maxBid : option Z) (metadata : option Metadata) (t : Z) :
  code (fst (placeBid db lotId bidderId amount maxBid metadata t)) = OUTBID_BY_PROXY ->
  bids (snd (placeBid db lotId bidderId amount maxBid metadata t)) = bids db /\
  bidding_snapshot (snd (placeBid db lotId bidderId amount maxBid metadata t)) lotId =
    bidding_snapshot db lotId.
Proof.
  unfold placeBid.
  destruct (amount <=? 0); [discriminate|].
  destruct (truthy maxBid && _); [discriminate|].
  destruct (lots db !! lotId) as [l|]; [|discriminate].
  destruct (negb (bool_decide (status l = active))); [discriminate|].
  destruct (truthy (current_close_time l) && _); [discriminate|].
  destruct (amount <? _); [discriminate|].
  destruct (bool_decide (current_bidder_id l = Some bidderId)); [discriminate|].
  match goal with
  | |- context [executeBidTransaction ?a ?b ?c ?d ?e ?f ?g ?h ?i] =>
      pose proof (executeBidTransaction_error_keeps_store a b c d e f g h i) as Hkeep;
      destruct (executeBidTransaction a b c d e f g h i) as [[r1 db1]|]
  end; [|discriminate].
  specialize (Hkeep r1 db1 eq_refl).
  cbn [fst snd] in *. intros Hc.
  rewrite Hkeep by (rewrite Hc; discriminate).
  split; [apply checkSoftClose_bids | apply checkSoftClose_snapshot].
Qed.

(** C1 fails on the code.  Scenario 2 of the specification: user 1 leads at
    50 with an active max of 200 and user 2 bids 60.  The call returns
    [OUTBID_BY_PROXY] announcing a current bid of 70, but the two Bid rows
    and the lot update it prepared are never run: the store after the call
    is the store before it, with [current_bid = 50] and [bid_count = 1]. *)
Lemma placeBid_proxy_defence_not_committed :
  let db := Scenarios.db_proxy in
  let r := fst (placeBid db 1 2 60 None None 2000) in
  let db' := snd (placeBid db 1 2 60 None None 2000) in
  getActiveMaxBid db 1 1 = Some 200 /\
  code r = OUTBID_BY_PROXY /\
  currentBid r = Some 70 /\
  db' = db /\
  bids db' = bids db /\
  length (bids db') = 1%nat /\
  bidding_snapshot db' 1 = Some (50, Some 1, 1).
Proof.
  intros db r db'. repeat split; reflexivity.
Qed.

(** The amount announced for the defending proxy is [amount + step] when the
    challenger gave no maximum; it is not capped by the incumbent's maximum
    of 200. *)
Lemma placeBid_defence_amount_uncapped :
  currentBid (fst (placeBid Scenarios.db_proxy 1 2 195 None None 2000)) = Some 205.
Proof. reflexivity. Qed.

(** *** Soft close *)

(** What a triggered soft close writes: the new close time is the time of
    the bid plus the extension, whatever the close time was. *)
Lemma checkSoftClose_triggered (db : DB) (l : Lot) (a : Auction) (t close : Z) :
  lots db !! lot_id l = Some l ->
  auctions db !! auction_id l = Some a ->
  soft_close_enabled a = true ->
  current_close_time l = Some close ->
  close <> 0 ->
  close - t <= soft_close_trigger_minutes a * 60 ->
  close_times (checkSoftClose db l t) (lot_id l) =
    Some (original_close_time l, Some (t + soft_close_extension_minutes a * 60)).
Proof.
  intros Hl Ha Hen Hc Hc0 Hwin. unfold checkSoftClose.
  rewrite Hc, (truthy_nonzero _ Hc0), Ha, Hen. cbn [negb val].
  destruct (close - t <=? _) eqn:E; [|lia].
  unfold close_times. cbn [lots]. rewrite lookup_alter_eq, Hl. reflexivity.
Qed.

(** The close time can only move forward when the extension is at least as
    long as the trigger window. *)
Lemma checkSoftClose_extends_when_extension_covers_window
    (db : DB) (l : Lot) (a : Auction) (t close : Z) :
  lots db !! lot_id l = Some l ->
  auctions db !! auction_id l = Some a ->
  soft_close_enabled a = true ->
  current_close_time l = Some close ->
  close <> 0 ->
  close - t <= soft_close_trigger_minutes a * 60 ->
  soft_close_trigger_minutes a <= soft_close_extension_minutes a ->
  exists close',
    close_times (checkSoftClose db l t) (lot_id l) =
      Some (original_close_time l, Some close') /\
    close <= close'.
Proof.
  intros Hl Ha Hen Hc Hc0 Hwin Hcover.
  exists (t + soft_close_extension_minutes a * 60).
  split; [exact (checkSoftClose_triggered _ _ _ _ _ Hl Ha Hen Hc Hc0 Hwin) | lia].
Qed.

(** C5 fails on the code.  The auction has a ten-minute trigger window and a
    one-minute extension; the lot closes at 10000 and a bid arrives at 9700,
    inside the window.  The bid succeeds and the soft close sets
    [current_close_time] to 9700 + 60 = 9760: earlier than the close time
    before the bid and earlier than [original_close_time]. *)
Lemma soft_close_moves_close_time_back :
  let db := Scenarios.db_short_extension in
  let r := fst (placeBid db 1 1 100 None None 9700) in
  let db' := snd (placeBid db 1 1 100 None None 9700) in
  close_times db 1 = Some (Some 10000, Some 10000) /\
  code r = BID_SUCCESS /\
  close_times db' 1 = Some (Some 10000, Some 9760) /\
  (extension_count <$> lots db' !! 1) = Some 1 /\
  9760 < 10000.
Proof.
  intros db r db'. repeat split; reflexivity.
Qed.

(** *** Closing a lot *)

(** The status [closeLot] writes depends on the reserve only. *)
Lemma closeLot_status (db : DB) (lotId t : Z) (l : Lot) :
  lots db !! lotId = Some l ->
  closing_state (closeLot db lotId t) lotId = Some (final_status l, Some t).
Proof.
  intros Hl. unfold closeLot, closing_state. rewrite Hl. cbn [lots].
  rewrite lookup_alter_eq, Hl. reflexivity.
Qed.

Lemma final_status_unsold (l : Lot) :
  final_status l = unsold <->
  (exists p, reserve_price l = Some p /\ p <> 0) /\ reserve_met l = false.
Proof.
  unfold final_status. split.
  - destruct (truthy (reserve_price l)) eqn:Et; [|discriminate].
    destruct (reserve_met l); [discriminate|]. intros _.
    apply truthy_Some in Et. auto.
  - intros [(p & Hp & Hp0) Hm]. rewrite Hp, (truthy_nonzero _ Hp0), Hm. reflexivity.
Qed.

Lemma final_status_sold (l : Lot) :
  final_status l = sold <-> truthy (reserve_price l) = false \/ reserve_met l = true.
Proof.
  unfold final_status.
  destruct (truthy (reserve_price l)), (reserve_met l); simpl; split; intros H;
    try reflexivity; try discriminate; auto; destruct H; discriminate.
Qed.

(** C6 fails on the code.  An active lot with no reserve and no bid at all
    ([current_bidder_id] is [NULL], [bid_count = 0]) is closed as [sold]. *)
Lemma closeLot_without_bids_is_sold :
  let db := Scenarios.db_fresh in
  let db' := closeLot db 1 5000 in
  bidding_snapshot db 1 = Some (0, None, 0) /\
  (reserve_price <$> lots db !! 1) = Some None /\
  closing_state db' 1 = Some (sold, Some 5000).
Proof.
  intros db db'. repeat split; reflexivity.
Qed.

(** On a lot that exists, every call of [closeLot] appends one more
    [lot_closed] event: there is no test of the lot's status. *)
Lemma closeLot_always_logs (db : DB) (lotId t : Z) (l : Lot) :
  lots db !! lotId = Some l ->
  lot_id l = lotId ->
  length (lot_closed_events (closeLot db lotId t) lotId) =
  S (length (lot_closed_events db lotId)).
Proof.
  intros Hl Hid. unfold closeLot, lot_closed_events. rewrite Hl.
  cbn [bid_audit_log]. rewrite List.filter_app, length_app.
  cbn [List.filter event_type ev_lot_id]. rewrite Hid, Z.eqb_refl.
  rewrite bool_decide_eq_true_2 by reflexivity. simpl. lia.
Qed.

(** C7 fails on the code.  Lot 1 is closed at time 5000 and is then [sold],
    not [active]; [closeLot] called again at time 6000 is no no-op: it
    rewrites [closed_at] to 6000 and logs a second [lot_closed] event, so
    the store after two calls differs from the store after one. *)
Lemma closeLot_twice_differs_from_once :
  let db1 := closeLot Scenarios.db_proxy 1 5000 in
  let db2 := closeLot db1 1 6000 in
  closing_state db1 1 = Some (sold, Some 5000) /\
  closing_state db2 1 = Some (sold, Some 6000) /\
  length (lot_closed_events db1 1) = 1%nat /\
  length (lot_closed_events db2 1) = 2%nat /\
  db2 <> db1.
Proof.
  intros db1 db2. repeat split; try reflexivity.
  intros Heq. apply (f_equal (fun d => length (bid_audit_log d))) in Heq.
  vm_compute in Heq. discriminate Heq.
Qed.

End EngineFacts.

(** ** The invoicer *)

Module InvoicerFacts.
Import Invoicer.
Local Open Scope float_scope.

(** The premium and the rate written on a line are those of the first
    covering rule: the product as the multiplication of doubles gives it,
    with no rounding step after it; both are 0 when no rule covers the
    bid. *)
Lemma premium_of_covering_rule (w : float) (rules : list BuyersPremiumRule) :
  match covering_rule w rules with
  | Some rule =>
      applicable_rate w rules = bp_rate rule /\
      calculateBuyersPremium w rules = w * bp_rate rule
  | None =>
      applicable_rate w rules = 0 /\ calculateBuyersPremium w rules = 0
  end.
Proof.
  unfold covering_rule.
  induction rules as [|r rest IH]; cbn [List.find applicable_rate calculateBuyersPremium].
  - split; reflexivity.
  - destruct (bp_covers w r); [split; reflexivity | exact IH].
Qed.

Lemma line_item_amounts (rules : list BuyersPremiumRule) (taxEnabled : bool)
    (taxRate : float) (shippingAvailable : bool) (l : WinningLot) :
  line_ok rules taxEnabled taxRate l
          (line_item rules taxEnabled taxRate shippingAvailable l).
Proof.
  unfold line_ok, line_item.
  cbn [item_lot_id winning_bid buyers_premium_amount buyers_premium_rate
       tax_amount shipping_amount line_total].
  pose proof (premium_of_covering_rule (wl_current_bid l) rules) as Hp.
  split; [reflexivity|]. split; [reflexivity|]. split.
  { destruct (covering_rule (wl_current_bid l) rules) as [rule|];
      destruct Hp as [Hr Ha]; split; try assumption.
    rewrite Hr. exact Ha. }
  split; [reflexivity|].
  split; [destruct (wl_lot_shipping l && shippingAvailable); reflexivity | reflexivity].
Qed.

(** The loop: the items are the line items of the lots in order, and each
    running total goes on from where it stood, one addition per item. *)
Lemma fold_add_lot (rules : list BuyersPremiumRule) (taxEnabled : bool)
    (taxRate : float) (shippingAvailable : bool) (lots : list WinningLot) (acc : Totals) :
  let items := map (line_item rules taxEnabled taxRate shippingAvailable) lots in
  let acc' := fold_left (add_lot rules taxEnabled taxRate shippingAvailable) lots acc in
  acc_items acc' = acc_items acc ++ items /\
  acc_subtotal acc' =
    fold_left (fun s x => s + x) (map winning_bid items) (acc_subtotal acc) /\
  acc_premium acc' =
    fold_left (fun s x => s + x) (map buyers_premium_amount items) (acc_premium acc) /\
  acc_tax acc' =
    fold_left (fun s x => s + x) (map tax_amount items) (acc_tax acc) /\
  acc_shipping acc' =
    fold_left (fun s x => s + x) (map shipping_amount items) (acc_shipping acc).
Proof.
  revert acc. induction lots as [|l rest IH]; intros acc; cbn zeta.
  - cbn [map fold_left]. rewrite app_nil_r. repeat split; reflexivity.
  - cbn [fold_left map].
    destruct (IH (add_lot rules taxEnabled taxRate shippingAvailable acc l))
      as (Hi & Hs & Hp & Ht & Hsh).
    cbn zeta in Hi, Hs, Hp, Ht, Hsh.
    rewrite Hi, Hs, Hp, Ht, Hsh. unfold add_lot.
    cbn [acc_items acc_subtotal acc_premium acc_tax acc_shipping].
    rewrite <- app_assoc. repeat split; reflexivity.
Qed.

(** C8 (amended).  On every generated invoice each line item's premium is
    the product [winning_bid * premium_rate] and its tax the product
    [(winning_bid + premium) * tax_rate] when tax is enabled (0 otherwise),
    stored as the arithmetic of doubles gives them, with no rounding to
    cents; shipping is 0.  The invoice's subtotal, premium, tax and
    shipping are the item columns added up in lot order, and its total is
    the sum [subtotal + premium + tax + shipping] of those four numbers,
    again in doubles.  In the example (winning bids 100.00 and 250.55 at
    15%, no tax) the premiums stored are 15 and 37.5825 and the total is
    403.1325. *)
Theorem generateInvoice_amounts_unrounded (auctionId bidderId : Z)
    (lots : list WinningLot) (rules : list BuyersPremiumRule)
    (taxEnabled : bool) (taxRate : float) (shippingAvailable : bool) :
  let inv := generateInvoice auctionId bidderId lots rules taxEnabled taxRate
               shippingAvailable in
  Forall2 (line_ok rules taxEnabled taxRate) lots (line_items inv) /\
  subtotal inv = running_sum (map winning_bid (line_items inv)) /\
  buyers_premium inv = running_sum (map buyers_premium_amount (line_items inv)) /\
  tax inv = running_sum (map tax_amount (line_items inv)) /\
  shipping inv = running_sum (map shipping_amount (line_items inv)) /\
  total inv = subtotal inv + buyers_premium inv + tax inv + shipping inv /\
  (exists it1 it2,
     line_items scenario_invoice = [it1; it2] /\
     buyers_premium_amount it1 = 15 /\
     buyers_premium_amount it2 = 37.5825 /\
     subtotal scenario_invoice = 350.55 /\
     buyers_premium scenario_invoice = 52.5825 /\
     total scenario_invoice = 403.1325).
Proof.
  cbn zeta. unfold generateInvoice, running_sum.
  cbn [line_items subtotal buyers_premium tax shipping total].
  destruct (fold_add_lot rules taxEnabled taxRate shippingAvailable lots
              (mkTotals 0 0 0 0 [])) as (Hi & Hs & Hp & Ht & Hsh).
  cbn zeta in Hi, Hs, Hp, Ht, Hsh.
  cbn [acc_items acc_subtotal acc_premium acc_tax acc_shipping app] in Hi, Hs, Hp, Ht, Hsh.
  rewrite Hi.
  split.
  { clear. induction lots as [|l rest IH]; cbn [map]; constructor;
      [apply line_item_amounts | exact IH]. }
  split; [exact Hs|]. split; [exact Hp|]. split; [exact Ht|]. split; [exact Hsh|].
  split; [reflexivity|].
  eexists _, _. split; [reflexivity|].
  repeat split; reflexivity.
Qed.

(** C8 as stated fails on the example: the premium stored for the winning
    bid of 250.55 is 37.5825, above the 37.58 that rounding to cents would
    give, and the invoice total is 403.1325, not 403.13. *)
Lemma scenario_premium_is_not_rounded :
  exists it1 it2,
    line_items scenario_invoice = [it1; it2] /\
    winning_bid it2 = 250.55 /\
    buyers_premium_rate it2 = 0.15 /\
    buyers_premium_amount it2 = 37.5825 /\
    (37.58 <? buyers_premium_amount it2) = true /\
    buyers_premium_amount it2 <> 37.58 /\
    total scenario_invoice = 403.1325 /\
    (403.13 <? total scenario_invoice) = true /\
    total scenario_invoice <> 403.13.
Proof.
  eexists _, _. split; [reflexivity|].
  split; [reflexivity|]. split; [reflexivity|]. split; [reflexivity|].
  split; [reflexivity|]. split.
  { intros H. apply (f_equal (fun x => 37.58 <? x)) in H.
    vm_compute in H. discriminate H. }
  split; [reflexivity|]. split; [reflexivity|].
  intros H. apply (f_equal (fun x => 403.13 <? x)) in H.
  vm_compute in H. discriminate H.
Qed.

(** The identities of decimal arithmetic do not carry over: with winning
    bids 1 and 2 at 15% the invoice total is 3.45, and the two line totals
    add up to 3.4499999999999997. *)
Lemma total_is_not_sum_of_line_totals :
  let inv := generateInvoice 1 7 [ mkWinningLot 1 1 1 false; mkWinningLot 2 2 2 false ]
               scenario_rules false 0 false in
  total inv = 3.45 /\
  running_sum (map line_total (line_items inv)) = 3.4499999999999997.
Proof. split; reflexivity. Qed.

End InvoicerFacts.

(** ** The image importer *)

Module ImporterFacts.
Import Importer.

(** The loop body decides between [matched] and [unmatched] only. *)
Lemma process_image_status (batchId : string) (lotMap : gmap Z Z) (image : string * string) :
  status (fst (process_image batchId lotMap image)) = matched \/
  status (fst (process_image batchId lotMap image)) = unmatched.
Proof.
  unfold process_image. destruct image as [name url].
  destruct (parseImageFilename name) as [[lotNum order]|]; [|right; reflexivity].
  destruct (lotMap !! lotNum) as [lotId|]; [|right; reflexivity].
  destruct (negb (lotId =? 0)); [left | right]; reflexivity.
Qed.

(** The row it inserts carries the batch id of the call and the status of
    the result. *)
Lemma process_image_row_batch (batchId : string) (lotMap : gmap Z Z)
    (image : string * string) :
  import_batch_id (snd (process_image batchId lotMap image)) = batchId /\
  match_status (snd (process_image batchId lotMap image)) =
    status (fst (process_image batchId lotMap image)).
Proof.
  unfold process_image. destruct image as [name url].
  destruct (parseImageFilename name) as [[lotNum order]|]; [|split; reflexivity].
  destruct (lotMap !! lotNum) as [lotId|]; [|split; reflexivity].
  destruct (negb (lotId =? 0)); split; reflexivity.
Qed.

(** The loop leaves the batch table alone, and what it adds to
    [image_mappings] is the rows of the loop body for the images it got
    through, in order; it returns results only if it got through all of
    them, and with a batch id that is not in [import_batches] it gets
    through none. *)
Lemma process_images_spec (batchId : string) (lotMap : gmap Z Z)
    (images : list (string * string)) (st : Store) (results : list ImageMatchResult) :
  let out := process_images st batchId lotMap images results in
  import_batches (snd out) = import_batches st /\
  user_ids (snd out) = user_ids st /\
  auction_ids (snd out) = auction_ids st /\
  lot_rows (snd out) = lot_rows st /\
  (exists done rest,
     images = done ++ rest /\
     image_mappings (snd out) =
       image_mappings st ++ map (fun image => snd (process_image batchId lotMap image)) done /\
     (fst out = None -> rest <> []) /\
     (forall rs, fst out = Some rs ->
        rest = [] /\
        rs = results ++ map (fun image => fst (process_image batchId lotMap image)) images)) /\
  (has_batch st batchId = false -> images <> [] -> out = (None, st)).
Proof.
  revert st results. induction images as [|img rest IH]; intros st results; cbn zeta.
  - cbn [process_images fst snd].
    split; [reflexivity|]. split; [reflexivity|]. split; [reflexivity|].
    split; [reflexivity|]. split.
    + exists [], []. split; [reflexivity|]. split; [symmetry; apply app_nil_r|].
      split; [discriminate|]. intros rs [= <-].
      split; [reflexivity | symmetry; apply app_nil_r].
    + intros _ Hne. contradiction.
  - cbn [process_images].
    pose proof (process_image_row_batch batchId lotMap img) as [Hb _].
    destruct (process_image batchId lotMap img) as [r row] eqn:E. cbn [fst snd] in Hb.
    destruct (mapping_accepted st row) eqn:Eacc.
    + destruct (IH (insert_mapping st row) (results ++ [r]))
        as (H1 & H2 & H3 & H4 & (done & rest' & Himg & Hrows & Hnone & Hsome) & _).
      cbn zeta in *.
      split; [exact H1|]. split; [exact H2|]. split; [exact H3|].
      split; [exact H4|]. split.
      * exists (img :: done), rest'. split; [rewrite Himg; reflexivity|]. split.
        { rewrite Hrows. cbn [insert_mapping image_mappings map].
          rewrite E. cbn [snd]. rewrite <- app_assoc. reflexivity. }
        split; [exact Hnone|].
        intros rs Hrs. destruct (Hsome rs Hrs) as [-> ->].
        split; [reflexivity|]. cbn [map]. rewrite E. cbn [fst].
        rewrite <- app_assoc. reflexivity.
      * intros Hfresh _. exfalso.
        unfold mapping_accepted in Eacc. rewrite Hb, Hfresh in Eacc. discriminate Eacc.
    + cbn [fst snd].
      split; [reflexivity|]. split; [reflexivity|]. split; [reflexivity|].
      split; [reflexivity|]. split.
      * exists [], (img :: rest). split; [reflexivity|].
        split; [symmetry; apply app_nil_r|].
        split; [intros _; discriminate | discriminate].
      * intros _ _. reflexivity.
Qed.

(** No row that [processBulkImages] writes carries the status [conflict]. *)
Lemma processBulkImages_never_conflict (st : Store) (batchId : string) (auctionId : Z)
    (images : list (string * string)) (createdBy : Z) :
  exists rows,
    image_mappings (snd (processBulkImages st batchId auctionId images createdBy)) =
      image_mappings st ++ rows /\
    Forall (fun row => match_status row <> conflict) rows.
Proof.
  unfold processBulkImages.
  set (lotMap := build_lotMap (lots_of_auction st auctionId)).
  destruct (process_images_spec batchId lotMap images st [])
    as (_ & _ & _ & _ & (done & rest & _ & Hrows & _) & _).
  cbn zeta in Hrows.
  assert (Hok : Forall (fun row => match_status row <> conflict)
                  (map (fun image => snd (process_image batchId lotMap image)) done)).
  { apply List.Forall_forall. intros row Hin.
    apply in_map_iff in Hin as (img & <- & _).
    destruct (process_image_row_batch batchId lotMap img) as [_ ->].
    destruct (process_image_status batchId lotMap img) as [E | E];
      rewrite E; discriminate. }
  destruct (process_images st batchId lotMap images []) as [[results|] st1];
    cbn [snd] in *.
  - exists (map (fun image => snd (process_image batchId lotMap image)) done).
    split; [|exact Hok].
    destruct (batch_accepted st1 _); cbn [snd insert_batch image_mappings]; exact Hrows.
  - exists (map (fun image => snd (process_image batchId lotMap image)) done).
    split; [exact Hrows | exact Hok].
Qed.

(** A call with at least one image never returns: with a fresh batch id
    the first insert breaks the foreign key on [import_batch_id] (the batch
    row is only written after the loop) and nothing is written; with an id
    that is already in [import_batches] the insert of the batch row breaks
    its primary key. *)
Lemma processBulkImages_throws (st : Store) (batchId : string) (auctionId : Z)
    (images : list (string * string)) (createdBy : Z) :
  images <> [] ->
  fst (processBulkImages st batchId auctionId images createdBy) = None /\
  import_batches (snd (processBulkImages st batchId auctionId images createdBy)) =
    import_batches st /\
  (has_batch st batchId = false ->
   snd (processBulkImages st batchId auctionId images createdBy) = st).
Proof.
  intros Hne. unfold processBulkImages.
  set (lotMap := build_lotMap (lots_of_auction st auctionId)).
  destruct (process_images_spec batchId lotMap images st [])
    as (Hb & _ & _ & _ & _ & Hfresh).
  cbn zeta in Hb, Hfresh.
  destruct (has_batch st batchId) eqn:Ehas.
  - destruct (process_images st batchId lotMap images []) as [[results|] st1];
      cbn [fst snd] in *.
    + unfold batch_accepted, has_batch. cbn [batch_id]. rewrite Hb.
      unfold has_batch in Ehas. rewrite Ehas. cbn [negb andb fst snd].
      split; [reflexivity|]. split; [exact Hb | discriminate].
    + split; [reflexivity|]. split; [exact Hb | discriminate].
  - rewrite (Hfresh eq_refl Hne). cbn [fst snd].
    split; [reflexivity|]. split; reflexivity.
Qed.

(** C9 fails on the code.  Scenario 8 of the specification: lot 12 exists
    and the batch names ["12-1.jpg"] twice.  The loop body gives every image
    a result by its own file name: both ["12-1.jpg"] parse to (lot 12,
    order 1) and both come out [matched] for lot 40 at order 1, the second
    is not a [conflict].  On the database the call does not get that far:
    the first insert into [image_mappings] names a batch that is not in
    [import_batches] yet, so the call throws and leaves the store as it
    was, with no mapping recorded at all; and had the batch id been there
    before, the five rows written would be those of the loop body, the
    second ["12-1.jpg"] [matched] again, before the call throws on the
    batch row. *)
Lemma duplicate_target_is_matched_twice :
  let lotMap := build_lotMap (lots_of_auction scenario_store 1) in
  let body := map (process_image scenario_batch_id lotMap) scenario_images in
  let out := processBulkImages scenario_store scenario_batch_id 1 scenario_images 9 in
  let out' := processBulkImages scenario_store_with_batch scenario_batch_id 1
                scenario_images 9 in
  map (fun x => (lotNumber (fst x), photoOrder (fst x))) body =
    [ (Some 12, Some 1); (Some 12, Some 2); (Some 12, Some 3); (None, None);
      (Some 12, Some 1) ] /\
  map (fun x => status (fst x)) body = [ matched; matched; matched; unmatched; matched ] /\
  out = (None, scenario_store) /\
  image_mappings (snd out) = [] /\
  fst out' = None /\
  map (fun row => (match_status row, assigned_lot_id row, assigned_order row))
      (image_mappings (snd out')) =
    [ (matched, Some 40, Some 1); (matched, Some 40, Some 2);
      (matched, Some 40, Some 3); (unmatched, None, None);
      (matched, Some 40, Some 1) ].
Proof.
  intros lotMap body out out'. repeat split; reflexivity.
Qed.

End ImporterFacts.

(** ** More on the bidding engine *)

Module EngineMore.
Import Rules Engine RulesFacts EngineFacts.

(** *** The shapes of a [placeBid] call *)

(** Every call either stops at a check and hands the store back, or passes
    all checks and ends in one of the outcomes of [BidOutcome] followed by
    the soft-close check. *)
Lemma placeBid_shape (db : DB) (lotId bidderId amount : Z) (maxBid : option Z)
    (metadata : option Metadata) (t : Z) :
  (forall l, lots db !! lotId = Some l -> lot_id l = lotId) ->
  (snd (placeBid db lotId bidderId amount maxBid metadata t) = db /\
   success (fst (placeBid db lotId bidderId amount maxBid metadata t)) = false /\
   code (fst (placeBid db lotId bidderId amount maxBid metadata t)) <> BID_SUCCESS) \/
  (exists l db1,
     lots db !! lotId = Some l /\
     reaches_floor_check l amount maxBid t /\
     minimum_bid l (getIncrementRules db l) <= amount /\
     current_bidder_id l <> Some bidderId /\
     BidOutcome db l bidderId amount maxBid metadata t
       (code (fst (placeBid db lotId bidderId amount maxBid metadata t))) db1 /\
     snd (placeBid db lotId bidderId amount maxBid metadata t) = checkSoftClose db1 l t).
Proof.
  intros Hwf. unfold placeBid.
  destruct (amount <=? 0) eqn:E1; [left; split; [reflexivity | split; [reflexivity | discriminate]]|].
  destruct (truthy maxBid && (val maxBid <? amount)) eqn:E2; [left; split; [reflexivity | split; [reflexivity | discriminate]]|].
  destruct (lots db !! lotId) as [l|] eqn:Hl; [|left; split; [reflexivity | split; [reflexivity | discriminate]]].
  specialize (Hwf l eq_refl).
  destruct (negb (bool_decide (status l = active))) eqn:E3; [left; split; [reflexivity | split; [reflexivity | discriminate]]|].
  destruct (truthy (current_close_time l) && (val (current_close_time l) <=? t)) eqn:E4;
    [left; split; [reflexivity | split; [reflexivity | discriminate]]|].
  destruct (amount <? minimum_bid l (getIncrementRules db l)) eqn:E5;
    [left; split; [reflexivity | split; [reflexivity | discriminate]]|].
  destruct (bool_decide (current_bidder_id l = Some bidderId)) eqn:E6;
    [left; split; [reflexivity | split; [reflexivity | discriminate]]|].
  assert (Hpre : reaches_floor_check l amount maxBid t).
  { unfold reaches_floor_check. split; [lia|]. split.
    - intros Ht. rewrite Ht in E2. cbn [andb] in E2. lia.
    - split.
      + apply negb_false_iff, bool_decide_eq_true in E3. exact E3.
      + intros Ht. rewrite Ht in E4. cbn [andb] in E4. lia. }
  apply bool_decide_eq_false in E6.
  fold (incumbent_max db lotId l).
  unfold executeBidTransaction, commit.
  assert (Hge : minimum_bid l (getIncrementRules db l) <= amount) by lia.
  destruct (truthy (incumbent_max db lotId l)) eqn:EH; cbn [negb].
  - destruct (truthy maxBid && (val (incumbent_max db lotId l) <? val maxBid)) eqn:Eo.
    + rewrite transaction_committed.
      destruct (forallb _ _);
        [|left; split; [reflexivity | split; [reflexivity | discriminate]]].
      right. exists l.
      apply andb_true_iff in Eo as [Em Elt].
      apply truthy_Some in Em as (m & -> & Hm0).
      apply truthy_Some in EH as (h & Hh & Hh0).
      rewrite Hh in *. cbn [val] in *.
      eexists. split; [reflexivity|]. split; [exact Hpre|]. split; [exact Hge|].
      split; [exact E6|]. split; [|reflexivity].
      cbn [fst snd code].
      apply (OutcomeOvertake db l bidderId amount (Some m) metadata t h m);
        [rewrite Hwf; exact Hh | exact Hh0 | reflexivity | exact Hm0 | lia].
    + right. exists l.
      destruct (truthy maxBid && (val maxBid =? val (incumbent_max db lotId l)));
        exists db; (split; [reflexivity|]); (split; [exact Hpre|]);
        (split; [exact Hge|]); (split; [exact E6|]); (split; [|reflexivity]);
        cbn [fst snd code];
        [apply OutcomeTied | apply OutcomeDefended]; rewrite Hwf; exact EH.
  - rewrite transaction_committed.
    destruct (forallb _ _);
      [|left; split; [reflexivity | split; [reflexivity | discriminate]]].
    right. exists l.
    eexists. split; [reflexivity|]. split; [exact Hpre|]. split; [exact Hge|].
    split; [exact E6|]. split; [|reflexivity].
    cbn [fst snd code]. apply OutcomePlain. rewrite Hwf. exact EH.
Qed.

(** *** What the two committed transactions write *)

Lemma committed_simple (db : DB) (l : Lot) (bidderId amount : Z)
    (maxBid : option Z) (metadata : option Metadata) (t : Z) :
  let db1 := committed db (simple_bid_queries l bidderId amount maxBid metadata t) in
  let new_row := new_bid_row l (Some bidderId) amount manual (or_null maxBid)
                   (truthy maxBid) true (meta_ip metadata) (meta_ua metadata)
                   bs_winning in
  lots db1 = alter (set_lot_bid amount (Some bidderId) 1 t) (lot_id l) (lots db) /\
  auctions db1 = auctions db /\
  bids db1 =
    (if truthy (current_bidder_id l)
     then map (fun b => if outbid_target (lot_id l) (current_bidder_id l) b
                        then set_outbid t false b else b)
              (bids db ++ [new_row])
     else bids db ++ [new_row]) /\
  bid_audit_log db1 =
    bid_audit_log db ++
    [ mkAudit bid_placed (lot_id l) (auction_id l) (Some bidderId)
        (Some (current_bid l)) (Some amount) "success"
        (meta_ip metadata) (meta_ua metadata) ].
Proof.
  unfold simple_bid_queries, committed, createAuditLog.
  destruct (truthy (current_bidder_id l)); repeat split; reflexivity.
Qed.

Lemma committed_overtake (db : DB) (l : Lot) (bidderId : Z) (maxBid : option Z)
    (h final : Z) (metadata : option Metadata) (t : Z) :
  let db1 := committed db (overtake_queries l bidderId maxBid h final metadata t) in
  let new_row := new_bid_row l (Some bidderId) final manual maxBid true true
                   (meta_ip metadata) (meta_ua metadata) bs_winning in
  let proxy_row := new_bid_row l (current_bidder_id l) h proxy_auto (Some h)
                     false false None None bs_outbid in
  lots db1 = alter (set_lot_bid final (Some bidderId) 2 t) (lot_id l) (lots db) /\
  auctions db1 = auctions db /\
  bids db1 =
    map (fun b => if outbid_target (lot_id l) (current_bidder_id l) b
                  then set_outbid t true b else b)
        (bids db ++ [new_row; proxy_row]) /\
  bid_audit_log db1 =
    bid_audit_log db ++
    [ mkAudit proxy_triggered (lot_id l) (auction_id l) (current_bidder_id l)
        (Some (current_bid l)) (Some h) "outbid"
        (meta_ip metadata) (meta_ua metadata);
      mkAudit bid_placed (lot_id l) (auction_id l) (Some bidderId)
        (Some h) (Some final) "success"
        (meta_ip metadata) (meta_ua metadata) ].
Proof.
  unfold overtake_queries, committed, createAuditLog.
  cbn [fold_left write lots auctions bids bid_audit_log].
  repeat split; try reflexivity.
  - rewrite <- app_assoc. reflexivity.
  - rewrite <- app_assoc. reflexivity.
Qed.

(** The outbid update rewrites flags only, and only on rows of its lot. *)
Lemma outbid_update_identity (lotId : Z) (bidder : option Z) (t : Z) (clearMax : bool) (b : Bid) :
  bid_identity (if outbid_target lotId bidder b then set_outbid t clearMax b else b) =
  bid_identity b.
Proof. destruct (outbid_target lotId bidder b); reflexivity. Qed.

Lemma outbid_update_other_lots (lotId : Z) (bidder : option Z) (t : Z) (clearMax : bool)
    (bs : list Bid) :
  List.filter (fun b => negb (bid_lot_id b =? lotId))
    (map (fun b => if outbid_target lotId bidder b then set_outbid t clearMax b else b) bs) =
  List.filter (fun b => negb (bid_lot_id b =? lotId)) bs.
Proof.
  induction bs as [|b rest IH]; [reflexivity|].
  cbn [map List.filter]. rewrite IH.
  destruct (outbid_target lotId bidder b) eqn:Et; [|reflexivity].
  unfold outbid_target in Et.
  destruct (bid_lot_id b =? lotId) eqn:El; [|discriminate Et].
  cbn [set_outbid bid_lot_id]. rewrite El. reflexivity.
Qed.

Lemma checkSoftClose_auctions (db : DB) (l : Lot) (t : Z) :
  auctions (checkSoftClose db l t) = auctions db.
Proof.
  unfold checkSoftClose.
  destruct (negb (truthy (current_close_time l))); [reflexivity|].
  destruct (auctions db !! auction_id l) as [a|]; [|reflexivity].
  destruct (negb (soft_close_enabled a)); [reflexivity|].
  destruct (_ <=? _); reflexivity.
Qed.

Lemma checkSoftClose_other_lots (db : DB) (l : Lot) (t k : Z) :
  k <> lot_id l ->
  lots (checkSoftClose db l t) !! k = lots db !! k.
Proof.
  intros Hk. unfold checkSoftClose.
  destruct (negb (truthy (current_close_time l))); [reflexivity|].
  destruct (auctions db !! auction_id l) as [a|]; [|reflexivity].
  destruct (negb (soft_close_enabled a)); [reflexivity|].
  destruct (_ <=? _); [|reflexivity].
  cbn [lots]. apply lookup_alter_ne. congruence.
Qed.

(** *** A bid touches one lot *)

Lemma outcome_touches_one_lot (db : DB) (l : Lot) (bidderId amount : Z)
    (maxBid : option Z) (metadata : option Metadata) (t : Z)
    (c : ResultCode) (db1 : DB) :
  BidOutcome db l bidderId amount maxBid metadata t c db1 ->
  auctions db1 = auctions db /\
  (forall k, k <> lot_id l -> lots db1 !! k = lots db !! k) /\
  bids_elsewhere db1 (lot_id l) = bids_elsewhere db (lot_id l).
Proof.
  intros [Hh | Hh | Hh | h m Hh Hh0 Hm Hm0 Hlt].
  - repeat split; reflexivity.
  - repeat split; reflexivity.
  - destruct (committed_simple db l bidderId amount maxBid metadata t)
      as (Hlots & Hauc & Hbids & _). cbn zeta in *.
    split; [exact Hauc|]. split.
    + intros k Hk. rewrite Hlots. apply lookup_alter_ne. congruence.
    + unfold bids_elsewhere. rewrite Hbids.
      destruct (truthy (current_bidder_id l)).
      * rewrite outbid_update_other_lots, List.filter_app.
        cbn [List.filter new_bid_row bid_lot_id]. rewrite Z.eqb_refl.
        cbn [negb]. apply app_nil_r.
      * rewrite List.filter_app.
        cbn [List.filter new_bid_row bid_lot_id]. rewrite Z.eqb_refl.
        cbn [negb]. apply app_nil_r.
  - destruct (committed_overtake db l bidderId maxBid h
                (Z.min m (js_add h (calculateBidIncrement (current_bid l)
                                    (getIncrementRules db l)))) metadata t)
      as (Hlots & Hauc & Hbids & _). cbn zeta in *.
    split; [exact Hauc|]. split.
    + intros k Hk. rewrite Hlots. apply lookup_alter_ne. congruence.
    + unfold bids_elsewhere. rewrite Hbids.
      rewrite outbid_update_other_lots, List.filter_app.
      cbn [List.filter new_bid_row bid_lot_id]. rewrite !Z.eqb_refl.
      cbn [negb]. apply app_nil_r.
Qed.

(** X1.  A [placeBid] call on a lot never touches the [auctions] table, the row
    of another lot, or a Bid row of another lot, whatever its outcome. *)
Theorem placeBid_touches_one_lot (db : DB) (lotId bidderId amount : Z)
    (maxBid : option Z) (metadata : option Metadata) (t : Z) :
  (forall l, lots db !! lotId = Some l -> lot_id l = lotId) ->
  let db' := snd (placeBid db lotId bidderId amount maxBid metadata t) in
  auctions db' = auctions db /\
  (forall k, k <> lotId -> lots db' !! k = lots db !! k) /\
  bids_elsewhere db' lotId = bids_elsewhere db lotId.
Proof.
  intros Hwf db'. subst db'.
  destruct (placeBid_shape db lotId bidderId amount maxBid metadata t Hwf)
    as [[-> _] | (l & db1 & Hl & _ & _ & _ & Hout & ->)].
  - repeat split; reflexivity.
  - specialize (Hwf l Hl).
    destruct (outcome_touches_one_lot _ _ _ _ _ _ _ _ _ Hout) as (Ha & Hk & Hb).
    rewrite Hwf in *.
    split; [rewrite checkSoftClose_auctions; exact Ha|]. split.
    + intros k Hne. rewrite checkSoftClose_other_lots by congruence. apply Hk, Hne.
    + unfold bids_elsewhere in *. rewrite checkSoftClose_bids. exact Hb.
Qed.

(** Placing bids on lot 1 of a store that also holds lot 2 with a bid. *)
Lemma placeBid_touches_one_lot_witness :
  let db := two_lot_store in
  let db' := snd (placeBid db 1 2 60 (Some 300) None 2000) in
  (forall l, lots db !! 1 = Some l -> lot_id l = 1) /\
  (auctions db' = auctions db /\
   (forall k, k <> 1 -> lots db' !! k = lots db !! k) /\
   bids_elsewhere db' 1 = bids_elsewhere db 1).
Proof.
  intros db db'.
  assert (Hwf : forall l, lots db !! 1 = Some l -> lot_id l = 1).
  { intros l Hl. vm_compute in Hl. injection Hl as <-. reflexivity. }
  split; [exact Hwf|].
  exact (placeBid_touches_one_lot db 1 2 60 (Some 300) None 2000 Hwf).
Defined.

(** *** Bids and audit events are only ever added *)

Lemma outcome_appends (db : DB) (l : Lot) (bidderId amount : Z)
    (maxBid : option Z) (metadata : option Metadata) (t : Z)
    (c : ResultCode) (db1 : DB) :
  lots db !! lot_id l = Some l ->
  BidOutcome db l bidderId amount maxBid metadata t c db1 ->
  (exists rows,
     map bid_identity (bids db1) = map bid_identity (bids db) ++ rows) /\
  (exists evs,
     bid_audit_log db1 = bid_audit_log db ++ evs /\
     (c = BID_SUCCESS ->
      exists final n,
        bidding_snapshot db1 (lot_id l) = Some (final, Some bidderId, n) /\
        Exists (fun e => event_type e = bid_placed /\
                         ev_lot_id e = lot_id l /\
                         ev_bidder_id e = Some bidderId /\
                         new_amount e = Some final) evs)).
Proof.
  intros Hl [Hh | Hh | Hh | h m Hh Hh0 Hm Hm0 Hlt].
  - split; [exists []; symmetry; apply app_nil_r|].
    exists []. split; [symmetry; apply app_nil_r | discriminate].
  - split; [exists []; symmetry; apply app_nil_r|].
    exists []. split; [symmetry; apply app_nil_r | discriminate].
  - destruct (committed_simple db l bidderId amount maxBid metadata t)
      as (Hlots & _ & Hbids & Hlog). cbn zeta in *.
    split.
    + rewrite Hbids. eexists.
      destruct (truthy (current_bidder_id l)).
      * rewrite map_map.
        rewrite (map_ext _ bid_identity
                   (fun b => outbid_update_identity (lot_id l) (current_bidder_id l) t false b)).
        apply map_app.
      * apply map_app.
    + eexists. split; [exact Hlog|]. intros _.
      exists amount, (bid_count l + 1). split.
      * unfold bidding_snapshot. rewrite Hlots, lookup_alter_eq, Hl. reflexivity.
      * constructor. repeat split; reflexivity.
  - destruct (committed_overtake db l bidderId maxBid h
                (Z.min m (js_add h (calculateBidIncrement (current_bid l)
                                    (getIncrementRules db l)))) metadata t)
      as (Hlots & _ & Hbids & Hlog). cbn zeta in *.
    split.
    + rewrite Hbids. eexists. rewrite map_map.
      rewrite (map_ext _ bid_identity
                 (fun b => outbid_update_identity (lot_id l) (current_bidder_id l) t true b)).
      apply map_app.
    + eexists. split; [exact Hlog|]. intros _.
      eexists _, (bid_count l + 2). split.
      * unfold bidding_snapshot. rewrite Hlots, lookup_alter_eq, Hl. reflexivity.
      * apply Exists_cons_tl. constructor. repeat split; reflexivity.
Qed.

(** X2.  A [placeBid] call never deletes a Bid row and never rewrites what a row
    says was bid (lot, bidder, amount, type, maximum, previous snapshot): it
    only appends rows.  It only appends to the audit log; and when it
    answers [BID_SUCCESS] the appended events include a [bid_placed] event
    for the bidder whose [new_amount] is the lot's new [current_bid]. *)
Theorem placeBid_appends_only (db : DB) (lotId bidderId amount : Z)
    (maxBid : option Z) (metadata : option Metadata) (t : Z) :
  (forall l, lots db !! lotId = Some l -> lot_id l = lotId) ->
  let r := fst (placeBid db lotId bidderId amount maxBid metadata t) in
  let db' := snd (placeBid db lotId bidderId amount maxBid metadata t) in
  (exists rows,
     map bid_identity (bids db') = map bid_identity (bids db) ++ rows) /\
  (exists evs,
     bid_audit_log db' = bid_audit_log db ++ evs /\
     (code r = BID_SUCCESS ->
      exists final n,
        bidding_snapshot db' lotId = Some (final, Some bidderId, n) /\
        Exists (fun e => event_type e = bid_placed /\
                         ev_lot_id e = lotId /\
                         ev_bidder_id e = Some bidderId /\
                         new_amount e = Some final) evs)).
Proof.
  intros Hwf r db'. subst r db'.
  destruct (placeBid_shape db lotId bidderId amount maxBid metadata t Hwf)
    as [(-> & _ & Hc) | (l & db1 & Hl & _ & _ & _ & Hout & ->)].
  - split; [exists []; symmetry; apply app_nil_r|].
    exists []. split; [symmetry; apply app_nil_r | intros E; contradiction].
  - specialize (Hwf l Hl). subst lotId.
    destruct (outcome_appends _ _ _ _ _ _ _ _ _ Hl Hout)
      as ((rows & Hrows) & (evs & Hlog & Hsucc)).
    split.
    + exists rows. rewrite checkSoftClose_bids. exact Hrows.
    + destruct (checkSoftClose_audit db1 l t) as (extra & Hextra & _).
      exists (evs ++ extra). split.
      * rewrite Hextra, Hlog, <- app_assoc. reflexivity.
      * intros Hc. destruct (Hsucc Hc) as (final & n & Hsnap & Hex).
        exists final, n. split.
        -- rewrite checkSoftClose_snapshot. exact Hsnap.
        -- apply Exists_app. left. exact Hex.
Qed.

Lemma placeBid_appends_only_witness :
  let db := two_lot_store in
  let r := fst (placeBid db 1 2 60 (Some 300) None 2000) in
  let db' := snd (placeBid db 1 2 60 (Some 300) None 2000) in
  (forall l, lots db !! 1 = Some l -> lot_id l = 1) /\
  ((exists rows,
      map bid_identity (bids db') = map bid_identity (bids db) ++ rows) /\
   (exists evs,
      bid_audit_log db' = bid_audit_log db ++ evs /\
      (code r = BID_SUCCESS ->
       exists final n,
         bidding_snapshot db' 1 = Some (final, Some 2, n) /\
         Exists (fun e => event_type e = bid_placed /\
                          ev_lot_id e = 1 /\
                          ev_bidder_id e = Some 2 /\
                          new_amount e = Some final) evs))).
Proof.
  intros db r db'.
  assert (Hwf : forall l, lots db !! 1 = Some l -> lot_id l = 1).
  { intros l Hl. vm_compute in Hl. injection Hl as <-. reflexivity. }
  split; [exact Hwf|].
  exact (placeBid_appends_only db 1 2 60 (Some 300) None 2000 Hwf).
Defined.

(** *** One winning row per lot *)

Lemma winner_ok_bidder (l : Lot) (b : Bid) :
  winner_ok l b = true ->
  exists p, bidder_id b = Some p /\ p <> 0 /\ current_bidder_id l = Some p /\
            amount b = current_bid l.
Proof.
  unfold winner_ok. intros H. apply andb_true_iff in H as [H1 H2].
  destruct (bidder_id b) as [p|]; [|discriminate H1].
  apply andb_true_iff in H1 as [Hp Hc].
  apply negb_true_iff in Hp. apply bool_decide_eq_true in Hc.
  exists p. repeat split; [lia | exact Hc | lia].
Qed.

Lemma single_winner_rows (db : DB) (lotId : Z) (l : Lot) :
  lots db !! lotId = Some l ->
  single_winner db lotId = true ->
  forall b, In b (bids db) ->
    (bid_lot_id b =? lotId) && is_winning b = true -> winner_ok l b = true.
Proof.
  unfold single_winner, winners. intros Hl H b Hb Hw. rewrite Hl in H.
  apply andb_true_iff in H as [_ H]. rewrite forallb_forall in H.
  apply H. apply filter_In. split; assumption.
Qed.

(** Once the current bidder's winning rows are marked outbid, no old row of
    the lot is winning. *)
Lemma outbid_update_clears_winners (l : Lot) (lotId p t : Z) (clearMax : bool) (bs : list Bid) :
  current_bidder_id l = Some p ->
  (forall b, In b bs -> (bid_lot_id b =? lotId) && is_winning b = true ->
             winner_ok l b = true) ->
  List.filter (fun b => (bid_lot_id b =? lotId) && is_winning b)
    (map (fun b => if outbid_target lotId (Some p) b then set_outbid t clearMax b else b) bs)
  = [].
Proof.
  intros Hcur Hok. apply filter_none. intros b' Hb'.
  apply in_map_iff in Hb' as (b & <- & Hb).
  destruct (outbid_target lotId (Some p) b) eqn:Et.
  - cbn [set_outbid bid_lot_id is_winning]. apply andb_false_r.
  - destruct ((bid_lot_id b =? lotId) && is_winning b) eqn:Ew; [|reflexivity].
    destruct (winner_ok_bidder l b (Hok b Hb Ew)) as (q & Hq & _ & Hcq & _).
    rewrite Hcur in Hcq. injection Hcq as <-.
    unfold outbid_target in Et. rewrite Hq, Z.eqb_refl in Et.
    apply andb_true_iff in Ew as [E1 E2]. rewrite E1, E2 in Et. discriminate Et.
Qed.

(** Without a (non-zero) current bidder the lot has no winning row. *)
Lemma no_bidder_no_winner (l : Lot) (lotId : Z) (bs : list Bid) :
  truthy (current_bidder_id l) = false ->
  (forall b, In b bs -> (bid_lot_id b =? lotId) && is_winning b = true ->
             winner_ok l b = true) ->
  List.filter (fun b => (bid_lot_id b =? lotId) && is_winning b) bs = [].
Proof.
  intros Hcur Hok. apply filter_none. intros b Hb.
  destruct ((bid_lot_id b =? lotId) && is_winning b) eqn:Ew; [|reflexivity].
  destruct (winner_ok_bidder l b (Hok b Hb Ew)) as (q & _ & Hq0 & Hcq & _).
  rewrite Hcq, (truthy_nonzero _ Hq0) in Hcur. discriminate Hcur.
Qed.

Lemma single_winner_of_row (db : DB) (lotId : Z) (l : Lot) (row : Bid) :
  lots db !! lotId = Some l ->
  winners db lotId = [row] ->
  winner_ok l row = true ->
  single_winner db lotId = true.
Proof.
  intros Hl Hw Hok. unfold single_winner. rewrite Hl, Hw. cbn. rewrite Hok. reflexivity.
Qed.

Lemma outcome_single_winner (db : DB) (l : Lot) (bidderId amount : Z)
    (maxBid : option Z) (metadata : option Metadata) (t : Z)
    (c : ResultCode) (db1 : DB) :
  lots db !! lot_id l = Some l ->
  bidderId <> 0 ->
  current_bidder_id l <> Some bidderId ->
  single_winner db (lot_id l) = true ->
  BidOutcome db l bidderId amount maxBid metadata t c db1 ->
  single_winner db1 (lot_id l) = true /\
  (c = BID_SUCCESS ->
   exists row l1,
     winners db1 (lot_id l) = [row] /\
     lots db1 !! lot_id l = Some l1 /\
     bidder_id row = Some bidderId /\
     Engine.amount row = current_bid l1 /\
     current_bidder_id l1 = Some bidderId).
Proof.
  intros Hl Hb0 Hself Hinv Hout.
  pose proof (single_winner_rows db (lot_id l) l Hl Hinv) as Hrows.
  destruct Hout as [Hh | Hh | Hh | h m Hh Hh0 Hm Hm0 Hlt].
  - split; [exact Hinv | discriminate].
  - split; [exact Hinv | discriminate].
  - destruct (committed_simple db l bidderId amount maxBid metadata t)
      as (Hlots & _ & Hbids & _). cbn zeta in *.
    set (row := new_bid_row l (Some bidderId) amount manual (or_null maxBid)
                  (truthy maxBid) true (meta_ip metadata) (meta_ua metadata)
                  bs_winning) in *.
    set (l1 := set_lot_bid amount (Some bidderId) 1 t l).
    assert (Hl1 : lots (committed db (simple_bid_queries l bidderId amount maxBid
                                          metadata t)) !! lot_id l = Some l1).
    { rewrite Hlots, lookup_alter_eq, Hl. reflexivity. }
    assert (Hw : winners (committed db (simple_bid_queries l bidderId amount maxBid
                                            metadata t)) (lot_id l) = [row]).
    { unfold winners. rewrite Hbids.
      destruct (truthy (current_bidder_id l)) eqn:Ecur.
      - apply truthy_Some in Ecur as (p & Hp & Hp0). rewrite Hp.
        rewrite map_app, List.filter_app.
        rewrite (outbid_update_clears_winners l (lot_id l) p t false (bids db) Hp Hrows).
        cbn [map app]. unfold outbid_target, row.
        cbn [new_bid_row bid_lot_id bidder_id is_winning].
        destruct (p =? bidderId) eqn:E3.
        { exfalso. apply Hself. rewrite Hp. f_equal. lia. }
        rewrite Z.eqb_refl. cbn [andb List.filter new_bid_row bid_lot_id is_winning].
        rewrite Z.eqb_refl. reflexivity.
      - rewrite List.filter_app.
        rewrite (no_bidder_no_winner l (lot_id l) (bids db) Ecur Hrows).
        unfold row. cbn [app List.filter new_bid_row bid_lot_id is_winning].
        rewrite Z.eqb_refl. reflexivity. }
    assert (Hok : winner_ok l1 row = true).
    { unfold winner_ok, row, l1.
      cbn [new_bid_row set_lot_bid bidder_id Engine.amount current_bidder_id current_bid].
      rewrite Z.eqb_refl, bool_decide_eq_true_2 by reflexivity.
      destruct (bidderId =? 0) eqn:E; [lia | reflexivity]. }
    split; [exact (single_winner_of_row _ _ _ _ Hl1 Hw Hok)|].
    intros _. exists row, l1. repeat split; assumption || reflexivity.
  - destruct (committed_overtake db l bidderId maxBid h
                (Z.min m (js_add h (calculateBidIncrement (current_bid l)
                                    (getIncrementRules db l)))) metadata t)
      as (Hlots & _ & Hbids & _). cbn zeta in *.
    set (final := Z.min m (js_add h (calculateBidIncrement (current_bid l)
                                       (getIncrementRules db l)))) in *.
    set (row := new_bid_row l (Some bidderId) final manual maxBid true true
                  (meta_ip metadata) (meta_ua metadata) bs_winning) in *.
    set (l1 := set_lot_bid final (Some bidderId) 2 t l).
    set (db1 := committed db (overtake_queries l bidderId maxBid h final metadata t)) in *.
    assert (Hl1 : lots db1 !! lot_id l = Some l1).
    { rewrite Hlots, lookup_alter_eq, Hl. reflexivity. }
    assert (Hcur : exists p, current_bidder_id l = Some p /\ p <> 0).
    { unfold incumbent_max in Hh.
      destruct (truthy (current_bidder_id l)) eqn:Ecur; [|discriminate Hh].
      apply truthy_Some in Ecur as (p & Hp & Hp0). eauto. }
    destruct Hcur as (p & Hp & Hp0).
    assert (Hw : winners db1 (lot_id l) = [row]).
    { unfold winners. rewrite Hbids, Hp.
      rewrite map_app, List.filter_app.
      rewrite (outbid_update_clears_winners l (lot_id l) p t true (bids db) Hp Hrows).
      cbn [map app]. unfold outbid_target, row.
      cbn [new_bid_row bid_lot_id bidder_id is_winning].
      destruct (p =? bidderId) eqn:E3.
      { exfalso. apply Hself. rewrite Hp. f_equal. lia. }
      rewrite !Z.eqb_refl. cbn [andb List.filter new_bid_row bid_lot_id is_winning].
      rewrite !Z.eqb_refl. reflexivity. }
    assert (Hok : winner_ok l1 row = true).
    { unfold winner_ok, row, l1.
      cbn [new_bid_row set_lot_bid bidder_id Engine.amount current_bidder_id current_bid].
      rewrite Z.eqb_refl, bool_decide_eq_true_2 by reflexivity.
      destruct (bidderId =? 0) eqn:E; [lia | reflexivity]. }
    split; [exact (single_winner_of_row _ _ _ _ Hl1 Hw Hok)|].
    intros _. exists row, l1. repeat split; assumption || reflexivity.
Qed.

Lemma checkSoftClose_lot (db : DB) (l : Lot) (t k : Z) (l1 : Lot) :
  lots db !! k = Some l1 ->
  exists l2, lots (checkSoftClose db l t) !! k = Some l2 /\
             current_bid l2 = current_bid l1 /\
             current_bidder_id l2 = current_bidder_id l1 /\
             bid_count l2 = bid_count l1 /\
             reserve_met l2 = reserve_met l1 /\
             reserve_price l2 = reserve_price l1 /\
             status l2 = status l1.
Proof.
  intros Hk. unfold checkSoftClose.
  destruct (negb (truthy (current_close_time l)));
    [exists l1; repeat split; assumption|].
  destruct (auctions db !! auction_id l) as [a|];
    [|exists l1; repeat split; assumption].
  destruct (negb (soft_close_enabled a));
    [exists l1; repeat split; assumption|].
  destruct (_ <=? _); [|exists l1; repeat split; assumption].
  cbn [lots]. destruct (decide (lot_id l = k)) as [<-|Hne].
  - eexists. rewrite lookup_alter_eq, Hk. repeat split; reflexivity.
  - exists l1. rewrite lookup_alter_ne by exact Hne. repeat split; assumption.
Qed.

Lemma checkSoftClose_single_winner (db : DB) (l : Lot) (t k : Z) :
  single_winner db k = true -> single_winner (checkSoftClose db l t) k = true.
Proof.
  unfold single_winner, winners. rewrite checkSoftClose_bids.
  destruct (lots db !! k) as [l1|] eqn:Hk.
  - destruct (checkSoftClose_lot db l t k l1 Hk) as (l2 & -> & Hb & Hc & _).
    unfold winner_ok. rewrite Hb, Hc. auto.
  - intros _.
    destruct (lots (checkSoftClose db l t) !! k) as [l2|] eqn:Hk2; [|reflexivity].
    exfalso. revert Hk2. unfold checkSoftClose.
    destruct (negb (truthy (current_close_time l))); [congruence|].
    destruct (auctions db !! auction_id l) as [a|]; [|congruence].
    destruct (negb (soft_close_enabled a)); [congruence|].
    destruct (_ <=? _); [|congruence].
    cbn [lots]. rewrite lookup_alter. destruct (decide (lot_id l = k)) as [<-|];
      rewrite ?Hk; discriminate.
Qed.

(** X3.  If the lot's winning rows agree with the lot before a [placeBid] call
    (at most one winning row, held by the lot's current bidder at the lot's
    current bid), they do so after it, whatever the outcome; and after
    [BID_SUCCESS] the lot has exactly one winning row: the caller's, at the
    lot's new [current_bid], the caller being the new [current_bidder_id]. *)
Theorem placeBid_keeps_single_winner (db : DB) (lotId bidderId amount : Z)
    (maxBid : option Z) (metadata : option Metadata) (t : Z) :
  (forall l, lots db !! lotId = Some l -> lot_id l = lotId) ->
  bidderId <> 0 ->
  single_winner db lotId = true ->
  let r := fst (placeBid db lotId bidderId amount maxBid metadata t) in
  let db' := snd (placeBid db lotId bidderId amount maxBid metadata t) in
  single_winner db' lotId = true /\
  (code r = BID_SUCCESS ->
   exists row final n,
     winners db' lotId = [row] /\
     bidder_id row = Some bidderId /\
     Engine.amount row = final /\
     bidding_snapshot db' lotId = Some (final, Some bidderId, n)).
Proof.
  intros Hwf Hb0 Hinv r db'. subst r db'.
  destruct (placeBid_shape db lotId bidderId amount maxBid metadata t Hwf)
    as [(-> & _ & Hc) | (l & db1 & Hl & _ & _ & Hself & Hout & ->)].
  - split; [exact Hinv | intros E; contradiction].
  - specialize (Hwf l Hl). subst lotId.
    destruct (outcome_single_winner _ _ _ _ _ _ _ _ _ Hl Hb0 Hself Hinv Hout)
      as (Hinv1 & Hsucc).
    split; [apply checkSoftClose_single_winner, Hinv1|].
    intros Hc. destruct (Hsucc Hc) as (row & l1 & Hw & Hl1 & Hrb & Hra & Hcur).
    destruct (checkSoftClose_lot db1 l t (lot_id l) l1 Hl1)
      as (l2 & Hl2 & Hb2 & Hc2 & _).
    exists row, (current_bid l1), (bid_count l2). split.
    + unfold winners in *. rewrite checkSoftClose_bids. exact Hw.
    + split; [exact Hrb|]. split; [exact Hra|].
      unfold bidding_snapshot. rewrite Hl2. cbn. rewrite Hb2, Hc2, Hcur. reflexivity.
Qed.

Lemma placeBid_keeps_single_winner_witness :
  let db := two_lot_store in
  let r := fst (placeBid db 1 2 60 (Some 300) None 2000) in
  let db' := snd (placeBid db 1 2 60 (Some 300) None 2000) in
  ((forall l, lots db !! 1 = Some l -> lot_id l = 1) /\
   2 <> 0 /\
   single_winner db 1 = true) /\
  (single_winner db' 1 = true /\
   (code r = BID_SUCCESS ->
    exists row final n,
      winners db' 1 = [row] /\
      bidder_id row = Some 2 /\
      Engine.amount row = final /\
      bidding_snapshot db' 1 = Some (final, Some 2, n))).
Proof.
  intros db r db'.
  assert (Hwf : forall l, lots db !! 1 = Some l -> lot_id l = 1).
  { intros l Hl. vm_compute in Hl. injection Hl as <-. reflexivity. }
  assert (H2 : 2 <> 0) by lia.
  split; [split; [exact Hwf | split; [exact H2 | reflexivity]]|].
  exact (placeBid_keeps_single_winner db 1 2 60 (Some 300) None 2000 Hwf H2 eq_refl).
Defined.

(** *** A successful bid raises the current bid *)




(** At [2^53] it does not: the minimum next bid is the current bid. *)
Lemma getMinimumNextBid_at_max_safe :
  getMinimumNextBid max_safe default_increment_rules = max_safe + 24 /\
  getMinimumNextBid max_safe [ mkRule 0 Null 1 ] = max_safe.
Proof. split; reflexivity. Qed.

(** The lot row after each outcome. *)
Lemma outcome_lot (db : DB) (l : Lot) (bidderId amount : Z)
    (maxBid : option Z) (metadata : option Metadata) (t : Z)
    (c : ResultCode) (db1 : DB) :
  lots db !! lot_id l = Some l ->
  BidOutcome db l bidderId amount maxBid metadata t c db1 ->
  (c <> BID_SUCCESS /\ db1 = db) \/
  (c = BID_SUCCESS /\
   exists final n,
     lots db1 !! lot_id l = Some (set_lot_bid final (Some bidderId) n t l) /\
     1 <= n /\
     (final = amount \/
      exists h m, incumbent_max db (lot_id l) l = Some h /\ maxBid = Some m /\
                  m <> 0 /\ h < m /\
                  final = Z.min m (js_add h (calculateBidIncrement (current_bid l)
                                               (getIncrementRules db l))))).
Proof.
  intros Hl [Hh | Hh | Hh | h m Hh Hh0 Hm Hm0 Hlt].
  - left. split; [discriminate | reflexivity].
  - left. split; [discriminate | reflexivity].
  - right. split; [reflexivity|]. exists amount, 1.
    rewrite committed_simple_lots, lookup_alter_eq, Hl.
    split; [reflexivity|]. split; [lia | left; reflexivity].
  - right. split; [reflexivity|]. eexists _, 2.
    destruct (committed_overtake db l bidderId maxBid h
                (Z.min m (js_add h (calculateBidIncrement (current_bid l)
                                    (getIncrementRules db l)))) metadata t)
      as (Hlots & _). cbn zeta in Hlots.
    rewrite Hlots, lookup_alter_eq, Hl.
    split; [reflexivity|]. split; [lia|]. right. exists h, m. auto.
Qed.



(** *** The soft-close check looks at the clock, not at the outcome *)

Lemma outcome_lot_times (db : DB) (l : Lot) (bidderId amount : Z)
    (maxBid : option Z) (metadata : option Metadata) (t : Z)
    (c : ResultCode) (db1 : DB) :
  lots db !! lot_id l = Some l ->
  BidOutcome db l bidderId amount maxBid metadata t c db1 ->
  exists l1,
    lots db1 !! lot_id l = Some l1 /\
    original_close_time l1 = original_close_time l /\
    current_close_time l1 = current_close_time l /\
    extension_count l1 = extension_count l /\
    reserve_price l1 = reserve_price l /\
    status l1 = status l.
Proof.
  intros Hl Hout.
  destruct (outcome_lot _ _ _ _ _ _ _ _ _ Hl Hout)
    as [[_ ->] | (_ & final & n & Hl1 & _)].
  - exists l. repeat split; assumption || reflexivity.
  - eexists. split; [exact Hl1|]. repeat split; reflexivity.
Qed.

(** A call that passes the five checks either fails in its batch, because
    a row the batch refers to is missing, and hands the store back; or it
    ends in one of the outcomes, followed by the soft-close check on the lot
    as it was read. *)
Lemma placeBid_passes (db : DB) (lotId bidderId amount : Z) (maxBid : option Z)
    (metadata : option Metadata) (t : Z) (l : Lot) :
  lots db !! lotId = Some l ->
  lot_id l = lotId ->
  reaches_floor_check l amount maxBid t ->
  minimum_bid l (getIncrementRules db l) <= amount ->
  current_bidder_id l <> Some bidderId ->
  (placeBid db lotId bidderId amount maxBid metadata t = (error BID_FAILED, db) /\
   references_hold db l bidderId = false) \/
  (code (fst (placeBid db lotId bidderId amount maxBid metadata t)) <> BID_FAILED /\
   exists db1,
     BidOutcome db l bidderId amount maxBid metadata t
       (code (fst (placeBid db lotId bidderId amount maxBid metadata t))) db1 /\
     snd (placeBid db lotId bidderId amount maxBid metadata t) = checkSoftClose db1 l t).
Proof.
  intros Hl Hid Hpre Hge Hself.
  rewrite (placeBid_at_floor_check _ _ _ _ _ _ _ _ Hl Hpre). cbv zeta.
  destruct (amount <? _) eqn:E; [lia|].
  rewrite bool_decide_eq_false_2 by exact Hself.
  fold (incumbent_max db lotId l).
  unfold executeBidTransaction, commit.
  destruct (truthy (incumbent_max db lotId l)) eqn:EH; cbn [negb].
  - assert (Hcur : truthy (current_bidder_id l) = true).
    { unfold incumbent_max in EH.
      destruct (truthy (current_bidder_id l)); [reflexivity | discriminate EH]. }
    destruct (truthy maxBid && (val (incumbent_max db lotId l) <? val maxBid)) eqn:Eo.
    + rewrite transaction_committed, (overtake_queries_accepted _ _ _ _ _ _ _ _ Hcur).
      destruct (references_hold db l bidderId); [right | left; split; reflexivity].
      apply andb_true_iff in Eo as [Em Elt].
      apply truthy_Some in Em as (m & -> & Hm0).
      apply truthy_Some in EH as (h & Hh & Hh0).
      rewrite Hh in *. cbn [val] in *.
      split; [cbn; discriminate|].
      eexists. split; [|reflexivity]. cbn [fst snd code].
      apply (OutcomeOvertake db l bidderId amount (Some m) metadata t h m);
        [rewrite Hid; exact Hh | exact Hh0 | reflexivity | exact Hm0 | lia].
    + right.
      destruct (truthy maxBid && (val maxBid =? val (incumbent_max db lotId l)));
        (split; [cbn; discriminate|]);
        exists db; (split; [|reflexivity]); cbn [fst snd code];
        [apply OutcomeTied | apply OutcomeDefended]; rewrite Hid; exact EH.
  - rewrite transaction_committed, simple_bid_queries_accepted.
    destruct (references_hold db l bidderId); [right | left; split; reflexivity].
    split; [cbn; discriminate|].
    eexists. split; [|reflexivity].
    cbn [fst snd code]. apply OutcomePlain. rewrite Hid. exact EH.
Qed.

(** X9.  A call that passes the five checks of [placeBid] answers
    [BID_FAILED] only when a row its batch refers to is missing (the
    lot's auction, the bidder, the current high bidder); the store is then
    handed back and no soft close takes place.  Every other such call runs
    the soft-close check on the lot as it was read, whatever the result
    code, also when the bid was rejected as tied or answered by the proxy:
    with soft close enabled and at most [trigger] minutes left, the close
    time becomes the time of the call plus the extension and
    [extension_count] grows by one; otherwise the close time and
    [extension_count] stay. *)
Theorem placeBid_soft_close_by_timing (db : DB) (lotId bidderId amount : Z)
    (maxBid : option Z) (metadata : option Metadata) (t : Z)
    (l : Lot) (a : Auction) (close : Z) :
  lots db !! lotId = Some l ->
  lot_id l = lotId ->
  reaches_floor_check l amount maxBid t ->
  minimum_bid l (getIncrementRules db l) <= amount ->
  current_bidder_id l <> Some bidderId ->
  auctions db !! auction_id l = Some a ->
  current_close_time l = Some close ->
  close <> 0 ->
  let r := fst (placeBid db lotId bidderId amount maxBid metadata t) in
  let db' := snd (placeBid db lotId bidderId amount maxBid metadata t) in
  (code r = BID_FAILED -> db' = db /\ references_hold db l bidderId = false) /\
  (references_hold db l bidderId = true -> code r <> BID_FAILED) /\
  (code r <> BID_FAILED ->
   (soft_close_enabled a = true ->
    close - t <= soft_close_trigger_minutes a * 60 ->
    close_times db' lotId =
      Some (original_close_time l, Some (t + soft_close_extension_minutes a * 60)) /\
    (extension_count <$> lots db' !! lotId) = Some (extension_count l + 1)) /\
   (soft_close_enabled a = false \/ soft_close_trigger_minutes a * 60 < close - t ->
    close_times db' lotId = Some (original_close_time l, Some close) /\
    (extension_count <$> lots db' !! lotId) = Some (extension_count l))).
Proof.
  intros Hl Hid Hpre Hge Hself Ha Hclose Hc0 r db'. subst r db'.
  destruct (placeBid_passes db lotId bidderId amount maxBid metadata t l
              Hl Hid Hpre Hge Hself) as [[-> Href] | (Hok & db1 & Hout & ->)].
  { cbn [fst snd code]. split; [intros _; split; [reflexivity | exact Href]|].
    split; [rewrite Href; discriminate | intros Hne; contradiction]. }
  split; [intros Hf; contradiction|].
  split; [intros _; exact Hok|]. intros _.
  subst lotId.
  destruct (outcome_touches_one_lot _ _ _ _ _ _ _ _ _ Hout) as (Hauc & _).
  destruct (outcome_lot_times _ _ _ _ _ _ _ _ _ Hl Hout)
    as (l1 & Hl1 & Ho & Hcc & He & _).
  unfold checkSoftClose, close_times.
  rewrite Hclose, (truthy_nonzero _ Hc0), Hauc, Ha. cbn [negb val].
  split.
  - intros Hen Hwin. rewrite Hen. cbn [negb].
    destruct (close - t <=? _) eqn:E; [|lia].
    cbn [lots]. rewrite lookup_alter_eq, Hl1. cbn. rewrite Ho, He. split; reflexivity.
  - intros [Hen | Hout'].
    + rewrite Hen. cbn [negb]. rewrite Hl1. cbn. rewrite Ho, Hcc, Hclose, He.
      split; reflexivity.
    + destruct (negb (soft_close_enabled a));
        [|destruct (close - t <=? _) eqn:E; [lia|]];
        rewrite Hl1; cbn; rewrite Ho, Hcc, Hclose, He; split; reflexivity.
Qed.

(** Scenario 4 of the specification four minutes before the close: user 4's
    tied bid is rejected and yet the lot's close time moves to the time of
    the call plus five minutes. *)
Lemma placeBid_soft_close_by_timing_witness :
  let db := Scenarios.db_proxy in
  let r := fst (placeBid db 1 4 100 (Some 200) None 99760) in
  let db' := snd (placeBid db 1 4 100 (Some 200) None 99760) in
  (lots db !! 1 = Some proxy_lot /\
   lot_id proxy_lot = 1 /\
   reaches_floor_check proxy_lot 100 (Some 200) 99760 /\
   minimum_bid proxy_lot (getIncrementRules db proxy_lot) <= 100 /\
   current_bidder_id proxy_lot <> Some 4 /\
   auctions db !! auction_id proxy_lot = Some Scenarios.auction_flat10 /\
   current_close_time proxy_lot = Some 100000 /\
   100000 <> 0) /\
  code r = MAX_BID_TIED /\
  (code r = BID_FAILED -> db' = db /\ references_hold db proxy_lot 4 = false) /\
  (references_hold db proxy_lot 4 = true -> code r <> BID_FAILED) /\
  (code r <> BID_FAILED ->
   (soft_close_enabled Scenarios.auction_flat10 = true ->
    100000 - 99760 <= soft_close_trigger_minutes Scenarios.auction_flat10 * 60 ->
    close_times db' 1 = Some (Some 100000, Some (99760 + 5 * 60)) /\
    (extension_count <$> lots db' !! 1) = Some (0 + 1)) /\
   (soft_close_enabled Scenarios.auction_flat10 = false \/
    soft_close_trigger_minutes Scenarios.auction_flat10 * 60 < 100000 - 99760 ->
    close_times db' 1 = Some (Some 100000, Some 100000) /\
    (extension_count <$> lots db' !! 1) = Some 0)).
Proof.
  intros db r db'.
  assert (Hpre : reaches_floor_check proxy_lot 100 (Some 200) 99760).
  { unfold reaches_floor_check. split; [reflexivity|].
    split; [intros _; simpl; lia|].
    split; [reflexivity | intros _; reflexivity]. }
  assert (Hge : minimum_bid proxy_lot (getIncrementRules db proxy_lot) <= 100)
    by (vm_compute; discriminate).
  assert (Hself : current_bidder_id proxy_lot <> Some 4) by discriminate.
  assert (Hc0 : 100000 <> 0) by lia.
  split.
  - split; [reflexivity|]. split; [reflexivity|]. split; [exact Hpre|].
    split; [exact Hge|]. split; [exact Hself|]. split; [reflexivity|].
    split; [reflexivity | exact Hc0].
  - split; [reflexivity|].
    exact (placeBid_soft_close_by_timing db 1 4 100 (Some 200) None 99760
             proxy_lot Scenarios.auction_flat10 100000
             eq_refl eq_refl Hpre Hge Hself eq_refl eq_refl Hc0).
Defined.

(** A first bid by an id that is not in [users], one minute before the
    close: the batch throws, the call answers [BID_FAILED], and the close
    time stays. *)
Lemma placeBid_failed_bid_extends_nothing :
  let db := Scenarios.db_short_extension in
  placeBid db 1 99 100 None None 9940 = (error BID_FAILED, db) /\
  references_hold db (Scenarios.fresh_lot 1 100 None 10000) 99 = false.
Proof. split; reflexivity. Qed.

(** *** Checks that stop a bid *)

(** X10.  On an active lot with a close time, a bid with a valid amount placed at
    the close time or later is rejected with [AUCTION_CLOSED] and the store
    is handed back; one placed before the close time is not rejected for
    that reason. *)
Theorem placeBid_close_time_boundary (db : DB) (lotId bidderId amount : Z)
    (maxBid : option Z) (metadata : option Metadata) (t : Z) (l : Lot) (close : Z) :
  lots db !! lotId = Some l ->
  status l = active ->
  0 < amount ->
  (truthy maxBid = true -> amount <= val maxBid) ->
  current_close_time l = Some close ->
  close <> 0 ->
  (close <= t ->
   placeBid db lotId bidderId amount maxBid metadata t = (error AUCTION_CLOSED, db)) /\
  (t < close ->
   code (fst (placeBid db lotId bidderId amount maxBid metadata t)) <> AUCTION_CLOSED).
Proof.
  intros Hl Hact Hamt Hmax Hclose Hc0. split; intros Ht.
  - unfold placeBid. rewrite Hl.
    destruct (amount <=? 0) eqn:E1; [lia|].
    destruct (truthy maxBid && (val maxBid <? amount)) eqn:E2.
    { apply andb_true_iff in E2 as [Em Elt]. specialize (Hmax Em). lia. }
    rewrite Hact, bool_decide_eq_true_2 by reflexivity. cbn [negb].
    rewrite Hclose, (truthy_nonzero _ Hc0). cbn [val andb].
    destruct (close <=? t) eqn:E3; [reflexivity | lia].
  - assert (Hpre : reaches_floor_check l amount maxBid t).
    { unfold reaches_floor_check. rewrite Hclose. cbn [val]. auto. }
    rewrite (placeBid_at_floor_check _ _ _ _ _ _ _ _ Hl Hpre). cbv zeta.
    destruct (amount <? _); [simpl; discriminate|].
    destruct (bool_decide _); [simpl; discriminate|].
    match goal with
    | |- context [executeBidTransaction ?a ?b ?c ?d ?e ?f ?g ?h ?i] =>
        pose proof (executeBidTransaction_code a b c d e f g h i) as Hc;
        destruct (executeBidTransaction a b c d e f g h i) as [[r db1]|]
    end; [|simpl; discriminate].
    specialize (Hc r db1 eq_refl).
    simpl in *. destruct Hc as [-> | [-> | ->]]; discriminate.
Qed.

Lemma placeBid_close_time_boundary_witness :
  let db := Scenarios.db_proxy in
  (lots db !! 1 = Some proxy_lot /\
   status proxy_lot = active /\
   0 < 60 /\
   (truthy None = true -> 60 <= val None) /\
   current_close_time proxy_lot = Some 100000 /\
   100000 <> 0) /\
  ((100000 <= 100000 ->
    placeBid db 1 2 60 None None 100000 = (error AUCTION_CLOSED, db)) /\
   (100000 < 100000 ->
    code (fst (placeBid db 1 2 60 None None 100000)) <> AUCTION_CLOSED)).
Proof.
  intros db.
  assert (H1 : 0 < 60) by lia.
  assert (H2 : truthy None = true -> 60 <= val None) by (intros H; discriminate H).
  assert (H3 : 100000 <> 0) by lia.
  split.
  - split; [reflexivity|]. split; [reflexivity|]. split; [exact H1|].
    split; [exact H2|]. split; [reflexivity | exact H3].
  - exact (placeBid_close_time_boundary db 1 2 60 None None 100000 proxy_lot 100000
             eq_refl eq_refl H1 H2 eq_refl H3).
Defined.

(** The lot's current high bidder cannot bid again, not even to raise the
    maximum: a bid of his that passes the earlier checks is rejected with
    [SELF_OUTBID] and the store is handed back. *)
Theorem placeBid_high_bidder_cannot_rebid (db : DB) (lotId bidderId amount : Z)
    (maxBid : option Z) (metadata : option Metadata) (t : Z) (l : Lot) :
  lots db !! lotId = Some l ->
  reaches_floor_check l amount maxBid t ->
  minimum_bid l (getIncrementRules db l) <= amount ->
  current_bidder_id l = Some bidderId ->
  placeBid db lotId bidderId amount maxBid metadata t = (error SELF_OUTBID, db).
Proof.
  intros Hl Hpre Hge Hcur.
  rewrite (placeBid_at_floor_check _ _ _ _ _ _ _ _ Hl Hpre). cbv zeta.
  destruct (amount <? _) eqn:E; [lia|].
  rewrite bool_decide_eq_true_2 by exact Hcur. reflexivity.
Qed.

Lemma placeBid_high_bidder_cannot_rebid_witness :
  let db := Scenarios.db_proxy in
  (lots db !! 1 = Some proxy_lot /\
   reaches_floor_check proxy_lot 70 (Some 500) 2000 /\
   minimum_bid proxy_lot (getIncrementRules db proxy_lot) <= 70 /\
   current_bidder_id proxy_lot = Some 1) /\
  placeBid db 1 1 70 (Some 500) None 2000 = (error SELF_OUTBID, db).
Proof.
  intros db.
  assert (Hpre : reaches_floor_check proxy_lot 70 (Some 500) 2000).
  { unfold reaches_floor_check. split; [reflexivity|].
    split; [intros _; simpl; lia|].
    split; [reflexivity | intros _; reflexivity]. }
  assert (Hge : minimum_bid proxy_lot (getIncrementRules db proxy_lot) <= 70)
    by (vm_compute; discriminate).
  split.
  - split; [reflexivity|]. split; [exact Hpre|]. split; [exact Hge | reflexivity].
  - exact (placeBid_high_bidder_cannot_rebid db 1 1 70 (Some 500) None 2000 proxy_lot
             eq_refl Hpre Hge eq_refl).
Defined.

(** *** Closing a lot *)

Lemma closeLot_lot (db : DB) (lotId t : Z) (l : Lot) :
  lots db !! lotId = Some l ->
  lots (closeLot db lotId t) !! lotId = Some (set_closed (final_status l) t l).
Proof.
  intros Hl. unfold closeLot. rewrite Hl. cbn [lots].
  rewrite lookup_alter_eq, Hl. reflexivity.
Qed.

(** X12.  After [closeLot] no bid can be placed on the lot any more: every later
    [placeBid] call with a valid amount is rejected with [LOT_NOT_ACTIVE]
    and changes nothing. *)
Theorem closeLot_then_placeBid (db : DB) (lotId t1 : Z) (l : Lot)
    (bidderId amount : Z) (maxBid : option Z) (metadata : option Metadata) (t2 : Z) :
  lots db !! lotId = Some l ->
  0 < amount ->
  (truthy maxBid = true -> amount <= val maxBid) ->
  placeBid (closeLot db lotId t1) lotId bidderId amount maxBid metadata t2 =
    (error LOT_NOT_ACTIVE, closeLot db lotId t1).
Proof.
  intros Hl Hamt Hmax. unfold placeBid.
  destruct (amount <=? 0) eqn:E1; [lia|].
  destruct (truthy maxBid && (val maxBid <? amount)) eqn:E2.
  { apply andb_true_iff in E2 as [Em Elt]. specialize (Hmax Em). lia. }
  rewrite (closeLot_lot _ _ _ _ Hl). cbn [set_closed status].
  rewrite bool_decide_eq_false_2; [reflexivity|].
  unfold final_status. destruct (truthy (reserve_price l) && negb (reserve_met l));
    discriminate.
Qed.

Lemma closeLot_then_placeBid_witness :
  let db := Scenarios.db_proxy in
  (lots db !! 1 = Some proxy_lot /\
   0 < 500 /\
   (truthy None = true -> 500 <= val None)) /\
  placeBid (closeLot db 1 5000) 1 2 500 None None 5001 =
    (error LOT_NOT_ACTIVE, closeLot db 1 5000).
Proof.
  intros db.
  assert (H1 : 0 < 500) by lia.
  assert (H2 : truthy None = true -> 500 <= val None) by (intros H; discriminate H).
  split; [split; [reflexivity | split; [exact H1 | exact H2]]|].
  exact (closeLot_then_placeBid db 1 5000 proxy_lot 2 500 None None 5001 eq_refl H1 H2).
Defined.

(** The two bid updates of [closeLot], on one row. *)
Lemma closeLot_bids (db : DB) (lotId t : Z) (l : Lot) :
  lots db !! lotId = Some l ->
  bids (closeLot db lotId t) =
  map (fun b =>
         let b1 := if truthy (current_bidder_id l) && bool_decide (final_status l = sold)
                   then (if winning_row lotId (current_bidder_id l) b
                         then set_bid_status bs_won b else b)
                   else b in
         if losing_row lotId b1 then set_bid_status bs_lost b1 else b1)
      (bids db).
Proof.
  intros Hl. unfold closeLot. rewrite Hl. cbn [bids].
  destruct (truthy (current_bidder_id l) && bool_decide (final_status l = sold)).
  - rewrite map_map. reflexivity.
  - reflexivity.
Qed.

Lemma closeLot_row (lotId : Z) (cur : option Z) (sell : bool) (b : Bid) :
  let b1 := if sell
            then (if winning_row lotId cur b then set_bid_status bs_won b else b)
            else b in
  let b2 := if losing_row lotId b1 then set_bid_status bs_lost b1 else b1 in
  bid_identity b2 = bid_identity b /\
  is_winning b2 = is_winning b /\
  (bid_lot_id b <> lotId -> b2 = b) /\
  (bid_lot_id b = lotId ->
   bid_status b2 = bs_won \/ bid_status b2 = bs_lost \/ bid_status b2 = bs_cancelled) /\
  (sell = false -> bid_lot_id b = lotId ->
   bid_status b <> bs_won -> bid_status b <> bs_cancelled ->
   b2 = set_bid_status bs_lost b) /\
  (sell = true -> winning_row lotId cur b = true -> b2 = set_bid_status bs_won b).
Proof.
  cbn zeta. unfold losing_row, winning_row, outbid_target.
  destruct (bid_lot_id b =? lotId) eqn:El.
  - assert (Hlot : bid_lot_id b = lotId) by lia.
    destruct sell.
    + destruct (true && _ && is_winning b) eqn:Ew;
        cbn [set_bid_status bid_lot_id bid_status andb negb];
        rewrite ?El; cbn [andb negb].
      * rewrite bool_decide_eq_true_2 by reflexivity. cbn [negb andb].
        repeat split; auto; try congruence.
      * destruct (bool_decide (bid_status b = bs_won)) eqn:E1;
          [apply bool_decide_eq_true in E1|];
          cbn [negb andb];
          [repeat split; auto; congruence|].
        destruct (bool_decide (bid_status b = bs_cancelled)) eqn:E2;
          [apply bool_decide_eq_true in E2|];
          cbn [negb andb set_bid_status bid_status];
          repeat split; auto; congruence.
    + rewrite El. cbn [andb].
      destruct (bool_decide (bid_status b = bs_won)) eqn:E1;
        [apply bool_decide_eq_true in E1|];
        cbn [negb andb];
        [repeat split; auto; congruence|].
      destruct (bool_decide (bid_status b = bs_cancelled)) eqn:E2;
        [apply bool_decide_eq_true in E2|];
        cbn [negb andb set_bid_status bid_status];
        repeat split; auto; congruence.
  - assert (Hlot : bid_lot_id b <> lotId) by lia.
    cbn [andb]. destruct sell; rewrite El; cbn [andb];
      repeat split; auto; try congruence; discriminate.
Qed.

Lemma filter_map_elsewhere (g : Bid -> Bid) (lotId : Z) (bs : list Bid) :
  (forall b, bid_lot_id (g b) = bid_lot_id b) ->
  (forall b, bid_lot_id b <> lotId -> g b = b) ->
  List.filter (fun b => negb (bid_lot_id b =? lotId)) (map g bs) =
  List.filter (fun b => negb (bid_lot_id b =? lotId)) bs.
Proof.
  intros Hlot Hother. induction bs as [|b rest IH]; [reflexivity|].
  simpl. rewrite IH, Hlot.
  destruct (bid_lot_id b =? lotId) eqn:El; [reflexivity|].
  simpl. rewrite Hother by lia. reflexivity.
Qed.

(** X13.  [closeLot] settles the bids of the lot and touches no other: it adds and
    removes no row and changes only the status column; the rows of other
    lots are as before; every row of the lot ends as [won], [lost] or
    [cancelled]; when the lot closes [unsold] every row of the lot that was
    not already [won] or [cancelled] ends as [lost], the high bidder's too;
    when it closes [sold] the winning rows of the lot's current bidder end
    as [won]. *)
Theorem closeLot_settles_bids (db : DB) (lotId t : Z) (l : Lot) :
  lots db !! lotId = Some l ->
  let db' := closeLot db lotId t in
  map bid_identity (bids db') = map bid_identity (bids db) /\
  map is_winning (bids db') = map is_winning (bids db) /\
  bids_elsewhere db' lotId = bids_elsewhere db lotId /\
  Forall (fun b => bid_lot_id b = lotId ->
                   bid_status b = bs_won \/ bid_status b = bs_lost \/
                   bid_status b = bs_cancelled) (bids db') /\
  (final_status l = unsold ->
   forall b, In b (bids db) -> bid_lot_id b = lotId ->
             bid_status b <> bs_won -> bid_status b <> bs_cancelled ->
             In (set_bid_status bs_lost b) (bids db')) /\
  (final_status l = sold -> truthy (current_bidder_id l) = true ->
   forall b, In b (bids db) -> winning_row lotId (current_bidder_id l) b = true ->
             In (set_bid_status bs_won b) (bids db')).
Proof.
  intros Hl db'. subst db'. unfold bids_elsewhere. rewrite (closeLot_bids _ _ _ _ Hl).
  set (sell := truthy (current_bidder_id l) && bool_decide (final_status l = sold)).
  split.
  { rewrite map_map. apply map_ext. intros b.
    exact (proj1 (closeLot_row lotId (current_bidder_id l) sell b)). }
  split.
  { rewrite map_map. apply map_ext. intros b.
    exact (proj1 (proj2 (closeLot_row lotId (current_bidder_id l) sell b))). }
  split.
  { apply filter_map_elsewhere; intros b;
      destruct (closeLot_row lotId (current_bidder_id l) sell b)
        as (Hid & _ & Hother & _); cbn zeta in Hid, Hother.
    - unfold bid_identity in Hid. injection Hid as Hid _. exact Hid.
    - exact Hother. }
  split.
  { apply List.Forall_forall. intros b' Hb'. apply in_map_iff in Hb' as (b & <- & _).
    destruct (closeLot_row lotId (current_bidder_id l) sell b)
      as (Hid & _ & _ & Hst & _). cbn zeta in Hid, Hst.
    intros Hlot. apply Hst.
    unfold bid_identity in Hid. injection Hid as Hid _.
    cbv beta zeta in Hlot. rewrite <- Hid. exact Hlot. }
  split.
  - intros Hun b Hb Hlot Hw Hc.
    assert (Hsell : sell = false).
    { unfold sell. rewrite Hun. rewrite bool_decide_eq_false_2 by discriminate.
      apply andb_false_r. }
    apply in_map_iff. exists b. split; [|exact Hb].
    destruct (closeLot_row lotId (current_bidder_id l) sell b)
      as (_ & _ & _ & _ & Hlost & _). cbn zeta in Hlost. auto.
  - intros Hsold Hcur b Hb Hw.
    assert (Hsell : sell = true).
    { unfold sell. rewrite Hcur, Hsold. rewrite bool_decide_eq_true_2 by reflexivity.
      reflexivity. }
    apply in_map_iff. exists b. split; [|exact Hb].
    destruct (closeLot_row lotId (current_bidder_id l) sell b)
      as (_ & _ & _ & _ & _ & Hwon). cbn zeta in Hwon. auto.
Qed.

Lemma closeLot_settles_bids_witness :
  let db := two_lot_store in
  let db' := closeLot db 1 5000 in
  lots db !! 1 = Some proxy_lot /\
  (map bid_identity (bids db') = map bid_identity (bids db) /\
   map is_winning (bids db') = map is_winning (bids db) /\
   bids_elsewhere db' 1 = bids_elsewhere db 1 /\
   Forall (fun b => bid_lot_id b = 1 ->
                    bid_status b = bs_won \/ bid_status b = bs_lost \/
                    bid_status b = bs_cancelled) (bids db') /\
   (final_status proxy_lot = unsold ->
    forall b, In b (bids db) -> bid_lot_id b = 1 ->
              bid_status b <> bs_won -> bid_status b <> bs_cancelled ->
              In (set_bid_status bs_lost b) (bids db')) /\
   (final_status proxy_lot = sold -> truthy (current_bidder_id proxy_lot) = true ->
    forall b, In b (bids db) -> winning_row 1 (current_bidder_id proxy_lot) b = true ->
              In (set_bid_status bs_won b) (bids db'))).
Proof.
  intros db db'. split; [reflexivity|].
  exact (closeLot_settles_bids db 1 5000 proxy_lot eq_refl).
Defined.

(** X14.  [closeLot] changes the lot's status and closing time and nothing else of
    the lots: the [auctions] table, every other lot, and this lot's bidding
    snapshot and close times are as before.  On a lot id that does not
    exist it does nothing; on one that exists, whatever its status, it
    appends exactly one [lot_closed] event carrying the lot's current bid,
    its current bidder and the status written. *)
Theorem closeLot_changes_status_only (db : DB) (lotId t : Z) :
  let db' := closeLot db lotId t in
  auctions db' = auctions db /\
  (forall k, k <> lotId -> lots db' !! k = lots db !! k) /\
  bidding_snapshot db' lotId = bidding_snapshot db lotId /\
  close_times db' lotId = close_times db lotId /\
  (lots db !! lotId = None -> db' = db) /\
  (forall l, lots db !! lotId = Some l ->
     closing_state db' lotId = Some (final_status l, Some t) /\
     bid_audit_log db' =
       bid_audit_log db ++
       [ mkAudit lot_closed (lot_id l) (auction_id l) (current_bidder_id l) None
           (Some (current_bid l)) (status_text (final_status l)) None None ]).
Proof.
  cbn zeta. unfold closeLot, bidding_snapshot, close_times, closing_state.
  destruct (lots db !! lotId) as [l|] eqn:Hl.
  - cbn [lots auctions bid_audit_log].
    split; [reflexivity|].
    split; [intros k Hk; apply lookup_alter_ne; congruence|].
    rewrite lookup_alter_eq, Hl.
    split; [reflexivity|]. split; [reflexivity|].
    split; [discriminate|].
    intros l0 [= <-]. split; reflexivity.
  - rewrite Hl.
    split; [reflexivity|]. split; [reflexivity|]. split; [reflexivity|].
    split; [reflexivity|]. split; [reflexivity|].
    intros l0 E; discriminate E.
Qed.

(** *** The reserve flag *)

(** X8.  [reserve_met] never goes back to false under [placeBid], the reserve
    price itself is never changed, and after [BID_SUCCESS] on a lot with a
    reserve price the flag is set as soon as the new current bid reaches the
    reserve. *)
Theorem placeBid_reserve_met (db : DB) (lotId bidderId amount : Z)
    (maxBid : option Z) (metadata : option Metadata) (t : Z) (l : Lot) :
  lots db !! lotId = Some l ->
  lot_id l = lotId ->
  let r := fst (placeBid db lotId bidderId amount maxBid metadata t) in
  let db' := snd (placeBid db lotId bidderId amount maxBid metadata t) in
  exists l',
    lots db' !! lotId = Some l' /\
    reserve_price l' = reserve_price l /\
    (reserve_met l = true -> reserve_met l' = true) /\
    (code r = BID_SUCCESS ->
     forall p, reserve_price l = Some p ->
       reserve_met l' = (p <=? current_bid l') || reserve_met l).
Proof.
  intros Hl Hid r db'. subst r db'.
  assert (Hwf : forall l0, lots db !! lotId = Some l0 -> lot_id l0 = lotId)
    by (intros l0 Hl0; congruence).
  destruct (placeBid_shape db lotId bidderId amount maxBid metadata t Hwf)
    as [(-> & _ & Hne) | (l0 & db1 & Hl0 & _ & _ & _ & Hout & ->)].
  - exists l. split; [exact Hl|]. split; [reflexivity|]. split; [auto|].
    intros E; contradiction.
  - assert (l0 = l) by congruence. subst l0. subst lotId.
    destruct (outcome_lot _ _ _ _ _ _ _ _ _ Hl Hout)
      as [[Hne ->] | (Hc & final & n & Hl1 & _)].
    + destruct (checkSoftClose_lot db l t (lot_id l) l Hl)
        as (l2 & Hl2 & _ & _ & _ & Hm & Hp & _).
      exists l2. split; [exact Hl2|]. split; [exact Hp|].
      split; [intros E; congruence | intros E; contradiction].
    + destruct (checkSoftClose_lot db1 l t (lot_id l) _ Hl1)
        as (l2 & Hl2 & Hb & _ & _ & Hm & Hp & _).
      exists l2. split; [exact Hl2|].
      cbn [set_lot_bid reserve_price reserve_met current_bid] in Hb, Hm, Hp.
      split; [exact Hp|]. split.
      * intros E. rewrite Hm, E. destruct (reserve_price l) as [p|]; [|reflexivity].
        destruct (p <=? final); reflexivity.
      * intros _ p Hrp. rewrite Hm, Hb, Hrp.
        destruct (p <=? final); reflexivity.
Qed.

(** A lot with a reserve of 150 on which user 1 opens at 100 and user 2 then
    bids 160. *)
Lemma placeBid_reserve_met_witness :
  let db := reserve_store in
  let l := Scenarios.fresh_lot 1 100 (Some 150) 100000 in
  let l1 := set_lot_bid 100 (Some 1) 1 1000 l in
  let db1 := snd (placeBid db 1 1 100 None None 1000) in
  let r := fst (placeBid db1 1 2 160 None None 2000) in
  let db' := snd (placeBid db1 1 2 160 None None 2000) in
  (lots db1 !! 1 = Some l1 /\ lot_id l1 = 1) /\
  code r = BID_SUCCESS /\
  reserve_met l1 = false /\
  (exists l',
     lots db' !! 1 = Some l' /\
     reserve_price l' = reserve_price l1 /\
     (reserve_met l1 = true -> reserve_met l' = true) /\
     (code r = BID_SUCCESS ->
      forall p, reserve_price l1 = Some p ->
        reserve_met l' = (p <=? current_bid l') || reserve_met l1)).
Proof.
  intros db l l1 db1 r db'.
  split; [split; reflexivity|]. split; [reflexivity|]. split; [reflexivity|].
  exact (placeBid_reserve_met db1 1 2 160 None None 2000 l1 eq_refl eq_refl).
Defined.

(** *** The maximum a winner gave is the one defended later *)

Lemma getActiveMaxBid_last_rows (db : DB) (lotId bidderId : Z) (old : list Bid)
    (row : Bid) (after : list Bid) :
  bids db = old ++ row :: after ->
  active_max_row lotId bidderId row = true ->
  Forall (fun b => active_max_row lotId bidderId b = false) after ->
  getActiveMaxBid db lotId bidderId = or_null (max_bid row).
Proof.
  intros Hb Hrow Hafter. unfold getActiveMaxBid. rewrite Hb.
  rewrite rev_app_distr. cbn [rev]. rewrite <- app_assoc, List.filter_app.
  rewrite filter_none.
  - cbn [app List.filter]. rewrite Hrow. reflexivity.
  - intros b Hin. apply in_rev in Hin.
    rewrite List.Forall_forall in Hafter. apply Hafter, Hin.
Qed.

Lemma outbid_target_other_bidder (l : Lot) (bidderId : Z) (b : Bid) :
  current_bidder_id l <> Some bidderId ->
  bidder_id b = Some bidderId ->
  outbid_target (lot_id l) (current_bidder_id l) b = false.
Proof.
  intros Hne Hb. unfold outbid_target. rewrite Hb.
  destruct (current_bidder_id l) as [x|]; [|rewrite andb_false_r; reflexivity].
  destruct (x =? bidderId) eqn:E; [|rewrite andb_false_r; reflexivity].
  exfalso. apply Hne. f_equal. lia.
Qed.

(** X7.  After a [placeBid] call that answers [BID_SUCCESS] for a bid carrying a
    non-zero maximum [m], the active max bid the engine finds for the caller
    on that lot is [m]. *)
Theorem placeBid_success_records_max (db : DB) (lotId bidderId amount m : Z)
    (metadata : option Metadata) (t : Z) :
  (forall l, lots db !! lotId = Some l -> lot_id l = lotId) ->
  m <> 0 ->
  code (fst (placeBid db lotId bidderId amount (Some m) metadata t)) = BID_SUCCESS ->
  getActiveMaxBid (snd (placeBid db lotId bidderId amount (Some m) metadata t))
    lotId bidderId = Some m.
Proof.
  intros Hwf Hm0 Hc.
  assert (Htm : truthy (Some m) = true).
  { cbn [truthy]. apply negb_true_iff. lia. }
  destruct (placeBid_shape db lotId bidderId amount (Some m) metadata t Hwf)
    as [(_ & _ & Hne) | (l & db1 & Hl & Hpre & _ & Hself & Hout & Hdb)];
    [contradiction|].
  rewrite Hdb.
  rewrite (getActiveMaxBid_bids _ _ _ _ (checkSoftClose_bids _ _ _)).
  specialize (Hwf l Hl). subst lotId.
  revert Hout. rewrite Hc. intros Hout.
  inversion Hout as [ | | Hinc Hdb1 | h m' Hinc Hh0 Hmx Hm'0 Hlt Hdb1 ]; subst db1.
  - destruct (committed_simple db l bidderId amount (Some m) metadata t)
      as (_ & _ & Hb & _).
    set (new_row := new_bid_row l (Some bidderId) amount manual (or_null (Some m))
                      (truthy (Some m)) true (meta_ip metadata) (meta_ua metadata)
                      bs_winning) in *.
    assert (Hnew : active_max_row (lot_id l) bidderId new_row = true).
    { unfold active_max_row, new_row.
      cbn [bid_lot_id bidder_id is_max_bid_active new_bid_row].
      rewrite Htm, !Z.eqb_refl. reflexivity. }
    assert (Hmax : or_null (max_bid new_row) = Some m).
    { unfold new_row. cbn [max_bid new_bid_row]. unfold or_null at 2.
      rewrite Htm. unfold or_null. rewrite Htm. reflexivity. }
    transitivity (or_null (max_bid new_row)); [|exact Hmax].
    destruct (truthy (current_bidder_id l)).
    + rewrite map_app in Hb. cbn [map] in Hb. cbv beta in Hb.
      rewrite (outbid_target_other_bidder l bidderId new_row Hself eq_refl) in Hb.
      apply (getActiveMaxBid_last_rows _ _ _ _ new_row [] Hb Hnew). constructor.
    + apply (getActiveMaxBid_last_rows _ _ _ _ new_row [] Hb Hnew). constructor.
  - injection Hmx as <-.
    match goal with
    | |- getActiveMaxBid (committed db (overtake_queries l bidderId (Some m) h ?f metadata t)) _ _ = _ =>
        destruct (committed_overtake db l bidderId (Some m) h f metadata t)
          as (_ & _ & Hb & _);
        set (new_row := new_bid_row l (Some bidderId) f manual (Some m) true true
                          (meta_ip metadata) (meta_ua metadata) bs_winning) in *
    end.
    assert (Hnew : active_max_row (lot_id l) bidderId new_row = true).
    { unfold active_max_row, new_row.
      cbn [bid_lot_id bidder_id is_max_bid_active new_bid_row].
      rewrite !Z.eqb_refl. reflexivity. }
    assert (Hmax : or_null (max_bid new_row) = Some m).
    { unfold new_row. cbn [max_bid new_bid_row]. unfold or_null.
      rewrite Htm. reflexivity. }
    transitivity (or_null (max_bid new_row)); [|exact Hmax].
    rewrite map_app in Hb. cbn [map] in Hb. cbv beta in Hb.
    rewrite (outbid_target_other_bidder l bidderId new_row Hself eq_refl) in Hb.
    apply (getActiveMaxBid_last_rows _ _ _ _ new_row _ Hb Hnew).
    constructor; [|constructor].
    unfold active_max_row.
    destruct (outbid_target _ _ _);
      cbn [is_max_bid_active set_outbid new_bid_row]; apply andb_false_r.
Qed.

(** User 2 bids 60 with a maximum of 300 against user 1's maximum of 200. *)
Lemma placeBid_success_records_max_witness :
  ((forall l, lots Scenarios.db_proxy !! 1 = Some l -> lot_id l = 1) /\
   300 <> 0 /\
   code (fst (placeBid Scenarios.db_proxy 1 2 60 (Some 300) None 2000)) = BID_SUCCESS) /\
  getActiveMaxBid (snd (placeBid Scenarios.db_proxy 1 2 60 (Some 300) None 2000)) 1 2
    = Some 300.
Proof.
  assert (Hwf : forall l, lots Scenarios.db_proxy !! 1 = Some l -> lot_id l = 1).
  { intros l E. vm_compute in E. injection E as <-. reflexivity. }
  assert (Hm : 300 <> 0) by lia.
  split; [split; [exact Hwf | split; [exact Hm | reflexivity]]|].
  exact (placeBid_success_records_max Scenarios.db_proxy 1 2 60 300 None 2000
           Hwf Hm eq_refl).
Defined.

(** *** Where the increment rules come from *)



(** An override that does not parse is not replaced by the auction's rules
    nor by the built-in table: the rule list is empty and every step is 1,
    so the floor of a lot with a bid below [2^53] is its current bid
    plus 1. *)
Theorem unparsable_override_steps_by_one (db : DB) (l : Lot) :
  increment_override l = ColGarbage ->
  0 < current_bid l < max_safe ->
  getIncrementRules db l = [] /\
  minimum_bid l (getIncrementRules db l) = current_bid l + 1.
Proof.
  intros Ho Hc.
  assert (Hr : getIncrementRules db l = []).
  { unfold getIncrementRules. rewrite Ho. reflexivity. }
  split; [exact Hr|]. rewrite Hr. unfold minimum_bid.
  replace (0 <? current_bid l) with true by (symmetry; apply Z.ltb_lt; lia).
  apply getMinimumNextBid_no_tier; [constructor | lia].
Qed.

(** The lot stands at 700 in an auction with a flat step of 10. *)
Lemma unparsable_override_steps_by_one_witness :
  let db := mkDB Scenarios.bidders {[ 1 := garbled_override_lot ]}
                 {[ 1 := Scenarios.auction_flat10 ]} [] [] in
  (increment_override garbled_override_lot = ColGarbage /\
   0 < current_bid garbled_override_lot < max_safe) /\
  getIncrementRules db garbled_override_lot = [] /\
  minimum_bid garbled_override_lot (getIncrementRules db garbled_override_lot) = 701.
Proof.
  intros db.
  assert (H : 0 < current_bid garbled_override_lot < max_safe) by (split; reflexivity).
  split; [split; [reflexivity | exact H]|].
  exact (unparsable_override_steps_by_one db garbled_override_lot eq_refl H).
Defined.

(** *** Active maxima stay well formed *)

(** The store after user 1's opening bid with a maximum, bid on by user 2
    with a higher maximum. *)
Lemma placeBid_keeps_active_rows_ok_witness :
  ((forall l, lots Scenarios.db_proxy !! 1 = Some l -> lot_id l = 1) /\
   active_max_is_winning Scenarios.db_proxy = true /\
   active_max_has_amount Scenarios.db_proxy = true) /\
  active_max_is_winning
    (snd (placeBid Scenarios.db_proxy 1 2 60 (Some 300) None 2000)) = true /\
  active_max_has_amount
    (snd (placeBid Scenarios.db_proxy 1 2 60 (Some 300) None 2000)) = true.
Proof.
  assert (Hwf : forall l, lots Scenarios.db_proxy !! 1 = Some l -> lot_id l = 1).
  { intros l E. vm_compute in E. injection E as <-. reflexivity. }
  split; [split; [exact Hwf | split; reflexivity]|].
  exact (placeBid_keeps_active_rows_ok Scenarios.db_proxy 1 2 60 (Some 300) None 2000
           Hwf (conj eq_refl eq_refl)).
Defined.

End EngineMore.

(** ** The rate limiter *)

Module LimiterFacts.
Import Limiter.

Lemma nondecreasing_snoc (ts : list Z) (c : Z) :
  nondecreasing (ts ++ [c]) = true ->
  nondecreasing ts = true /\ (forall x, In x ts -> x <= c).
Proof.
  induction ts as [|a rest IH]; intros H.
  - split; [reflexivity | intros x []].
  - destruct rest as [|b rest'].
    + cbn in H. apply andb_true_iff in H as [Hab _].
      split; [reflexivity|]. intros x [<- | []]. lia.
    + change (((a <=? b) && nondecreasing ((b :: rest') ++ [c])) = true) in H.
      apply andb_true_iff in H as [Hab Hrest].
      destruct (IH Hrest) as [Hs Hle].
      split.
      * change (((a <=? b) && nondecreasing (b :: rest')) = true).
        rewrite Hs, andb_true_r. exact Hab.
      * intros x [<- | Hin]; [|apply Hle, Hin].
        specialize (Hle b (or_introl eq_refl)). lia.
Qed.

Lemma filter_filter_weaker {A : Type} (f g : A -> bool) (xs : list A) :
  (forall x, f x = true -> g x = true) ->
  List.filter f (List.filter g xs) = List.filter f xs.
Proof.
  intros H. induction xs as [|x rest IH]; cbn [List.filter]; [reflexivity|].
  destruct (g x) eqn:Eg; cbn [List.filter].
  - rewrite IH. reflexivity.
  - destruct (f x) eqn:Ef; [|exact IH].
    apply H in Ef. congruence.
Qed.

Lemma filter_length_mono {A : Type} (f g : A -> bool) (xs : list A) :
  (forall x, In x xs -> f x = true -> g x = true) ->
  (length (List.filter f xs) <= length (List.filter g xs))%nat.
Proof.
  induction xs as [|x rest IH]; intros H; cbn [List.filter]; [lia|].
  assert (IH' := IH (fun y Hy => H y (or_intror Hy))).
  destruct (f x) eqn:Ef.
  - rewrite (H x (or_introl eq_refl) Ef). cbn [length]. lia.
  - destruct (g x); cbn [length]; lia.
Qed.

Lemma granted_times_app (key : string) (g1 g2 : list (Z * string)) :
  granted_times key (g1 ++ g2) = granted_times key g1 ++ granted_times key g2.
Proof. unfold granted_times. rewrite List.filter_app, map_app. reflexivity. Qed.

Lemma granted_times_in (key : string) (g : list (Z * string)) (x : Z) :
  In x (granted_times key g) -> In (x, key) g.
Proof.
  unfold granted_times. intros H. apply in_map_iff in H as ([t k] & <- & Hin).
  apply List.filter_In in Hin as [Hin Hk].
  apply bool_decide_eq_true in Hk. cbn in Hk. subst k. exact Hin.
Qed.

Lemma replay_snoc (lim : RateLimiter) (calls : list (Z * string)) (c : Z * string) :
  replay lim (calls ++ [c]) = replay_step (replay lim calls) c.
Proof. unfold replay. rewrite fold_left_app. reflexivity. Qed.

Lemma replay_run_ok (mx w : Z) (calls : list (Z * string)) :
  0 <= mx ->
  nondecreasing (map fst calls) = true ->
  run_ok mx w calls (replay (new mx w) calls).
Proof.
  intros Hmx. induction calls as [|c calls IH] using rev_ind; intros Hs.
  - unfold run_ok, replay, granted_in_window, granted_times. cbn.
    split; [reflexivity|]. split; [reflexivity|]. split; [auto|].
    split; [reflexivity|]. intros _ _. lia.
  - rewrite map_app in Hs. cbn [map] in Hs.
    apply nondecreasing_snoc in Hs as [Hs Hle].
    specialize (IH Hs). rewrite replay_snoc.
    destruct (replay (new mx w) calls) as [lim g].
    destruct IH as (Hm & Hw & Hsub & Hinv & Hbound). cbn [fst snd] in *.
    destruct c as [now key].
    assert (Hnow : forall c, In c calls -> fst c <= now).
    { intros c Hc. apply Hle. apply in_map. exact Hc. }
    unfold replay_step, isAllowed. cbn [fst snd]. rewrite Hm, Hw.
    pose proof (Hinv key now Hnow) as Hrec.
    destruct (mx <=? Z.of_nat (length (List.filter (recent w now) (attempts_of lim key))))
      eqn:Efull.
    + (* denied: nothing moves *)
      unfold run_ok. cbn [fst snd].
      split; [exact Hm|]. split; [exact Hw|].
      split; [intros c Hc; apply in_or_app; left; apply Hsub, Hc|].
      split; [|exact Hbound].
      intros k now' Hall. apply Hinv. intros c Hc. apply Hall, in_or_app. left. exact Hc.
    + (* allowed *)
      apply Z.leb_gt in Efull.
      unfold run_ok. cbn [fst snd maxAttempts windowMs attempts].
      split; [reflexivity|]. split; [reflexivity|].
      split.
      { intros c Hc. apply in_app_or in Hc as [Hc | Hc]; apply in_or_app;
          [left; apply Hsub, Hc | right; exact Hc]. }
      split.
      { intros k now' Hall.
        assert (Hge : now <= now').
        { apply (Hall (now, key)). apply in_or_app. right. left. reflexivity. }
        assert (Hall' : forall c, In c calls -> fst c <= now').
        { intros c Hc. apply Hall, in_or_app. left. exact Hc. }
        rewrite granted_times_app.
        unfold attempts_of. cbn [attempts].
        destruct (decide (key = k)) as [-> | Hne].
        - rewrite lookup_insert_eq.
          rewrite !List.filter_app.
          rewrite filter_filter_weaker.
          2:{ intros x Hx. unfold recent in *. apply Z.ltb_lt in Hx. apply Z.ltb_lt. lia. }
          fold (attempts_of lim k). rewrite (Hinv k now' Hall').
          f_equal. unfold granted_times. cbn [List.filter snd].
          rewrite bool_decide_eq_true_2 by reflexivity. reflexivity.
        - rewrite lookup_insert_ne by exact Hne.
          fold (attempts_of lim k). rewrite (Hinv k now' Hall').
          unfold granted_times at 3. cbn [List.filter snd].
          rewrite bool_decide_eq_false_2 by exact Hne.
          cbn [map]. rewrite app_nil_r. reflexivity. }
      intros k T. unfold granted_in_window. rewrite granted_times_app.
      destruct (decide (key = k)) as [-> | Hne].
      * unfold granted_times at 2. cbn [List.filter snd].
        rewrite bool_decide_eq_true_2 by reflexivity. cbn [map fst].
        destruct (now <=? T) eqn:ET.
        -- apply Z.leb_le in ET.
           transitivity (Z.of_nat (length (List.filter (recent w now)
                                             (granted_times k g ++ [now])))).
           { apply inj_le. apply filter_length_mono.
             intros x Hx Hf. apply andb_true_iff in Hf as [_ Hf].
             unfold recent in *. apply Z.ltb_lt in Hf. apply Z.ltb_lt.
             apply in_app_or in Hx as [Hx | [<- | []]]; [|lia].
             apply granted_times_in in Hx. apply Hsub in Hx.
             specialize (Hnow _ Hx). cbn [fst] in Hnow. lia. }
           rewrite List.filter_app, length_app, <- Hrec.
           assert (length (List.filter (recent w now) [now]) <= 1)%nat.
           { cbn [List.filter]. destruct (recent w now now); cbn [length]; lia. }
           lia.
        -- rewrite List.filter_app. cbn [List.filter]. rewrite ET. cbn [andb].
           rewrite app_nil_r. apply (Hbound k T).
      * unfold granted_times at 2. cbn [List.filter snd].
        rewrite bool_decide_eq_false_2 by exact Hne.
        cbn [map]. rewrite app_nil_r. apply (Hbound k T).
Qed.

(** X16.  Over any run of [isAllowed] calls on a fresh limiter during which the
    clock does not go backwards, the calls answered [true] for one key
    within any window of [windowMs] milliseconds number at most
    [maxAttempts]. *)
Theorem isAllowed_window_bound (mx w : Z) (calls : list (Z * string))
    (key : string) (T : Z) :
  0 <= mx ->
  nondecreasing (map fst calls) = true ->
  Z.of_nat (length (granted_in_window w T key (snd (replay (new mx w) calls)))) <= mx.
Proof.
  intros Hmx Hs.
  destruct (replay_run_ok mx w calls Hmx Hs) as (_ & _ & _ & _ & Hb). apply Hb.
Qed.

(** Three calls for one key and one for another inside 5 ms, at most 2
    per 10 ms. *)
Lemma isAllowed_window_bound_witness :
  let calls := [ (0, "a"); (1, "a"); (3, "b"); (5, "a") ]%string in
  (0 <= 2 /\ nondecreasing (map fst calls) = true) /\
  snd (replay (new 2 10) calls) = [ (0, "a"); (1, "a"); (3, "b") ]%string /\
  Z.of_nat (length (granted_in_window 10 5 "a" (snd (replay (new 2 10) calls)))) <= 2.
Proof.
  intros calls.
  assert (H : 0 <= 2) by lia.
  split; [split; [exact H | reflexivity]|]. split; [reflexivity|].
  exact (isAllowed_window_bound 2 10 calls "a" 5 H eq_refl).
Defined.

(** X17.  After such a run the answer to the next call is decided by the count of
    granted calls of that key in the window ending now: [true] exactly when
    fewer than [maxAttempts] lie in it.  A call answered [false] leaves the
    limiter as it was, so a refused attempt does not prolong the refusal. *)
Theorem isAllowed_answer (mx w : Z) (calls : list (Z * string))
    (key : string) (now : Z) :
  0 <= mx ->
  nondecreasing (map fst (calls ++ [(now, key)])) = true ->
  let lim := fst (replay (new mx w) calls) in
  let granted := snd (replay (new mx w) calls) in
  fst (isAllowed lim now key) =
    (Z.of_nat (length (granted_in_window w now key granted)) <? mx) /\
  (fst (isAllowed lim now key) = false -> snd (isAllowed lim now key) = lim).
Proof.
  intros Hmx Hs lim granted. subst lim granted.
  rewrite map_app in Hs. cbn [map] in Hs.
  apply nondecreasing_snoc in Hs as [Hs Hle].
  destruct (replay_run_ok mx w calls Hmx Hs) as (Hm & Hw & Hsub & Hinv & _).
  destruct (replay (new mx w) calls) as [lim g]. cbn [fst snd] in *.
  assert (Hnow : forall c, In c calls -> fst c <= now).
  { intros c Hc. apply Hle. apply in_map. exact Hc. }
  assert (Hwin : granted_in_window w now key g =
                 List.filter (recent w now) (attempts_of lim key)).
  { rewrite (Hinv key now Hnow). unfold granted_in_window.
    apply filter_ext_in. intros x Hx.
    apply granted_times_in in Hx. apply Hsub in Hx.
    specialize (Hnow _ Hx). cbn [fst] in Hnow.
    replace (x <=? now) with true by (symmetry; apply Z.leb_le; exact Hnow).
    reflexivity. }
  unfold isAllowed. rewrite Hm, Hw, Hwin.
  destruct (mx <=? Z.of_nat (length (List.filter (recent w now) (attempts_of lim key))))
    eqn:E; cbn [fst snd].
  - split; [|reflexivity]. symmetry. apply Z.ltb_ge. apply Z.leb_le in E. exact E.
  - split; [|discriminate]. symmetry. apply Z.ltb_lt. apply Z.leb_gt in E. exact E.
Qed.

(** The third call of one key inside the window is refused. *)
Lemma isAllowed_answer_witness :
  let calls := [ (0, "a"); (1, "a"); (3, "b") ]%string in
  let lim := fst (replay (new 2 10) calls) in
  let granted := snd (replay (new 2 10) calls) in
  (0 <= 2 /\ nondecreasing (map fst (calls ++ [(5, "a"%string)])) = true) /\
  fst (isAllowed lim 5 "a") = false /\
  fst (isAllowed lim 5 "a") =
    (Z.of_nat (length (granted_in_window 10 5 "a" granted)) <? 2) /\
  (fst (isAllowed lim 5 "a") = false -> snd (isAllowed lim 5 "a") = lim).
Proof.
  intros calls lim granted.
  assert (H : 0 <= 2) by lia.
  split; [split; [exact H | reflexivity]|]. split; [reflexivity|].
  exact (isAllowed_answer 2 10 calls "a" 5 H eq_refl).
Defined.

(** X18.  [reset(key)] forgets the key: with a limit of at least one the next
    call for it is answered [true], and every other key is answered as it
    would have been without the reset. *)
Theorem reset_frees_one_key (lim : RateLimiter) (key other : string) (now : Z) :
  1 <= maxAttempts lim ->
  key <> other ->
  fst (isAllowed (reset lim key) now key) = true /\
  fst (isAllowed (reset lim key) now other) = fst (isAllowed lim now other) /\
  attempts_of (snd (isAllowed (reset lim key) now key)) key = [now].
Proof.
  intros Hmx Hne. unfold isAllowed, reset, attempts_of.
  cbn [attempts maxAttempts windowMs].
  rewrite lookup_delete_eq, (lookup_delete_ne _ _ _ Hne).
  cbn [List.filter length].
  replace (maxAttempts lim <=? Z.of_nat 0) with false
    by (symmetry; apply Z.leb_gt; lia).
  cbn [fst snd attempts]. rewrite lookup_insert_eq.
  split; [reflexivity|]. split; [|reflexivity].
  destruct (maxAttempts lim <=? _); reflexivity.
Qed.

(** The key ["a"] is full after two calls; after its reset it is served
    again. *)
Lemma reset_frees_one_key_witness :
  let lim := fst (replay (new 2 10) [ (0, "a"); (1, "a"); (3, "b") ]%string) in
  (1 <= maxAttempts lim /\ "a"%string <> "b"%string) /\
  fst (isAllowed lim 5 "a") = false /\
  fst (isAllowed (reset lim "a") 5 "a") = true /\
  fst (isAllowed (reset lim "a") 5 "b") = fst (isAllowed lim 5 "b") /\
  attempts_of (snd (isAllowed (reset lim "a") 5 "a")) "a" = [5].
Proof.
  intros lim.
  assert (H1 : 1 <= maxAttempts lim) by (vm_compute; discriminate).
  assert (H2 : "a"%string <> "b"%string) by discriminate.
  split; [split; [exact H1 | exact H2]|]. split; [reflexivity|].
  exact (reset_frees_one_key lim "a" "b" 5 H1 H2).
Defined.

End LimiterFacts.

(** ** The bidding route *)

Module BidRouteFacts.
Import Rules Engine Limiter BidRoute.

(** [success] is set on the [BID_SUCCESS] result only. *)
Lemma placeBid_success_code (db : DB) (lotId bidderId amount : Z)
    (maxBid : option Z) (metadata : option Metadata) (t : Z) :
  success (fst (placeBid db lotId bidderId amount maxBid metadata t)) =
  bool_decide (code (fst (placeBid db lotId bidderId amount maxBid metadata t)) = BID_SUCCESS).
Proof.
  unfold placeBid.
  destruct (amount <=? 0); [reflexivity|].
  destruct (truthy maxBid && _); [reflexivity|].
  destruct (lots db !! lotId) as [l|]; [|reflexivity].
  destruct (negb (bool_decide (status l = active))); [reflexivity|].
  destruct (truthy (current_close_time l) && _); [reflexivity|].
  destruct (amount <? _); [reflexivity|].
  destruct (bool_decide (current_bidder_id l = Some bidderId)); [reflexivity|].
  unfold executeBidTransaction, commit.
  destruct (negb (truthy _)); [destruct (transaction _ _); reflexivity|].
  destruct (truthy maxBid && _); [destruct (transaction _ _); reflexivity|].
  destruct (truthy maxBid && _); reflexivity.
Qed.

(** Past the two input checks the engine has no input error left to
    report. *)
Lemma placeBid_valid_input_code (db : DB) (lotId bidderId amount : Z)
    (maxBid : option Z) (metadata : option Metadata) (t : Z) :
  (amount <=? 0) = false ->
  truthy maxBid && (val maxBid <? amount) = false ->
  code (fst (placeBid db lotId bidderId amount maxBid metadata t)) <> INVALID_AMOUNT /\
  code (fst (placeBid db lotId bidderId amount maxBid metadata t)) <> INVALID_MAX_BID.
Proof.
  intros E1 E2. unfold placeBid. rewrite E1, E2. clear E1 E2.
  destruct (lots db !! lotId) as [l|]; [|split; cbn; discriminate].
  destruct (negb (bool_decide (status l = active))); [split; cbn; discriminate|].
  destruct (truthy (current_close_time l) && _); [split; cbn; discriminate|].
  destruct (amount <? _); [split; cbn; discriminate|].
  destruct (bool_decide (current_bidder_id l = Some bidderId)); [split; cbn; discriminate|].
  unfold executeBidTransaction, commit.
  destruct (negb (truthy _)); [destruct (transaction _ _); split; cbn; discriminate|].
  destruct (truthy maxBid && _); [destruct (transaction _ _); split; cbn; discriminate|].
  destruct (truthy maxBid && _); split; cbn; discriminate.
Qed.

(** *** The middleware *)

(** The three ways through the middleware: turned away by [authenticate]
    (401), turned away by [requireEmailVerified] (403), or handed to the
    handler as the user of the token. *)
Lemma post_bid_middleware (srv : Server) (cred : Credentials) (lotId : Z)
    (json : JsonBody) (cfIp xff ua : option string) (nowMs t : Z) :
  ((forall u, ~ active_user (store srv) cred u) /\
   exists message,
     post_bid srv cred lotId json cfIp xff ua nowMs t =
       (mkResponse 401 (ErrorBody message), srv)) \/
  (exists u,
     active_user (store srv) cred u /\ ~ verified_user (store srv) u /\
     post_bid srv cred lotId json cfIp xff ua nowMs t =
       (mkResponse 403 (ErrorBody "Email verification required"), srv)) \/
  (exists u,
     active_user (store srv) cred u /\ verified_user (store srv) u /\
     post_bid srv cred lotId json cfIp xff ua nowMs t =
       handler srv u lotId json cfIp xff ua nowMs t).
Proof.
  unfold post_bid, authenticate, active_user.
  destruct cred as [| |userId].
  - left. split; [intros u [E _]; discriminate E | eexists; reflexivity].
  - left. split; [intros u [E _]; discriminate E | eexists; reflexivity].
  - destruct (users (store srv) !! userId) as [user|] eqn:Hu.
    2:{ left. split; [|eexists; reflexivity].
        intros u [[= <-] (usr & Husr & _)]. congruence. }
    destruct (bool_decide (user_status user = us_active)) eqn:Eact.
    2:{ left. apply bool_decide_eq_false in Eact.
        split; [|eexists; reflexivity].
        intros u [[= <-] (usr & Husr & Hst)]. congruence. }
    apply bool_decide_eq_true in Eact.
    right. unfold requireEmailVerified, verified_user. rewrite Hu.
    destruct (email_verified user =? 0) eqn:Ev; cbn [negb].
    + left. exists userId.
      split; [split; [reflexivity | exists user; auto]|].
      split; [|reflexivity].
      intros (usr & Husr & Hne). assert (usr = user) by congruence. subst usr. lia.
    + right. exists userId.
      split; [split; [reflexivity | exists user; auto]|].
      split; [|reflexivity].
      exists user. split; [exact Hu | lia].
Qed.

(** *** The handler *)

Lemma isAllowed_last (lim lim' : RateLimiter) (nowMs : Z) (key : string) :
  isAllowed lim nowMs key = (true, lim') ->
  last (attempts_of lim' key) = Some nowMs.
Proof.
  unfold isAllowed.
  destruct (maxAttempts lim <=? _); [discriminate|].
  intros [= <-]. unfold attempts_of. cbn [attempts].
  rewrite lookup_insert_eq. apply last_snoc.
Qed.

Lemma isAllowed_refused (lim lim' : RateLimiter) (nowMs : Z) (key : string) :
  isAllowed lim nowMs key = (false, lim') -> lim' = lim.
Proof.
  unfold isAllowed.
  destruct (maxAttempts lim <=? _); intros [= ?]; congruence.
Qed.

(** What the handler answers: 500, 429, 400 or 200. *)
Lemma handler_responses (srv : Server) (userId lotId : Z) (json : JsonBody)
    (cfIp xff ua : option string) (nowMs t : Z) :
  let resp := fst (handler srv userId lotId json cfIp xff ua nowMs t) in
  let srv' := snd (handler srv userId lotId json cfIp xff ua nowMs t) in
  (http_status resp = 500 \/ http_status resp = 429 \/
   http_status resp = 400 \/ http_status resp = 200) /\
  (http_status resp = 500 <-> json = BodyThrows) /\
  (body resp = ServerError <-> json = BodyThrows) /\
  (http_status resp = 500 \/ http_status resp = 429 -> srv' = srv) /\
  (forall message, body resp = ErrorBody message -> store srv' = store srv) /\
  (forall r, body resp = ResultBody r ->
     exists a maxBid,
       json = BodyFields (Some a) maxBid /\
       placeBid (store srv) lotId userId a maxBid
                (Some (mkMeta (header_or cfIp xff) ua)) t = (r, store srv') /\
       code r <> INVALID_AMOUNT /\ code r <> INVALID_MAX_BID /\
       (http_status resp = 200 <-> code r = BID_SUCCESS)) /\
  (http_status resp = 429 ->
     json <> BodyThrows /\
     fst (isAllowed (limiter srv) nowMs (bid_key userId)) = false) /\
  (http_status resp = 400 \/ http_status resp = 200 ->
     json <> BodyThrows /\
     fst (isAllowed (limiter srv) nowMs (bid_key userId)) = true /\
     limiter srv' = snd (isAllowed (limiter srv) nowMs (bid_key userId)) /\
     last (attempts_of (limiter srv') (bid_key userId)) = Some nowMs).
Proof.
  cbn zeta. unfold handler.
  destruct json as [|amount maxBid].
  { cbn [fst snd http_status body].
    split; [left; reflexivity|]. split; [split; reflexivity|].
    split; [split; reflexivity|].
    split; [reflexivity|]. split; [intros m E; discriminate E|].
    split; [intros r E; discriminate E|].
    split; [intros E; discriminate E | intros [E | E]; discriminate E]. }
  pose proof (isAllowed_last (limiter srv) (snd (isAllowed (limiter srv) nowMs (bid_key userId)))
                nowMs (bid_key userId)) as Hlast.
  pose proof (isAllowed_refused (limiter srv)
                (snd (isAllowed (limiter srv) nowMs (bid_key userId)))
                nowMs (bid_key userId)) as Href.
  destruct (isAllowed (limiter srv) nowMs (bid_key userId)) as [ok lim] eqn:Elim.
  cbn [fst snd] in *.
  destruct ok; cbn [negb].
  2:{ rewrite (Href eq_refl).
      cbn [fst snd http_status body store limiter].
      split; [right; left; reflexivity|].
      split; [split; discriminate|]. split; [split; discriminate|].
      split; [intros _; destruct srv; reflexivity|].
      split; [reflexivity|].
      split; [intros r E; discriminate E|].
      split; [intros _; split; [discriminate | reflexivity]|].
      intros [E | E]; discriminate E. }
  specialize (Hlast eq_refl). clear Href.
  destruct (negb (truthy amount) || (val amount <=? 0)) eqn:Eamt.
  { cbn [fst snd http_status body store limiter].
    split; [right; right; left; reflexivity|].
    split; [split; discriminate|]. split; [split; discriminate|].
    split; [intros [E | E]; discriminate E|].
    split; [reflexivity|].
    split; [intros r E; discriminate E|].
    split; [intros E; discriminate E|].
    intros _. repeat split; try reflexivity; try discriminate; exact Hlast. }
  apply orb_false_iff in Eamt as [Etr Epos].
  apply negb_false_iff in Etr.
  destruct amount as [a|]; [|discriminate Etr]. cbn [val] in *.
  destruct (truthy maxBid && (val maxBid <? a)) eqn:Emax.
  { cbn [fst snd http_status body store limiter].
    split; [right; right; left; reflexivity|].
    split; [split; discriminate|]. split; [split; discriminate|].
    split; [intros [E | E]; discriminate E|].
    split; [reflexivity|].
    split; [intros r E; discriminate E|].
    split; [intros E; discriminate E|].
    intros _. repeat split; try reflexivity; try discriminate; exact Hlast. }
  pose proof (placeBid_success_code (store srv) lotId userId a maxBid
                (Some (mkMeta (header_or cfIp xff) ua)) t) as Hsucc.
  pose proof (placeBid_valid_input_code (store srv) lotId userId a maxBid
                (Some (mkMeta (header_or cfIp xff) ua)) t Epos Emax) as [Hc1 Hc2].
  destruct (placeBid (store srv) lotId userId a maxBid
              (Some (mkMeta (header_or cfIp xff) ua)) t) as [result db] eqn:Epb.
  cbn [fst snd] in Hsucc, Hc1, Hc2.
  destruct (success result) eqn:Es; cbn [negb fst snd http_status body store limiter].
  - symmetry in Hsucc. apply bool_decide_eq_true in Hsucc.
    split; [right; right; right; reflexivity|].
    split; [split; discriminate|]. split; [split; discriminate|].
    split; [intros [E | E]; discriminate E|].
    split; [intros m E; discriminate E|].
    split.
    + intros r [= <-]. exists a, maxBid.
      split; [reflexivity|]. split; [exact Epb|].
      split; [exact Hc1|]. split; [exact Hc2|].
      split; [intros _; exact Hsucc | reflexivity].
    + split; [intros E; discriminate E|].
      intros _. repeat split; try reflexivity; try discriminate; exact Hlast.
  - symmetry in Hsucc. apply bool_decide_eq_false in Hsucc.
    split; [right; right; left; reflexivity|].
    split; [split; discriminate|]. split; [split; discriminate|].
    split; [intros [E | E]; discriminate E|].
    split; [intros m E; discriminate E|].
    split.
    + intros r [= <-]. exists a, maxBid.
      split; [reflexivity|]. split; [exact Epb|].
      split; [exact Hc1|]. split; [exact Hc2|].
      split; [discriminate | intros E; contradiction].
    + split; [intros E; discriminate E|].
      intros _. repeat split; try reflexivity; try discriminate; exact Hlast.
Qed.


(** A suspended user, a user whose address is not verified, and a body
    that is no JSON: none of them reaches the limiter or the engine. *)
Lemma post_bid_turned_away :
  let db := mkDB (<[ 8 := mkUser role_bidder us_active 0 ]>
                    (<[ 6 := mkUser role_bidder us_suspended 1 ]> Scenarios.bidders))
                 (lots Scenarios.db_fresh) (auctions Scenarios.db_fresh) [] [] in
  let srv := mkServer bidRateLimiter db in
  post_bid srv (Token 6) 1 (BodyFields (Some 10) None) None None None 0 1000 =
    (mkResponse 401 (ErrorBody "User not found or inactive"), srv) /\
  post_bid srv (Token 8) 1 (BodyFields (Some 10) None) None None None 0 1000 =
    (mkResponse 403 (ErrorBody "Email verification required"), srv) /\
  post_bid srv (Token 7) 1 BodyThrows None None None 0 1000 =
    (mkResponse 500 ServerError, srv).
Proof. intros db srv. repeat split; reflexivity. Qed.

(** *** The limit as seen through the route *)

Lemma bid_key_inj (u v : Z) : bid_key u = bid_key v -> u = v.
Proof.
  unfold bid_key. intros H. cbn in H. injection H as H.
  exact (inj pretty u v H).
Qed.

(** One request either leaves the limiter alone and is not counted as a
    limiter call, or is a call of [isAllowed] for the user of its token,
    let past the limiter exactly when the answer is [true]. *)
Lemma handle_limiter (srv : Server) (req : Request) :
  (limiter_call (req, fst (handle srv req)) = None /\
   past_limiter (fst (handle srv req)) = false /\
   limiter (snd (handle srv req)) = limiter srv) \/
  (exists u,
     req_user req = Some u /\
     limiter_call (req, fst (handle srv req)) = Some (req_nowMs req, bid_key u) /\
     limiter (snd (handle srv req)) =
       snd (isAllowed (limiter srv) (req_nowMs req) (bid_key u)) /\
     past_limiter (fst (handle srv req)) =
       fst (isAllowed (limiter srv) (req_nowMs req) (bid_key u))).
Proof.
  unfold handle, limiter_call, req_user. cbn [fst snd].
  destruct (post_bid_middleware srv (req_cred req) (req_lot req) (req_json req)
              (req_cfIp req) (req_xff req) (req_ua req) (req_nowMs req) (req_t req))
    as [(_ & m & ->) | [(u & _ & _ & ->) | (u & [Hc _] & _ & ->)]].
  - left. cbn [fst snd]. destruct (req_cred req); repeat split; reflexivity.
  - left. cbn [fst snd]. destruct (req_cred req); repeat split; reflexivity.
  - rewrite Hc.
    destruct (handler_responses srv u (req_lot req) (req_json req) (req_cfIp req)
                (req_xff req) (req_ua req) (req_nowMs req) (req_t req))
      as (Hst & _ & _ & Hkeep & _ & _ & H429 & Hpass).
    cbn zeta in *. unfold reached_limiter, past_limiter in *.
    destruct Hst as [E | [E | [E | E]]]; rewrite E in *; cbn.
    + left. rewrite Hkeep by auto. repeat split; reflexivity.
    + right. exists u. rewrite Hkeep by auto.
      destruct (H429 eq_refl) as [_ Hno].
      split; [reflexivity|]. split; [reflexivity|].
      split; [|symmetry; exact Hno].
      symmetry. apply (isAllowed_refused (limiter srv) _ (req_nowMs req) (bid_key u)).
      rewrite <- Hno. apply surjective_pairing.
    + right. exists u. destruct Hpass as (_ & H1 & H2 & _); [auto|].
      split; [reflexivity|]. split; [reflexivity|].
      split; [exact H2 | symmetry; exact H1].
    + right. exists u. destruct Hpass as (_ & H1 & H2 & _); [auto|].
      split; [reflexivity|]. split; [reflexivity|].
      split; [exact H2 | symmetry; exact H1].
Qed.

Lemma serve_snoc (srv : Server) (reqs : list Request) (req : Request) :
  serve srv (reqs ++ [req]) = serve_step (serve srv reqs) req.
Proof. unfold serve. rewrite fold_left_app. reflexivity. Qed.

Lemma serve_requests (srv : Server) (reqs : list Request) :
  map fst (snd (serve srv reqs)) = reqs.
Proof.
  induction reqs as [|req reqs IH] using rev_ind; [reflexivity|].
  rewrite serve_snoc. unfold serve_step.
  destruct (handle (fst (serve srv reqs)) req) as [resp srv'].
  cbn [snd]. rewrite map_app, IH. reflexivity.
Qed.

Lemma limiter_calls_snoc (log : list (Request * Response)) (e : Request * Response) :
  limiter_calls (log ++ [e]) =
  limiter_calls log ++ match limiter_call e with Some c => [c] | None => [] end.
Proof.
  unfold limiter_calls. rewrite omap_app. reflexivity.
Qed.

Lemma passed_calls_snoc (log : list (Request * Response)) (e : Request * Response) :
  passed_calls (log ++ [e]) =
  passed_calls log ++
    (if past_limiter (snd e)
     then match limiter_call e with Some c => [c] | None => [] end
     else []).
Proof.
  unfold passed_calls. rewrite omap_app. f_equal.
  cbn [omap list_omap].
  destruct (past_limiter (snd e)); reflexivity.
Qed.

(** The limiter of the server goes through the run of [isAllowed] calls of
    the requests that reached it, and the requests let past it are the
    calls answered [true]. *)
Lemma serve_replay (srv : Server) (reqs : list Request) :
  let log := snd (serve srv reqs) in
  limiter (fst (serve srv reqs)) = fst (replay (limiter srv) (limiter_calls log)) /\
  passed_calls log = snd (replay (limiter srv) (limiter_calls log)).
Proof.
  cbn zeta. induction reqs as [|req reqs IH] using rev_ind.
  - split; reflexivity.
  - rewrite serve_snoc. unfold serve_step.
    destruct IH as [IHl IHp].
    pose proof (handle_limiter (fst (serve srv reqs)) req) as Hh.
    destruct (handle (fst (serve srv reqs)) req) as [resp srv'].
    cbn [fst snd] in *.
    rewrite limiter_calls_snoc, passed_calls_snoc. cbn [snd].
    destruct Hh as [(Hc & Hp & Hl) | (u & Hu & Hc & Hl & Hp)].
    + rewrite Hc, Hp, !app_nil_r, Hl. split; [exact IHl | exact IHp].
    + rewrite Hc, Hp, LimiterFacts.replay_snoc, Hl.
      unfold replay_step. rewrite <- IHl, <- IHp. cbn [fst snd].
      destruct (isAllowed (limiter (fst (serve srv reqs))) (req_nowMs req) (bid_key u))
        as [ok lim].
      cbn [fst snd]. split; [reflexivity|].
      destruct ok; [reflexivity | apply app_nil_r].
Qed.

Lemma passed_calls_cons (e : Request * Response) (log : list (Request * Response)) :
  passed_calls (e :: log) =
  (if past_limiter (snd e)
   then match limiter_call e with Some c => [c] | None => [] end
   else []) ++
  passed_calls log.
Proof.
  unfold passed_calls. cbn [omap list_omap].
  destruct (past_limiter (snd e)); [|reflexivity].
  destruct (limiter_call e); reflexivity.
Qed.

Lemma passed_in_minute_times (u T : Z) (log : list (Request * Response)) :
  map (fun e => req_nowMs (fst e)) (passed_in_minute u T log) =
  granted_in_window 60000 T (bid_key u) (passed_calls log).
Proof.
  unfold passed_in_minute, granted_in_window, granted_times.
  induction log as [|[req resp] log IH]; [reflexivity|].
  rewrite passed_calls_cons, List.filter_app, map_app, List.filter_app, <- IH.
  cbn [List.filter fst snd].
  destruct (past_limiter resp) eqn:Ep.
  - unfold limiter_call, reached_limiter. cbn [fst snd]. rewrite Ep, orb_true_r.
    destruct (req_user req) as [v|] eqn:Hv.
    + cbn [List.filter snd].
      destruct (decide (v = u)) as [-> | Hne].
      * rewrite !bool_decide_eq_true_2 by reflexivity.
        cbn [andb negb map fst List.filter].
        destruct ((req_nowMs req <=? T) && recent 60000 T (req_nowMs req));
          reflexivity.
      * rewrite (bool_decide_eq_false_2 (Some v = Some u)) by congruence.
        rewrite (bool_decide_eq_false_2 (bid_key v = bid_key u))
          by (intros E; apply Hne, bid_key_inj, E).
        reflexivity.
    + rewrite (bool_decide_eq_false_2 (None = Some u)) by discriminate.
      reflexivity.
  - rewrite andb_false_r. reflexivity.
Qed.

(** A clock that does not run backwards over all requests does not run
    backwards over those that reach the limiter. *)
Lemma nondecreasing_cons (a : Z) (ts : list Z) :
  nondecreasing (a :: ts) = true <->
  (forall x, In x ts -> a <= x) /\ nondecreasing ts = true.
Proof.
  revert a. induction ts as [|b rest IH]; intros a.
  - cbn. split; [intros _; split; [intros x [] | reflexivity] | reflexivity].
  - change (nondecreasing (a :: b :: rest)) with ((a <=? b) && nondecreasing (b :: rest)).
    rewrite andb_true_iff, Z.leb_le. split.
    + intros [Hab Hr]. split; [|exact Hr].
      apply IH in Hr as [Hb _].
      intros x [<- | Hx]; [exact Hab | specialize (Hb x Hx); lia].
    + intros [Hall Hr]. split; [apply Hall; left; reflexivity | exact Hr].
Qed.

Lemma limiter_calls_clock (log : list (Request * Response)) :
  nondecreasing (map (fun e => req_nowMs (fst e)) log) = true ->
  nondecreasing (map fst (limiter_calls log)) = true /\
  (forall x, In x (map fst (limiter_calls log)) ->
             In x (map (fun e => req_nowMs (fst e)) log)).
Proof.
  unfold limiter_calls.
  induction log as [|e log IH]; intros H; [split; [reflexivity | intros x []]|].
  cbn [map] in H. apply nondecreasing_cons in H as [Hall Hr].
  destruct (IH Hr) as [IH1 IH2].
  cbn [omap list_omap].
  destruct (limiter_call e) as [c|] eqn:Ec.
  - assert (Hc : fst c = req_nowMs (fst e)).
    { unfold limiter_call in Ec. destruct (req_user (fst e)); [|discriminate Ec].
      destruct (reached_limiter (snd e)); [|discriminate Ec].
      injection Ec as <-. reflexivity. }
    cbn [map]. split.
    + apply nondecreasing_cons. split; [|exact IH1].
      intros x Hx. rewrite Hc. apply Hall, IH2, Hx.
    + intros x [<- | Hx]; [left; symmetry; exact Hc | right; apply IH2, Hx].
  - split; [exact IH1|]. intros x Hx. right. apply IH2, Hx.
Qed.

(** X20.  Served by a freshly loaded module (limiter [bidRateLimiter], any
    store), requests whose limiter times do not go backwards get past the
    limiter, to be answered 400 or 200 by the validation and the engine, at
    most 10 times per user within any minute, whatever they ask for.  (The
    requests the middleware turns away, 401 and 403, and those whose body
    does not parse, 500, never reach the limiter and are not bounded.) *)
Theorem serve_ten_per_minute (db : DB) (reqs : list Request) (u T : Z) :
  clock_ok reqs = true ->
  (length (passed_in_minute u T (snd (serve (mkServer bidRateLimiter db) reqs))) <= 10)%nat.
Proof.
  intros Hs.
  destruct (serve_replay (mkServer bidRateLimiter db) reqs) as [_ Hp].
  cbn [limiter] in Hp.
  rewrite <- (length_map (fun e => req_nowMs (fst e))).
  rewrite passed_in_minute_times, Hp.
  assert (H10 : 0 <= 10) by lia.
  assert (Hclock : nondecreasing
                     (map fst (limiter_calls (snd (serve (mkServer bidRateLimiter db) reqs))))
                   = true).
  { apply limiter_calls_clock.
    rewrite <- (map_map fst req_nowMs), serve_requests. exact Hs. }
  pose proof (LimiterFacts.replay_run_ok 10 60000 _ H10 Hclock)
    as (_ & _ & _ & _ & Hb).
  specialize (Hb (bid_key u) T). unfold bidRateLimiter in *. lia.
Qed.

(** Twelve bids inside twelve seconds: the first ten reach the engine, the
    last two are answered 429. *)
Lemma serve_ten_per_minute_witness :
  let log := snd (serve (mkServer bidRateLimiter Scenarios.db_fresh) twelve_requests) in
  clock_ok twelve_requests = true /\
  map (fun e => http_status (snd e)) log =
    [200; 400; 400; 400; 400; 400; 400; 400; 400; 400; 429; 429] /\
  (length (passed_in_minute 7 11000 log) <= 10)%nat.
Proof.
  intros log. split; [reflexivity|]. split; [vm_compute; reflexivity|].
  exact (serve_ten_per_minute Scenarios.db_fresh twelve_requests 7 11000 eq_refl).
Defined.

End BidRouteFacts.

(** ** Invoices of an auction *)

Module InvoiceRunFacts.
Import Invoicer InvoiceRun InvoicerFacts.











(** Three rows of two bidders, bidder 9 first: its invoice comes first. *)
Lemma generateInvoicesForAuction_order_example :
  let rows := [ mkWinningRow 9 (mkWinningLot 1 1 10.1 false);
                mkWinningRow 4 (mkWinningLot 2 2 5 false);
                mkWinningRow 9 (mkWinningLot 3 3 20.2 false) ] in
  let a := mkAuctionRow PremiumEmpty 0 None 0 in
  (map (fun inv => (inv_bidder_id inv, map item_lot_id (line_items inv), subtotal inv))
     <$> generateInvoicesForAuction (Some a) 1 rows) =
    Some [ (9, [1; 3], 30.299999999999997%float); (4, [2], 5%float) ].
Proof. reflexivity. Qed.





End InvoiceRunFacts.

(** ** More on the image importer *)

Module ImporterMore.
Import Importer ImporterFacts.

(** *** Decimal numerals *)

Lemma list_ascii_app (s1 s2 : string) :
  list_ascii_of_string (s1 +:+ s2) = list_ascii_of_string s1 ++ list_ascii_of_string s2.
Proof.
  induction s1 as [|c s1 IH]; [reflexivity|].
  change (String c s1 +:+ s2) with (String c (s1 +:+ s2)).
  cbn [list_ascii_of_string app]. f_equal. exact IH.
Qed.

Lemma decimal_value_snoc (ds : list ascii) (c : ascii) :
  decimal_value (ds ++ [c]) = decimal_value ds * 10 + digit_value c.
Proof. unfold decimal_value. rewrite fold_left_app. reflexivity. Qed.

Lemma pretty_N_char_digit (k : N) :
  (k < 10)%N ->
  is_digit (pretty_N_char k) = true /\ digit_value (pretty_N_char k) = Z.of_N k.
Proof.
  intros Hk.
  assert (k = 0 \/ k = 1 \/ k = 2 \/ k = 3 \/ k = 4 \/ k = 5 \/ k = 6 \/ k = 7 \/
          k = 8 \/ k = 9)%N as H by lia.
  repeat (destruct H as [-> | H]; [split; reflexivity|]).
  subst k. split; reflexivity.
Qed.

Lemma pretty_N_go_digits (x : N) (s : string) :
  exists ds,
    list_ascii_of_string (pretty_N_go x s) = ds ++ list_ascii_of_string s /\
    forallb is_digit ds = true /\
    decimal_value ds = Z.of_N x /\
    ((0 < x)%N -> ds <> []).
Proof.
  revert s. induction (N.lt_wf_0 x) as [x _ IH]. intros s.
  destruct (N.eq_dec x 0%N) as [-> | Hx].
  - exists []. rewrite pretty_N_go_0. repeat split; try reflexivity. lia.
  - assert (Hpos : (0 < x)%N) by lia.
    rewrite (pretty_N_go_step x s Hpos).
    destruct (IH (x `div` 10)%N (N.div_lt x 10 Hpos eq_refl)
                 (String (pretty_N_char (x `mod` 10)%N) s)) as (ds & Hl & Hd & Hv & _).
    destruct (pretty_N_char_digit (x `mod` 10)%N) as [Hc Hcv].
    { apply N.mod_lt. discriminate. }
    exists (ds ++ [pretty_N_char (x `mod` 10)%N]).
    split; [rewrite Hl, <- app_assoc; reflexivity|].
    split; [rewrite forallb_app, Hd; cbn [forallb]; rewrite Hc; reflexivity|].
    split.
    + rewrite decimal_value_snoc, Hv, Hcv.
      pose proof (N.div_mod x 10%N). lia.
    + intros _ H. apply app_eq_nil in H as [_ H]. discriminate H.
Qed.

(** The decimal numeral of a natural number is a non-empty run of digits
    that writes that number. *)
Lemma pretty_N_digits (x : N) :
  exists d ds,
    list_ascii_of_string (pretty x) = d :: ds /\
    forallb is_digit (d :: ds) = true /\
    decimal_value (d :: ds) = Z.of_N x.
Proof.
  unfold pretty, pretty_N. destruct (decide (x = 0%N)) as [-> | Hx].
  - exists "0"%char, []. repeat split; reflexivity.
  - destruct (pretty_N_go_digits x "") as (ds & Hl & Hd & Hv & Hne).
    cbn [list_ascii_of_string] in Hl. rewrite app_nil_r in Hl.
    destruct ds as [|d ds]; [exfalso; apply Hne; [lia | reflexivity]|].
    exists d, ds. auto.
Qed.

(** *** The steps of [parseImageFilename] *)

Lemma span_digits_run (ds rest : list ascii) :
  forallb is_digit ds = true ->
  match rest with
  | c :: _ => is_digit c = false
  | [] => True
  end ->
  span_digits (ds ++ rest) = (ds, rest).
Proof.
  intros Hd Hr. induction ds as [|d ds IH]; cbn [app].
  - destruct rest as [|c rest]; [reflexivity|]. cbn [span_digits]. rewrite Hr. reflexivity.
  - cbn [forallb] in Hd. apply andb_true_iff in Hd as [Hd Hds].
    cbn [span_digits]. rewrite Hd, (IH Hds). reflexivity.
Qed.

Lemma digits_sep_digits_run (seps : list ascii) (d1 d2 : list ascii) (sep : ascii) :
  d1 <> [] -> d2 <> [] ->
  forallb is_digit d1 = true -> forallb is_digit d2 = true ->
  is_digit sep = false ->
  digits_sep_digits seps (d1 ++ sep :: d2) =
    if existsb (Ascii.eqb sep) seps then Some (parseInt d1, parseInt d2) else None.
Proof.
  intros H1 H2 Hd1 Hd2 Hs. unfold digits_sep_digits.
  rewrite (span_digits_run d1 (sep :: d2) Hd1 Hs).
  destruct d1 as [|a d1]; [contradiction|].
  destruct d2 as [|b d2]; [contradiction|].
  rewrite Hd2, andb_true_r. reflexivity.
Qed.

Lemma digit_not_letter (c : ascii) :
  is_digit c = true ->
  lower c = c /\ Ascii.eqb c "l" = false /\ Ascii.eqb c "." = false /\
  Ascii.eqb c "_" = false /\ Ascii.eqb c "-" = false.
Proof.
  destruct c as [[] [] [] [] [] [] [] []]; intros H;
    try discriminate H; repeat split; reflexivity.
Qed.

Lemma separator_not_digit (sep : ascii) :
  existsb (Ascii.eqb sep) ["-"; "_"; "."]%char = true ->
  is_digit sep = false /\
  (sep = "-" \/ sep = "_" \/ sep = ".")%char.
Proof.
  cbn [existsb]. rewrite orb_false_r. intros H.
  apply orb_true_iff in H as [H | H]; [|apply orb_true_iff in H as [H | H]];
    apply Ascii.eqb_eq in H; subst sep; split; auto.
Qed.

(** A name that starts with a digit is not read by the [lot] pattern. *)
Lemma pattern_lot_digit_first (d : ascii) (rest : list ascii) :
  is_digit d = true -> pattern_lot (d :: rest) = None.
Proof.
  intros Hd. unfold pattern_lot.
  destruct rest as [|o [|t r]]; try reflexivity.
  destruct (digit_not_letter d Hd) as (Hl & Hne & _).
  cbn [chars_eqb list_ascii_of_string]. rewrite Hl, Hne. reflexivity.
Qed.

Lemma first_match_numbers (d1 d2 : list ascii) (sep : ascii) :
  d1 <> [] -> d2 <> [] ->
  forallb is_digit d1 = true -> forallb is_digit d2 = true ->
  existsb (Ascii.eqb sep) ["-"; "_"; "."]%char = true ->
  first_match patterns (d1 ++ sep :: d2) = Some (parseInt d1, parseInt d2).
Proof.
  intros H1 H2 Hd1 Hd2 Hsep.
  destruct (separator_not_digit sep Hsep) as [Hnd Hcases].
  unfold patterns, first_match, pattern_dash, pattern_underscore, pattern_dot.
  rewrite !(digits_sep_digits_run _ d1 d2 sep H1 H2 Hd1 Hd2 Hnd).
  assert (Hlot : pattern_lot (d1 ++ sep :: d2) = None).
  { destruct d1 as [|a d1]; [contradiction|].
    cbn [forallb] in Hd1. apply andb_true_iff in Hd1 as [Ha _].
    apply (pattern_lot_digit_first a _ Ha). }
  rewrite Hlot.
  destruct Hcases as [-> | [-> | ->]]; reflexivity.
Qed.

(** *** Stripping the extension *)

Lemma chars_eqb_eq (s1 s2 : list ascii) : chars_eqb s1 s2 = true <-> s1 = s2.
Proof.
  revert s2. induction s1 as [|c1 r1 IH]; intros [|c2 r2]; cbn [chars_eqb];
    try (split; [discriminate | discriminate]); [split; reflexivity|].
  rewrite andb_true_iff, Ascii.eqb_eq, IH. split.
  - intros [-> ->]. reflexivity.
  - intros [= -> ->]. auto.
Qed.

Lemma strip_suffix_app (pre suf ext : list ascii) :
  length suf = length ext ->
  strip_suffix ext (pre ++ suf) =
    if chars_eqb (map lower suf) ext then Some pre else None.
Proof.
  intros Hlen. unfold strip_suffix. rewrite length_app, <- Hlen.
  replace (length pre + length suf - length suf)%nat with (length pre) by lia.
  replace (length suf <=? length pre + length suf)%nat with true
    by (symmetry; apply Nat.leb_le; lia).
  rewrite skipn_app, Nat.sub_diag, skipn_all, firstn_app, Nat.sub_diag, firstn_all.
  cbn [skipn firstn app]. rewrite app_nil_r. reflexivity.
Qed.

Lemma strip_suffix_same (stem : list ascii) (d : ascii) (x ext : list ascii) :
  length x = length ext ->
  strip_suffix ext (stem ++ d :: x) =
    if chars_eqb (map lower x) ext then Some (stem ++ [d]) else None.
Proof.
  intros Hlen. rewrite <- (strip_suffix_app (stem ++ [d]) x ext Hlen).
  rewrite <- app_assoc. reflexivity.
Qed.

Lemma strip_suffix_shorter (stem : list ascii) (d c : ascii) (x ext : list ascii) :
  length x = length ext ->
  strip_suffix ext (stem ++ d :: c :: x) =
    if chars_eqb (map lower x) ext then Some (stem ++ [d; c]) else None.
Proof.
  intros Hlen. rewrite <- (strip_suffix_app (stem ++ [d; c]) x ext Hlen).
  rewrite <- app_assoc. reflexivity.
Qed.

Lemma strip_suffix_longer (stem : list ascii) (d : ascii) (x ext : list ascii) :
  length (d :: x) = length ext ->
  strip_suffix ext (stem ++ d :: x) =
    if chars_eqb (map lower (d :: x)) ext then Some stem else None.
Proof. intros Hlen. apply (strip_suffix_app stem (d :: x) ext Hlen). Qed.

(** On a stem that ends in a digit, followed by one of the extensions in
    any mix of cases, exactly that extension is cut off. *)
Lemma strip_extension_digit_stem (stem : list ascii) (d : ascii) (ext : string) :
  is_digit d = true ->
  known_extension ext = true ->
  strip_extension (stem ++ d :: list_ascii_of_string ext) = stem ++ [d].
Proof.
  intros Hd Hext.
  destruct (digit_not_letter d Hd) as (Hl & _ & Hdot & _).
  unfold known_extension, extensions in Hext. cbn [map existsb] in Hext.
  set (x := list_ascii_of_string ext) in *.
  assert (Hx :
    map lower x = list_ascii_of_string ".jpg" \/
    map lower x = list_ascii_of_string ".jpeg" \/
    map lower x = list_ascii_of_string ".png" \/
    map lower x = list_ascii_of_string ".gif" \/
    map lower x = list_ascii_of_string ".webp" \/
    map lower x = list_ascii_of_string ".heic").
  { rewrite orb_false_r, !orb_true_iff in Hext. rewrite !chars_eqb_eq in Hext. tauto. }
  clearbody x. clear Hext.
  unfold strip_extension, extensions.
  cbn [map strip_extension_from list_ascii_of_string].
  cbn [list_ascii_of_string] in Hx.
  destruct Hx as [Hx | [Hx | [Hx | [Hx | [Hx | Hx]]]]];
    (destruct x as [|c1 [|c2 [|c3 [|c4 [|c5 [|c6 x]]]]]]; try discriminate Hx);
    cbn [map] in Hx;
    first [ injection Hx as E1 E2 E3 E4 E5 | injection Hx as E1 E2 E3 E4 ];
    repeat
      (first [ rewrite strip_suffix_same by reflexivity
             | rewrite strip_suffix_shorter by reflexivity
             | rewrite strip_suffix_longer by reflexivity ];
       cbn [map chars_eqb];
       rewrite ?E1, ?E2, ?E3, ?E4, ?E5, ?Hl, ?Hdot;
       cbn -[strip_suffix]);
    reflexivity.
Qed.

(** *** Names of the form [<lot><sep><order><ext>] *)

Lemma digits_last (ds : list ascii) :
  ds <> [] -> forallb is_digit ds = true ->
  exists init d, ds = init ++ [d] /\ is_digit d = true.
Proof.
  intros Hne Hd. destruct (exists_last Hne) as (init & d & ->).
  exists init, d. split; [reflexivity|].
  rewrite forallb_app in Hd. apply andb_true_iff in Hd as [_ Hd].
  cbn [forallb] in Hd. rewrite andb_true_r in Hd. exact Hd.
Qed.

Lemma image_name_chars (lot : N) (sep : ascii) (order : N) (ext : string) :
  exists d1 d2 init d,
    list_ascii_of_string (image_name lot sep order ext) =
      (d1 ++ sep :: init) ++ d :: list_ascii_of_string ext /\
    d2 = init ++ [d] /\ is_digit d = true /\
    d1 <> [] /\ d2 <> [] /\
    forallb is_digit d1 = true /\ forallb is_digit d2 = true /\
    decimal_value d1 = Z.of_N lot /\ decimal_value d2 = Z.of_N order.
Proof.
  destruct (pretty_N_digits lot) as (a & as' & Ha & Hda & Hva).
  destruct (pretty_N_digits order) as (b & bs & Hb & Hdb & Hvb).
  destruct (digits_last (b :: bs)) as (init & d & Hinit & Hd); [discriminate | exact Hdb |].
  exists (a :: as'), (b :: bs), init, d.
  split.
  { unfold image_name. rewrite list_ascii_app. cbn [list_ascii_of_string].
    rewrite list_ascii_app, Ha, Hb, Hinit, <- !app_assoc. reflexivity. }
  split; [exact Hinit|]. split; [exact Hd|].
  split; [discriminate|]. split; [discriminate|]. auto.
Qed.

(** X23.  A file named after a lot number and a photo order, both in decimal
    and at most [2^53], joined by [-], [_] or [.] and followed by one of the
    six extensions in any mix of cases, is parsed back to that lot number
    and that order.  (A larger number is read as the double nearest to
    it.) *)
Theorem parseImageFilename_reads_numbered_name (lot order : N) (sep : ascii)
    (ext : string) :
  existsb (Ascii.eqb sep) ["-"; "_"; "."]%char = true ->
  known_extension ext = true ->
  Z.of_N lot <= max_safe ->
  Z.of_N order <= max_safe ->
  parseImageFilename (image_name lot sep order ext) = Some (Z.of_N lot, Z.of_N order).
Proof.
  intros Hsep Hext Hlot Horder. unfold parseImageFilename.
  destruct (image_name_chars lot sep order ext)
    as (d1 & d2 & init & d & -> & Hd2 & Hd & H1 & H2 & Hf1 & Hf2 & Hv1 & Hv2).
  rewrite (strip_extension_digit_stem _ d ext Hd Hext).
  rewrite <- app_assoc. cbn [app]. rewrite <- Hd2.
  rewrite (first_match_numbers d1 d2 sep) by assumption.
  unfold parseInt. rewrite Hv1, Hv2, !RulesFacts.round53_exact by lia. reflexivity.
Qed.

(** ["12.7.JpEg"] is photo 7 of lot 12. *)
Lemma parseImageFilename_reads_numbered_name_witness :
  (existsb (Ascii.eqb ".") ["-"; "_"; "."]%char = true /\
   known_extension ".JpEg" = true /\
   Z.of_N 12 <= max_safe /\ Z.of_N 7 <= max_safe) /\
  image_name 12 "." 7 ".JpEg" = "12.7.JpEg"%string /\
  parseImageFilename (image_name 12 "." 7 ".JpEg") = Some (Z.of_N 12, Z.of_N 7).
Proof.
  assert (H1 : Z.of_N 12 <= max_safe) by (vm_compute; discriminate).
  assert (H2 : Z.of_N 7 <= max_safe) by (vm_compute; discriminate).
  split; [split; [reflexivity | split; [reflexivity | split; [exact H1 | exact H2]]]|].
  split; [reflexivity|].
  exact (parseImageFilename_reads_numbered_name 12 7 "." ".JpEg" eq_refl eq_refl H1 H2).
Defined.

(** Past [2^53] the number read is not the number written:
    [2^53 + 1] is read as [2^53]. *)
Lemma parseImageFilename_rounds_large_numbers :
  parseImageFilename "9007199254740993-1.jpg" = Some (9007199254740992, 1).
Proof. reflexivity. Qed.

(** *** The same after [lot], [lot_] or [lot-] *)

Lemma lower_letter (c : ascii) :
  (lower c = "l"%char -> is_digit c = false) /\
  (lower c = "_"%char -> c = "_"%char) /\
  (lower c = "-"%char -> c = "-"%char).
Proof.
  destruct c as [[] [] [] [] [] [] [] []];
    repeat split; intros H; vm_compute in H; try discriminate H; reflexivity.
Qed.

Lemma pattern_dash_letter_first (c : ascii) (rest : list ascii) :
  lower c = "l"%char -> digits_sep_digits ["-"%char] (c :: rest) = None.
Proof.
  intros Hc. destruct (lower_letter c) as (Hd & _).
  unfold digits_sep_digits. cbn [span_digits]. rewrite (Hd Hc). reflexivity.
Qed.

Lemma first_match_lot_prefix (p d1 d2 : list ascii) (sep : ascii) :
  existsb (chars_eqb (map lower p))
          (map list_ascii_of_string ["lot"; "lot_"; "lot-"]%string) = true ->
  d1 <> [] -> d2 <> [] ->
  forallb is_digit d1 = true -> forallb is_digit d2 = true ->
  existsb (Ascii.eqb sep) ["_"; "-"]%char = true ->
  first_match patterns (p ++ d1 ++ sep :: d2) = Some (parseInt d1, parseInt d2).
Proof.
  intros Hp H1 H2 Hf1 Hf2 Hsep.
  assert (Hnd : is_digit sep = false).
  { cbn [existsb] in Hsep. rewrite orb_false_r in Hsep.
    apply orb_true_iff in Hsep as [H | H]; apply Ascii.eqb_eq in H; subst sep; reflexivity. }
  cbn [map existsb] in Hp. rewrite orb_false_r, !orb_true_iff, !chars_eqb_eq in Hp.
  cbn [list_ascii_of_string] in Hp.
  pose proof (digits_sep_digits_run ["_"; "-"]%char d1 d2 sep H1 H2 Hf1 Hf2 Hnd) as Hrun.
  rewrite Hsep in Hrun.
  assert (Hfirst : exists a rest, d1 = a :: rest /\ is_digit a = true).
  { destruct d1 as [|a rest]; [contradiction|]. exists a, rest.
    cbn [forallb] in Hf1. apply andb_true_iff in Hf1 as [Ha _]. auto. }
  destruct Hfirst as (a & rest & Hd1 & Ha).
  destruct (digit_not_letter a Ha) as (_ & _ & _ & Hau & Had).
  unfold patterns, first_match, pattern_dash.
  destruct Hp as [Hp | [Hp | Hp]];
    (destruct p as [|c1 [|c2 [|c3 [|c4 [|c5 p]]]]]; try discriminate Hp);
    cbn [map] in Hp;
    first [ injection Hp as E1 E2 E3 E4 | injection Hp as E1 E2 E3 ];
    cbn [app];
    rewrite (pattern_dash_letter_first c1 _ E1);
    unfold pattern_lot; cbn [chars_eqb list_ascii_of_string];
    rewrite E1, E2, E3; cbn [Ascii.eqb Bool.eqb andb].
  - rewrite Hd1. cbn [app]. rewrite Hau, Had. cbn [orb].
    rewrite <- Hd1. change (a :: rest ++ sep :: d2) with ((a :: rest) ++ sep :: d2).
    rewrite <- Hd1, Hrun. reflexivity.
  - destruct (lower_letter c4) as (_ & Hu & _). rewrite (Hu E4).
    cbn [Ascii.eqb Bool.eqb andb orb]. rewrite Hrun. reflexivity.
  - destruct (lower_letter c4) as (_ & _ & Hm). rewrite (Hm E4).
    cbn [Ascii.eqb Bool.eqb andb orb]. rewrite Hrun. reflexivity.
Qed.

(** X24.  With [lot], [lot_] or [lot-] in front, in any mix of cases, and [_] or
    [-] between the numbers, the name is parsed to the same pair, for
    numbers up to [2^53]. *)
Theorem parseImageFilename_reads_lot_name (prefix : string) (lot order : N)
    (sep : ascii) (ext : string) :
  lot_prefix prefix = true ->
  existsb (Ascii.eqb sep) ["_"; "-"]%char = true ->
  known_extension ext = true ->
  Z.of_N lot <= max_safe ->
  Z.of_N order <= max_safe ->
  parseImageFilename (lot_image_name prefix lot sep order ext) =
    Some (Z.of_N lot, Z.of_N order).
Proof.
  intros Hp Hsep Hext Hlot Horder. unfold parseImageFilename, lot_image_name.
  rewrite list_ascii_app.
  destruct (image_name_chars lot sep order ext)
    as (d1 & d2 & init & d & -> & Hd2 & Hd & H1 & H2 & Hf1 & Hf2 & Hv1 & Hv2).
  rewrite !app_assoc.
  rewrite (strip_extension_digit_stem _ d ext Hd Hext).
  rewrite <- !app_assoc. cbn [app]. rewrite <- Hd2.
  rewrite (first_match_lot_prefix _ d1 d2 sep) by assumption.
  unfold parseInt. rewrite Hv1, Hv2, !RulesFacts.round53_exact by lia. reflexivity.
Qed.

(** ["LOT_12-7.png"] *)
Lemma parseImageFilename_reads_lot_name_witness :
  (lot_prefix "LOT_" = true /\
   existsb (Ascii.eqb "-") ["_"; "-"]%char = true /\
   known_extension ".png" = true /\
   Z.of_N 12 <= max_safe /\ Z.of_N 7 <= max_safe) /\
  lot_image_name "LOT_" 12 "-" 7 ".png" = "LOT_12-7.png"%string /\
  parseImageFilename (lot_image_name "LOT_" 12 "-" 7 ".png") =
    Some (Z.of_N 12, Z.of_N 7).
Proof.
  assert (H1 : Z.of_N 12 <= max_safe) by (vm_compute; discriminate).
  assert (H2 : Z.of_N 7 <= max_safe) by (vm_compute; discriminate).
  split; [split; [reflexivity | split; [reflexivity | split;
            [reflexivity | split; [exact H1 | exact H2]]]]|].
  split; [reflexivity|].
  exact (parseImageFilename_reads_lot_name "LOT_" 12 7 "-" ".png"
           eq_refl eq_refl eq_refl H1 H2).
Defined.

(** *** The batch as a whole *)

(** What the loop body writes for one image, whatever the name. *)
Lemma process_image_row (batchId : string) (lotMap : gmap Z Z) (image : string * string) :
  let r := fst (process_image batchId lotMap image) in
  let row := snd (process_image batchId lotMap image) in
  filename r = fst image /\
  im_filename row = fst image /\ file_url row = snd image /\
  import_batch_id row = batchId /\
  match_status row = status r /\
  parsed_lot_number row = lotNumber r /\ parsed_photo_order row = photoOrder r /\
  conflict_reason row = reason r /\
  (status r = matched ->
     (exists lotId, assigned_lot_id row = Some lotId /\ lotId <> 0 /\
                    exists n, lotNumber r = Some n /\ lotMap !! n = Some lotId) /\
     assigned_order row = photoOrder r /\ reason r = None) /\
  (status r = unmatched ->
     assigned_lot_id row = None /\ assigned_order row = None /\ reason r <> None).
Proof.
  unfold process_image. destruct image as [name url]. cbn [fst snd].
  destruct (parseImageFilename name) as [[lotNum order]|].
  - destruct (lotMap !! lotNum) as [lotId|] eqn:El.
    + destruct (negb (lotId =? 0)) eqn:E0;
        cbn [fst snd filename im_filename file_url import_batch_id match_status status
             parsed_lot_number lotNumber parsed_photo_order photoOrder conflict_reason
             reason assigned_lot_id assigned_order];
        repeat (split; [reflexivity|]).
      * split; [|intros H; discriminate H]. intros _.
        split; [|split; reflexivity].
        exists lotId. split; [reflexivity|].
        split; [apply negb_true_iff, Z.eqb_neq in E0; exact E0|].
        exists lotNum. split; [reflexivity | exact El].
      * split; [intros H; discriminate H|]. intros _.
        split; [reflexivity|]. split; [reflexivity | discriminate].
    + cbn [fst snd filename im_filename file_url import_batch_id match_status status
           parsed_lot_number lotNumber parsed_photo_order photoOrder conflict_reason
           reason assigned_lot_id assigned_order].
      repeat (split; [reflexivity|]).
      split; [intros H; discriminate H|]. intros _.
      split; [reflexivity|]. split; [reflexivity | discriminate].
  - cbn [fst snd filename im_filename file_url import_batch_id match_status status
         parsed_lot_number lotNumber parsed_photo_order photoOrder conflict_reason
         reason assigned_lot_id assigned_order].
    repeat (split; [reflexivity|]).
    split; [intros H; discriminate H|]. intros _.
    split; [reflexivity|]. split; [reflexivity | discriminate].
Qed.

(** X25.  The books of a batch.  A call with at least one image never
    returns: it throws.  It leaves [import_batches] as it was, so no batch
    row records the call; the rows it leaves in [image_mappings] are those
    of the loop body for the images it got through, in input order, each
    carrying its file name, its URL, the batch id and a status that is
    [matched] or [unmatched]; and when the batch id is not in
    [import_batches] before the call, as for a freshly drawn id, it got
    through none and the store is as it was.  Only the call without images
    can return: it writes the batch row, [completed] with no items, when
    the id is new and the auction and the creator exist. *)
Theorem processBulkImages_books (st : Store) (batchId : string) (auctionId : Z)
    (images : list (string * string)) (createdBy : Z) :
  let out := processBulkImages st batchId auctionId images createdBy in
  let lotMap := build_lotMap (lots_of_auction st auctionId) in
  let empty_batch := mkBatch batchId auctionId completed 0 0 0 createdBy in
  (images = [] ->
   out = if batch_accepted st empty_batch
         then (Some (batchId, []), insert_batch st empty_batch)
         else (None, st)) /\
  (images <> [] ->
   fst out = None /\
   import_batches (snd out) = import_batches st /\
   (has_batch st batchId = false -> snd out = st) /\
   exists done rest,
     images = done ++ rest /\
     image_mappings (snd out) =
       image_mappings st ++ map (fun image => snd (process_image batchId lotMap image)) done /\
     Forall2 (fun image row =>
                im_filename row = fst image /\ file_url row = snd image /\
                import_batch_id row = batchId /\
                (match_status row = matched \/ match_status row = unmatched))
             done
             (map (fun image => snd (process_image batchId lotMap image)) done)).
Proof.
  cbn zeta. split.
  { intros ->. reflexivity. }
  intros Hne.
  destruct (processBulkImages_throws st batchId auctionId images createdBy Hne)
    as (Hnone & Hb & Hfresh).
  split; [exact Hnone|]. split; [exact Hb|]. split; [exact Hfresh|].
  unfold processBulkImages.
  set (lotMap := build_lotMap (lots_of_auction st auctionId)).
  destruct (process_images_spec batchId lotMap images st [])
    as (_ & _ & _ & _ & (done & rest & Himg & Hrows & _) & _).
  cbn zeta in Hrows.
  exists done, rest. split; [exact Himg|]. split.
  - destruct (process_images st batchId lotMap images []) as [[results|] st1];
      cbn [snd] in *; [|exact Hrows].
    destruct (batch_accepted st1 _); cbn [snd insert_batch image_mappings]; exact Hrows.
  - clear. induction done as [|img done IH]; cbn [map]; constructor; [|exact IH].
    destruct (process_image_row batchId lotMap img)
      as (_ & H1 & H2 & H3 & H4 & _).
    cbn zeta in H1, H2, H3, H4.
    split; [exact H1|]. split; [exact H2|]. split; [exact H3|].
    rewrite H4. apply process_image_status.
Qed.

(** *** An image of an existing lot *)

Lemma build_lotMap_from_other (lots : list (Z * Z)) (m : gmap Z Z) (n : Z) :
  ~ In n (map snd lots) ->
  fold_left (fun m '(id, lot_number) => <[lot_number := id]> m) lots m !! n = m !! n.
Proof.
  revert m. induction lots as [|[id k] rest IH]; intros m Hout; [reflexivity|].
  cbn [fold_left]. rewrite IH.
  - apply lookup_insert_ne. intros ->. apply Hout. left. reflexivity.
  - intros H. apply Hout. right. exact H.
Qed.

Lemma build_lotMap_from_lookup (lots : list (Z * Z)) (m : gmap Z Z) (id n : Z) :
  List.NoDup (map snd lots) ->
  In (id, n) lots ->
  fold_left (fun m '(id, lot_number) => <[lot_number := id]> m) lots m !! n = Some id.
Proof.
  revert m. induction lots as [|[id0 k] rest IH]; intros m Hnd Hin; [destruct Hin|].
  cbn [map snd] in Hnd. inversion Hnd as [|? ? Hk Hrest]; subst.
  cbn [fold_left]. destruct Hin as [[= -> ->] | Hin].
  - rewrite (build_lotMap_from_other rest _ n Hk). apply lookup_insert_eq.
  - apply IH; assumption.
Qed.

(** X26.  For an image named after a lot of the auction, in one of the forms
    above with numbers up to [2^53], the loop body prepares a [matched] row
    for that lot's id at the order in its name; named after a number no lot
    of the auction has, it prepares an [unmatched] row with the reason that
    no such lot was found.  Either row names the batch of the call, and a
    store whose [import_batches] does not hold that batch refuses it. *)
Theorem process_image_numbered_name (batchId : string) (lots : list (Z * Z))
    (n order : N) (sep : ascii) (ext url : string) :
  existsb (Ascii.eqb sep) ["-"; "_"; "."]%char = true ->
  known_extension ext = true ->
  List.NoDup (map snd lots) ->
  Z.of_N n <= max_safe ->
  Z.of_N order <= max_safe ->
  let name := image_name n sep order ext in
  let out := process_image batchId (build_lotMap lots) (name, url) in
  (forall id, In (id, Z.of_N n) lots -> id <> 0 ->
     out = (mkMatch name (Some (Z.of_N n)) (Some (Z.of_N order)) matched None,
            mkMapping batchId name url (Some (Z.of_N n)) (Some (Z.of_N order)) matched
                      (Some id) (Some (Z.of_N order)) None)) /\
  (~ In (Z.of_N n) (map snd lots) ->
     status (fst out) = unmatched /\
     reason (fst out) = Some (NoLotFound (Z.of_N n)) /\
     assigned_lot_id (snd out) = None) /\
  (forall st, has_batch st batchId = false -> mapping_accepted st (snd out) = false).
Proof.
  intros Hsep Hext Hnd Hn Horder name out. subst name out.
  split; [|split].
  3:{ intros st Hfresh. unfold mapping_accepted.
      destruct (process_image_row_batch batchId (build_lotMap lots)
                  (image_name n sep order ext, url)) as [-> _].
      rewrite Hfresh. reflexivity. }
  all: unfold process_image.
  all: assert (Hparse : parseImageFilename (image_name n sep order ext) =
                        Some (Z.of_N n, Z.of_N order))
    by (unfold parseImageFilename;
        destruct (image_name_chars n sep order ext)
          as (d1 & d2 & init & d & -> & Hd2 & Hd & H1 & H2 & Hf1 & Hf2 & Hv1 & Hv2);
        rewrite (strip_extension_digit_stem _ d ext Hd Hext);
        rewrite <- app_assoc; cbn [app]; rewrite <- Hd2;
        rewrite (first_match_numbers d1 d2 sep) by assumption;
        unfold parseInt; rewrite Hv1, Hv2, !RulesFacts.round53_exact by lia;
        reflexivity).
  all: rewrite Hparse.
  - intros id Hin Hne. unfold build_lotMap.
    rewrite (build_lotMap_from_lookup lots ∅ id (Z.of_N n) Hnd Hin).
    replace (id =? 0) with false by (symmetry; apply Z.eqb_neq; exact Hne).
    reflexivity.
  - intros Hout. unfold build_lotMap.
    rewrite (build_lotMap_from_other lots ∅ (Z.of_N n) Hout), lookup_empty.
    repeat split; reflexivity.
Qed.

(** Lot 12 of the auction has id 40. *)
Lemma process_image_numbered_name_witness :
  let name := image_name 12 "_" 3 ".webp" in
  let out := process_image "batch-1" (build_lotMap [ (40, 12); (41, 13) ])
               (name, "/images/12_3.webp"%string) in
  (existsb (Ascii.eqb "_") ["-"; "_"; "."]%char = true /\
   known_extension ".webp" = true /\
   List.NoDup (map snd [ (40, 12); (41, 13) ]) /\
   Z.of_N 12 <= max_safe /\ Z.of_N 3 <= max_safe) /\
  (forall id, In (id, Z.of_N 12) [ (40, 12); (41, 13) ] -> id <> 0 ->
     out = (mkMatch name (Some (Z.of_N 12)) (Some (Z.of_N 3)) matched None,
            mkMapping "batch-1" name "/images/12_3.webp" (Some (Z.of_N 12))
                      (Some (Z.of_N 3)) matched (Some id) (Some (Z.of_N 3)) None)) /\
  (~ In (Z.of_N 12) (map snd [ (40, 12); (41, 13) ]) ->
     status (fst out) = unmatched /\
     reason (fst out) = Some (NoLotFound (Z.of_N 12)) /\
     assigned_lot_id (snd out) = None) /\
  (forall st, has_batch st "batch-1" = false -> mapping_accepted st (snd out) = false).
Proof.
  intros name out.
  assert (Hnd : List.NoDup (map snd [ (40, 12); (41, 13) ])).
  { cbn [map snd]. constructor; [intros [H | []]; discriminate H|].
    constructor; [intros []|]. constructor. }
  assert (H1 : Z.of_N 12 <= max_safe) by (vm_compute; discriminate).
  assert (H2 : Z.of_N 3 <= max_safe) by (vm_compute; discriminate).
  split; [split; [reflexivity | split; [reflexivity | split; [exact Hnd | split;
            [exact H1 | exact H2]]]]|].
  exact (process_image_numbered_name "batch-1" [ (40, 12); (41, 13) ] 12 3 "_" ".webp"
           "/images/12_3.webp" eq_refl eq_refl Hnd H1 H2).
Defined.

End ImporterMore.

(** ** Closing an auction *)

Module CloseRouteFacts.
Import Engine CloseRoute.

Lemma close_one_closeLot (d d' : DB) (l : Lot) (t : Z) :
  same_tables d d' ->
  lots d !! lot_id l = Some l ->
  same_tables (closeLot d (lot_id l) t) (close_one d' l t) /\
  auctions (closeLot d (lot_id l) t) = auctions d /\
  auctions (close_one d' l t) = auctions d' /\
  bid_audit_log (close_one d' l t) = bid_audit_log d' /\
  length (bid_audit_log (closeLot d (lot_id l) t)) = S (length (bid_audit_log d)).
Proof.
  intros (Hu & Hl & Hb) Hrow. unfold closeLot, close_one, same_tables.
  rewrite Hrow. cbn [users lots auctions bids bid_audit_log].
  rewrite Hu, Hl, Hb, length_app. cbn [length].
  repeat split; try reflexivity. lia.
Qed.

Lemma closeLot_other_lot (d : DB) (k k' t : Z) :
  k <> k' -> lots (closeLot d k t) !! k' = lots d !! k'.
Proof.
  intros Hne. unfold closeLot. destruct (lots d !! k); [|reflexivity].
  cbn [lots]. apply lookup_alter_ne. exact Hne.
Qed.

Lemma close_fold (ls : list Lot) (t : Z) (d d' : DB) :
  same_tables d d' ->
  List.NoDup (map lot_id ls) ->
  (forall l, In l ls -> lots d !! lot_id l = Some l) ->
  let route := fold_left (fun x lot => close_one x lot t) ls d' in
  let engine := fold_left (fun x k => closeLot x k t) (map lot_id ls) d in
  same_tables engine route /\
  auctions engine = auctions d /\
  auctions route = auctions d' /\
  bid_audit_log route = bid_audit_log d' /\
  length (bid_audit_log engine) = (length (bid_audit_log d) + length ls)%nat.
Proof.
  revert d d'. induction ls as [|l rest IH]; intros d d' Hsame Hnd Hrows;
    cbn [map fold_left length].
  - split; [exact Hsame|]. repeat (split; [reflexivity|]). lia.
  - cbn [map] in Hnd. inversion Hnd as [|? ? Hout Hnd']; subst.
    destruct (close_one_closeLot d d' l t Hsame (Hrows l (or_introl eq_refl)))
      as (Hs1 & Ha1 & Ha1' & Hlog1 & Hlen1).
    destruct (IH (closeLot d (lot_id l) t) (close_one d' l t) Hs1 Hnd')
      as (Hs & Ha & Ha' & Hlog & Hlen).
    { intros l' Hin. rewrite closeLot_other_lot.
      - apply Hrows. right. exact Hin.
      - intros E. apply Hout. rewrite E. apply in_map. exact Hin. }
    cbn zeta in Hs, Ha, Ha', Hlog, Hlen.
    split; [exact Hs|]. split; [rewrite Ha; exact Ha1|].
    split; [rewrite Ha'; exact Ha1'|].
    split; [rewrite Hlog; exact Hlog1 | rewrite Hlen, Hlen1; lia].
Qed.

Lemma NoDup_map_filter {A B : Type} (g : A -> B) (f : A -> bool) (xs : list A) :
  List.NoDup (map g xs) -> List.NoDup (map g (List.filter f xs)).
Proof.
  induction xs as [|x rest IH]; intros Hnd; cbn [List.filter map]; [constructor|].
  cbn [map] in Hnd. inversion Hnd as [|? ? Hout Hnd']; subst.
  destruct (f x); [|apply IH, Hnd'].
  cbn [map]. constructor; [|apply IH, Hnd'].
  intros Hin. apply Hout. apply in_map_iff in Hin as (y & Hy & Hin).
  apply List.filter_In in Hin as [Hin _]. rewrite <- Hy. apply in_map. exact Hin.
Qed.

Lemma active_lots_of_rows (db : DB) (id : Z) :
  (forall k l, lots db !! k = Some l -> lot_id l = k) ->
  List.NoDup (map lot_id (active_lots_of db id)) /\
  (forall l, In l (active_lots_of db id) <->
             lots db !! lot_id l = Some l /\ auction_id l = id /\ status l = active).
Proof.
  intros Hwf. unfold active_lots_of. split.
  - apply NoDup_map_filter.
    assert (E : map lot_id (map snd (map_to_list (lots db))) =
                map fst (map_to_list (lots db))).
    { rewrite map_map. apply map_ext_in. intros [k l] Hin. cbn [fst snd].
      apply Hwf. apply elem_of_map_to_list. apply list_elem_of_In. exact Hin. }
    rewrite E. apply NoDup_ListNoDup. exact (NoDup_fst_map_to_list (lots db)).
  - intros l. rewrite List.filter_In, in_map_iff, andb_true_iff, Z.eqb_eq,
      bool_decide_eq_true.
    split.
    + intros [([k l'] & Hsnd & Hin) [Ha Hs]]. cbn [snd] in Hsnd. subst l'.
      apply list_elem_of_In, elem_of_map_to_list in Hin.
      rewrite (Hwf k l Hin). auto.
    + intros (Hrow & Ha & Hs). split; [|auto].
      exists (lot_id l, l). split; [reflexivity|].
      apply list_elem_of_In, elem_of_map_to_list. exact Hrow.
Qed.

(** X15.  The close route against [closeLot].  On a store whose lot rows sit
    under their own id, closing an existing auction answers 200 and leaves
    the [users], [lots] and [bids] tables as one [closeLot] call per lot of
    the auction that is still [active] would: the lots selected are exactly
    those, each once.  The two differ in the other tables: the route sets
    the auction's own row to [closed], with [closed_at] and [updated_at] at
    the time of the request, where [closeLot] leaves [auctions] alone; and
    the route writes nothing to the bid audit log, where those calls would
    have added one event per lot. *)
Theorem post_close_is_closeLot_per_active_lot (db : DB) (id t : Z) (a : Auction) :
  (forall k l, lots db !! k = Some l -> lot_id l = k) ->
  auctions db !! id = Some a ->
  let selected := active_lots_of db id in
  let route := snd (post_close db id t) in
  let engine := fold_left (fun d k => closeLot d k t) (map lot_id selected) db in
  fst (post_close db id t) = 200 /\
  List.NoDup (map lot_id selected) /\
  (forall l, In l selected <->
             lots db !! lot_id l = Some l /\ auction_id l = id /\ status l = active) /\
  same_tables engine route /\
  auctions engine = auctions db /\
  auctions route = alter (set_auction_closed t) id (auctions db) /\
  auctions route !! id = Some (set_auction_closed t a) /\
  auction_status (set_auction_closed t a) = au_closed /\
  auction_closed_at (set_auction_closed t a) = Some t /\
  auction_updated_at (set_auction_closed t a) = t /\
  bid_audit_log route = bid_audit_log db /\
  length (bid_audit_log engine) = (length (bid_audit_log db) + length selected)%nat.
Proof.
  intros Hwf Ha. cbn zeta. unfold post_close. rewrite Ha. cbn [fst snd].
  destruct (active_lots_of_rows db id Hwf) as [Hnd Hsel].
  split; [reflexivity|]. split; [exact Hnd|]. split; [exact Hsel|].
  change (active_lots_of (close_auction db id t) id) with (active_lots_of db id).
  destruct (close_fold (active_lots_of db id) t db (close_auction db id t))
    as (Hs & Hae & Har & Hlog & Hlen).
  - repeat split.
  - exact Hnd.
  - intros l Hin. apply Hsel in Hin. tauto.
  - cbn zeta in Hs, Hae, Har, Hlog, Hlen.
    split; [exact Hs|]. split; [exact Hae|]. split; [exact Har|].
    split; [rewrite Har; cbn [close_auction auctions];
            rewrite lookup_alter_eq, Ha; reflexivity|].
    repeat (split; [reflexivity|]).
    split; [exact Hlog | exact Hlen].
Qed.

(** The auction of the store with one lot and no bid yet. *)
Lemma post_close_is_closeLot_per_active_lot_witness :
  let db := Scenarios.db_fresh in
  let a := Scenarios.auction_flat10 in
  let selected := active_lots_of db 1 in
  let route := snd (post_close db 1 5000) in
  let engine := fold_left (fun d k => closeLot d k 5000) (map lot_id selected) db in
  ((forall k l, lots db !! k = Some l -> lot_id l = k) /\
   auctions db !! 1 = Some a) /\
  fst (post_close db 1 5000) = 200 /\
  List.NoDup (map lot_id selected) /\
  (forall l, In l selected <->
             lots db !! lot_id l = Some l /\ auction_id l = 1 /\ status l = active) /\
  same_tables engine route /\
  auctions engine = auctions db /\
  auctions route = alter (set_auction_closed 5000) 1 (auctions db) /\
  auctions route !! 1 = Some (set_auction_closed 5000 a) /\
  auction_status (set_auction_closed 5000 a) = au_closed /\
  auction_closed_at (set_auction_closed 5000 a) = Some 5000 /\
  auction_updated_at (set_auction_closed 5000 a) = 5000 /\
  bid_audit_log route = bid_audit_log db /\
  length (bid_audit_log engine) = (length (bid_audit_log db) + length selected)%nat.
Proof.
  intros db a selected route engine.
  assert (Hwf : forall k l, lots db !! k = Some l -> lot_id l = k).
  { intros k l H.
    change (({[ 1 := Scenarios.fresh_lot 1 0 None 100000 ]} : gmap Z Lot) !! k = Some l) in H.
    apply lookup_singleton_Some in H as [<- <-]. reflexivity. }
  split; [split; [exact Hwf | reflexivity]|].
  exact (post_close_is_closeLot_per_active_lot db 1 5000 Scenarios.auction_flat10
           Hwf eq_refl).
Defined.

End CloseRouteFacts.

(** ** Paging *)

Module PagingFacts.
Import Paging.

(** Whatever is asked for, the query runs with a limit between 1 and 100,
    a page of at least 1 and the offset of that page as doubles compute
    it: the exact product up to [2^53], and at least [2^53] beyond. *)
Lemma buildPagination_bounds (page limit : option Z) (sort : option string) (desc : bool) :
  let p := buildPagination page limit sort desc in
  1 <= pg_limit p <= 100 /\ 1 <= pg_page p /\
  ((pg_page p - 1) * pg_limit p <= max_safe ->
   pg_offset p = (pg_page p - 1) * pg_limit p) /\
  (max_safe < (pg_page p - 1) * pg_limit p -> max_safe <= pg_offset p).
Proof.
  cbn zeta. unfold buildPagination. cbn [pg_limit pg_page pg_offset].
  set (pg := Z.max 1 (num_or page 1)). set (lim := Z.min 100 (Z.max 1 (num_or limit 20))).
  assert (Hpg : 1 <= pg) by (unfold pg; lia).
  assert (Hlim : 1 <= lim <= 100) by (unfold lim; lia).
  assert (Hm : max_safe = 9007199254740992) by reflexivity.
  split; [exact Hlim|]. split; [exact Hpg|]. split.
  - intros Hfit. rewrite (RulesFacts.round53_exact (pg - 1)) by nia.
    apply RulesFacts.round53_exact. nia.
  - intros Hbig. destruct (Z_le_gt_dec (pg - 1) max_safe) as [Hle | Hgt].
    + rewrite (RulesFacts.round53_exact (pg - 1)) by lia.
      apply RulesFacts.round53_large. exact Hbig.
    + pose proof (RulesFacts.round53_large (pg - 1) ltac:(lia)) as Hr.
      destruct (Z.eq_dec (round53 (pg - 1) * lim) max_safe) as [E | Hne].
      * rewrite E. rewrite RulesFacts.round53_exact by lia. lia.
      * apply RulesFacts.round53_large. nia.
Qed.

Lemma num_or_in_range (x : option Z) (v d : Z) :
  x = Some v -> v <> 0 -> num_or x d = v.
Proof.
  intros -> Hv. unfold num_or, truthy.
  replace (v =? 0) with false by (symmetry; apply Z.eqb_neq; exact Hv). reflexivity.
Qed.

Lemma ceil_div_pos (total l : Z) :
  0 < l -> 0 <= total ->
  exists n, ceil_div total (Some l) = Some n /\ 0 <= n /\ total <= n * l < total + l.
Proof.
  intros Hl Ht. exists (- ((- total) / l)). unfold ceil_div.
  replace (l =? 0) with false by (symmetry; apply Z.eqb_neq; lia).
  split; [reflexivity|].
  pose proof (Z.div_mod (- total) l ltac:(lia)) as Hdm.
  pose proof (Z.mod_pos_bound (- total) l Hl) as Hmod.
  split; nia.
Qed.

Lemma pages_concat {A : Type} (L n : nat) (rows : list A) :
  (length rows <= n * L)%nat ->
  concat (map (fun i => take L (drop (i * L) rows)) (seq 0 n)) = rows.
Proof.
  revert rows. induction n as [|n IH]; intros rows Hlen.
  - destruct rows; [reflexivity | cbn in Hlen; lia].
  - cbn [seq]. rewrite <- seq_shift. cbn [map concat]. rewrite map_map.
    rewrite (map_ext (fun i => take L (drop (S i * L) rows))
                     (fun i => take L (drop (i * L) (drop L rows)))).
    2:{ intros i. rewrite drop_drop. reflexivity. }
    rewrite IH.
    + change (0 * L)%nat with 0%nat. apply take_drop.
    + rewrite length_drop. lia.
Qed.

(** X29.  With a limit between 1 and 100, over at most [2^53] rows, the
    listing is a partition of the rows: the slices of the pages 1 to
    [totalPages], each of at most [limit] rows, put one after the other give
    every row once in query order, and the slice of any later page is empty.
    The handler answers a page with its slice and the [pagination] object
    announcing [totalPages], as long as the offset that [buildPagination]
    computes in doubles binds as a 64-bit integer: that is so for each of
    the pages 1 to [totalPages], whose offset is exact, and for later pages
    up to an offset of [2^63]; beyond it the paged query throws and the
    request fails. *)
Theorem get_auctions_pages {A : Type} (rows : list A) (limit : Z) :
  1 <= limit <= 100 ->
  Z.of_nat (length rows) <= max_safe ->
  let slice := fun page =>
    take (Z.to_nat limit) (drop (Z.to_nat ((page - 1) * limit)) rows) in
  let offset := fun page =>
    pg_offset (buildPagination (Some page) (Some limit) (Some "start_date"%string) true) in
  exists n,
    concat (map (fun i => slice (Z.of_nat (S i))) (seq 0 n)) = rows /\
    (forall page, 1 <= page ->
       (length (slice page) <= Z.to_nat limit)%nat /\
       (Z.of_nat n < page -> slice page = []) /\
       (page <= Z.of_nat n ->
        offset page = (page - 1) * limit /\ (offset page <? 2 ^ 63) = true) /\
       get_auctions rows (Some page) (Some limit) =
         if offset page <? 2 ^ 63
         then Some (slice page,
                    mkPageMeta (Some page) (Some limit) (Z.of_nat (length rows))
                               (Some (Z.of_nat n)))
         else None).
Proof.
  intros Hl Hrows. cbn zeta.
  assert (Hm : max_safe = 9007199254740992) by reflexivity.
  assert (H63 : 2 ^ 63 = 9223372036854775808) by reflexivity.
  destruct (ceil_div_pos (Z.of_nat (length rows)) limit ltac:(lia) ltac:(lia))
    as (n & Hn & Hn0 & Hcover).
  exists (Z.to_nat n). split.
  { transitivity (concat (map (fun i => take (Z.to_nat limit)
                                          (drop (i * Z.to_nat limit) rows))
                              (seq 0 (Z.to_nat n)))).
    - f_equal. apply map_ext. intros i.
      replace (Z.to_nat ((Z.of_nat (S i) - 1) * limit)) with (i * Z.to_nat limit)%nat
        by nia.
      reflexivity.
    - apply pages_concat. nia. }
  intros page Hp.
  pose proof (buildPagination_bounds (Some page) (Some limit) (Some "start_date"%string) true)
    as (_ & _ & Hexact & Hbig).
  cbn zeta in Hexact, Hbig.
  assert (Epg : pg_page (buildPagination (Some page) (Some limit)
                           (Some "start_date"%string) true) = page).
  { unfold buildPagination. cbn [pg_page].
    rewrite (num_or_in_range (Some page) page 1 eq_refl ltac:(lia)). lia. }
  assert (Elim : pg_limit (buildPagination (Some page) (Some limit)
                             (Some "start_date"%string) true) = limit).
  { unfold buildPagination. cbn [pg_limit].
    rewrite (num_or_in_range (Some limit) limit 20 eq_refl ltac:(lia)). lia. }
  rewrite Epg, Elim in Hexact, Hbig.
  set (off := pg_offset (buildPagination (Some page) (Some limit)
                           (Some "start_date"%string) true)) in *.
  split; [rewrite length_take; lia|].
  split; [intros Hbeyond; rewrite drop_ge; [apply take_nil | nia]|].
  split.
  { intros Hin. assert (Hfit : (page - 1) * limit <= max_safe) by nia.
    split; [apply Hexact, Hfit|]. rewrite (Hexact Hfit). apply Z.ltb_lt. lia. }
  unfold get_auctions. fold off. rewrite Elim.
  assert (Hoff0 : 0 <= off).
  { destruct (Z_le_gt_dec ((page - 1) * limit) max_safe) as [Hfit | Hgt].
    - rewrite (Hexact Hfit). nia.
    - pose proof (Hbig ltac:(lia)). lia. }
  replace (binds_as_integer limit) with true
    by (symmetry; unfold binds_as_integer; apply andb_true_iff; split;
        [apply Z.leb_le | apply Z.ltb_lt]; lia).
  replace (binds_as_integer off) with (off <? 2 ^ 63)
    by (unfold binds_as_integer;
        replace (- 2 ^ 63 <=? off) with true by (symmetry; apply Z.leb_le; lia);
        reflexivity).
  cbn [andb]. destruct (off <? 2 ^ 63); [|reflexivity].
  f_equal. unfold list_page, limit_offset, getPaginationMeta. fold off. rewrite Elim.
  rewrite Hn, Z2Nat.id by lia. f_equal.
  destruct (Z_le_gt_dec ((page - 1) * limit) max_safe) as [Hfit | Hgt].
  - rewrite (Hexact Hfit). reflexivity.
  - pose proof (Hbig ltac:(lia)) as Hge.
    rewrite !drop_ge by lia. reflexivity.
Qed.

(** Seven rows in pages of three. *)
Lemma get_auctions_pages_witness :
  let rows := [1; 2; 3; 4; 5; 6; 7] in
  let slice := fun page => take (Z.to_nat 3) (drop (Z.to_nat ((page - 1) * 3)) rows) in
  let offset := fun page =>
    pg_offset (buildPagination (Some page) (Some 3) (Some "start_date"%string) true) in
  (1 <= 3 <= 100 /\ Z.of_nat (length rows) <= max_safe) /\
  map (fun i => get_auctions rows (Some (Z.of_nat (S i))) (Some 3)) (seq 0 4) =
    [ Some ([1; 2; 3], mkPageMeta (Some 1) (Some 3) 7 (Some 3));
      Some ([4; 5; 6], mkPageMeta (Some 2) (Some 3) 7 (Some 3));
      Some ([7], mkPageMeta (Some 3) (Some 3) 7 (Some 3));
      Some ([], mkPageMeta (Some 4) (Some 3) 7 (Some 3)) ] /\
  exists n,
    concat (map (fun i => slice (Z.of_nat (S i))) (seq 0 n)) = rows /\
    (forall page, 1 <= page ->
       (length (slice page) <= Z.to_nat 3%Z)%nat /\
       (Z.of_nat n < page -> slice page = []) /\
       (page <= Z.of_nat n ->
        offset page = (page - 1) * 3 /\ (offset page <? 2 ^ 63) = true) /\
       get_auctions rows (Some page) (Some 3) =
         if offset page <? 2 ^ 63
         then Some (slice page,
                    mkPageMeta (Some page) (Some 3) (Z.of_nat (length rows))
                               (Some (Z.of_nat n)))
         else None).
Proof.
  intros rows slice offset.
  assert (H1 : 1 <= 3 <= 100) by lia.
  assert (H2 : Z.of_nat (length rows) <= max_safe) by (vm_compute; discriminate).
  split; [split; [exact H1 | exact H2]|]. split; [reflexivity|].
  exact (get_auctions_pages rows 3 H1 H2).
Defined.

(** Page [10^19], a number the query string can carry: the offset is
    beyond 64 bits, the paged query throws and no page is sent. *)
Lemma get_auctions_page_beyond_int64 :
  pg_offset (buildPagination (Some (10 ^ 19)) (Some 20) (Some "start_date"%string) true) =
    2 * 10 ^ 20 /\
  get_auctions [1; 2; 3; 4; 5; 6; 7] (Some (10 ^ 19)) (Some 20) = None.
Proof. split; vm_compute; reflexivity. Qed.

(** X30.  Asked for more than 100 rows a page, the query still runs with a limit
    of 100, while the [pagination] object sent back repeats the limit asked
    for and counts the pages by it: with more than 100 rows and a limit at
    least that large it announces one page, and that page holds only the
    first 100 rows. *)
Theorem list_page_limit_above_100 {A : Type} (rows : list A) (limit : Z)
    (sort : option string) (desc : bool) :
  100 < limit ->
  (100 < length rows)%nat ->
  Z.of_nat (length rows) <= limit ->
  let out := list_page rows (Some 1) (Some limit) sort desc in
  fst out = take 100 rows /\
  (length (fst out) < length rows)%nat /\
  meta_limit (snd out) = Some limit /\
  meta_totalPages (snd out) = Some 1.
Proof.
  intros Hl Hrows Hfit. cbn zeta.
  unfold list_page, buildPagination, limit_offset, getPaginationMeta.
  cbn [fst snd pg_limit pg_offset meta_limit meta_totalPages].
  rewrite (num_or_in_range (Some 1) 1 1 eq_refl ltac:(lia)).
  rewrite (num_or_in_range (Some limit) limit 20 eq_refl ltac:(lia)).
  replace (Z.min 100 (Z.max 1 limit)) with 100 by lia.
  replace (Z.max 1 1) with 1 by lia.
  change (Z.to_nat (round53 (round53 (1 - 1) * 100))) with 0%nat. cbn [drop].
  change (Z.to_nat 100) with 100%nat.
  split; [reflexivity|]. split; [rewrite length_take; lia|]. split; [reflexivity|].
  destruct (ceil_div_pos (Z.of_nat (length rows)) limit ltac:(lia) ltac:(lia))
    as (n & Hn & Hn0 & Hcover).
  rewrite Hn. f_equal. nia.
Qed.

(** 150 rows asked for 200 at a time. *)
Lemma list_page_limit_above_100_witness :
  let rows := seq 0 150 in
  let out := list_page rows (Some 1) (Some 200) None false in
  (100 < 200 /\ (100 < length rows)%nat /\ Z.of_nat (length rows) <= 200) /\
  fst out = take 100 rows /\
  (length (fst out) < length rows)%nat /\
  meta_limit (snd out) = Some 200 /\
  meta_totalPages (snd out) = Some 1.
Proof.
  intros rows out.
  assert (H1 : 100 < 200) by lia.
  assert (H2 : (100 < length rows)%nat) by (vm_compute; lia).
  assert (H3 : Z.of_nat (length rows) <= 200) by (vm_compute; discriminate).
  split; [split; [exact H1 | split; [exact H2 | exact H3]]|].
  exact (list_page_limit_above_100 rows 200 None false H1 H2 H3).
Defined.

End PagingFacts.

(** ** CSV rows *)

Module CsvFacts.
Import Csv.
Local Open Scope N_scope.

Lemma drop_space_first (s : list N) :
  match s with
  | c :: _ => negb (is_space c)
  | [] => true
  end = true ->
  drop_space s = s.
Proof.
  destruct s as [|c rest]; [reflexivity|]. cbn [drop_space].
  intros H. apply negb_true_iff in H. rewrite H. reflexivity.
Qed.

Lemma trim_readable (f : bool * list N) : readable f = true -> trim (snd f) = snd f.
Proof.
  unfold readable. rewrite !andb_true_iff. intros [[[_ Hfirst] Hlast] _].
  unfold trim. rewrite (drop_space_first _ Hfirst), (drop_space_first _ Hlast).
  apply rev_involutive.
Qed.

Lemma scan_inside (f rest : list N) (values : list (list N)) (cur : list N) :
  forallb (fun c => negb (c =? quote_char)) f = true ->
  scan (f ++ rest) values cur true = scan rest values (cur ++ f) true.
Proof.
  revert cur. induction f as [|c f IH]; intros cur Hq; cbn [app].
  - rewrite app_nil_r. reflexivity.
  - cbn [forallb] in Hq. apply andb_true_iff in Hq as [Hc Hf].
    apply negb_true_iff in Hc. cbn [scan]. rewrite Hc. cbn [negb].
    rewrite andb_false_r, (IH _ Hf), <- app_assoc. reflexivity.
Qed.

Lemma scan_plain (f rest : list N) (values : list (list N)) (cur : list N) :
  forallb (fun c => negb (c =? quote_char)) f = true ->
  forallb (fun c => negb (c =? comma_char)) f = true ->
  scan (f ++ rest) values cur false = scan rest values (cur ++ f) false.
Proof.
  revert cur. induction f as [|c f IH]; intros cur Hq Hc; cbn [app].
  - rewrite app_nil_r. reflexivity.
  - cbn [forallb] in Hq, Hc.
    apply andb_true_iff in Hq as [Hq1 Hq]. apply andb_true_iff in Hc as [Hc1 Hc].
    apply negb_true_iff in Hq1, Hc1. cbn [scan]. rewrite Hq1, Hc1. cbn [andb].
    rewrite (IH _ Hq Hc), <- app_assoc. reflexivity.
Qed.

Lemma scan_written (f : bool * list N) (rest : list N) (values : list (list N))
    (cur : list N) :
  readable f = true ->
  scan (written f ++ rest) values cur false = scan rest values (cur ++ snd f) false.
Proof.
  unfold readable, written. rewrite !andb_true_iff. intros [[[Hq _] _] Hc].
  destruct f as [[] text]; cbn [fst snd] in *.
  - cbn [app scan]. rewrite N.eqb_refl. cbn [negb].
    rewrite <- app_assoc, (scan_inside text _ _ _ Hq).
    cbn [app scan]. rewrite N.eqb_refl. reflexivity.
  - apply scan_plain; assumption.
Qed.

Lemma scan_joined (fields : list (bool * list N)) (values : list (list N)) :
  fields <> [] ->
  forallb readable fields = true ->
  scan (join_fields (map written fields)) values [] false = values ++ map snd fields.
Proof.
  revert values. induction fields as [|f rest IH]; intros values Hne Hok; [contradiction|].
  cbn [forallb] in Hok. apply andb_true_iff in Hok as [Hf Hrest].
  cbn [map join_fields].
  destruct rest as [|g rest].
  - cbn [map]. rewrite <- (app_nil_r (written f)), (scan_written f [] values [] Hf).
    cbn [app scan]. rewrite (trim_readable f Hf). reflexivity.
  - cbn [map]. rewrite (scan_written f _ values [] Hf). cbn [app scan].
    change (comma_char =? quote_char) with false. change (comma_char =? comma_char) with true.
    cbn [andb negb]. rewrite (trim_readable f Hf).
    change (written g :: map written rest) with (map written (g :: rest)).
    rewrite IH; [|discriminate | exact Hrest].
    rewrite <- app_assoc. reflexivity.
Qed.

(** X27.  A row written by joining fields with commas is read back field by
    field, provided every field is free of double quotes, neither starts nor
    ends with white space, and is put between double quotes if it holds a
    comma: the quotes are dropped and the commas between them kept. *)
Theorem parseCSVRow_reads_joined_fields (fields : list (bool * list N)) :
  fields <> [] ->
  forallb readable fields = true ->
  parseCSVRow (join_fields (map written fields)) = map snd fields.
Proof.
  intros Hne Hok. unfold parseCSVRow.
  rewrite (scan_joined fields [] Hne Hok). reflexivity.
Qed.

(** [12,"Oak table, round",150] *)
Lemma parseCSVRow_reads_joined_fields_witness :
  let fields :=
    [ (false, [49; 50]);
      (true, [79; 97; 107; 32; 116; 97; 98; 108; 101; 44; 32; 114; 111; 117; 110; 100]);
      (false, [49; 53; 48]) ] in
  (fields <> [] /\ forallb readable fields = true) /\
  join_fields (map written fields) =
    [49; 50; 44; 34; 79; 97; 107; 32; 116; 97; 98; 108; 101; 44; 32; 114; 111; 117;
     110; 100; 34; 44; 49; 53; 48] /\
  parseCSVRow (join_fields (map written fields)) = map snd fields.
Proof.
  intros fields.
  assert (H : fields <> []) by discriminate.
  split; [split; [exact H | reflexivity]|]. split; [reflexivity|].
  exact (parseCSVRow_reads_joined_fields fields H eq_refl).
Defined.

Lemma drop_space_keeps (P : N -> Prop) (s : list N) :
  Forall P s -> Forall P (drop_space s).
Proof.
  induction 1 as [|c rest Hc Hrest IH]; cbn [drop_space]; [constructor|].
  destruct (is_space c); [exact IH | constructor; assumption].
Qed.

Lemma trim_keeps (P : N -> Prop) (s : list N) : Forall P s -> Forall P (trim s).
Proof.
  intros H. unfold trim.
  apply Forall_rev, drop_space_keeps, Forall_rev, drop_space_keeps, H.
Qed.

Lemma scan_no_quote (row : list N) (values : list (list N)) (cur : list N) (inQ : bool) :
  Forall (Forall (fun c => c <> quote_char)) values ->
  Forall (fun c => c <> quote_char) cur ->
  Forall (Forall (fun c => c <> quote_char)) (scan row values cur inQ).
Proof.
  revert values cur inQ. induction row as [|c rest IH]; intros values cur inQ Hv Hc;
    cbn [scan].
  - apply Forall_app. split; [exact Hv|]. constructor; [|constructor].
    apply trim_keeps, Hc.
  - destruct (c =? quote_char) eqn:Eq; [apply IH; assumption|].
    destruct ((c =? comma_char) && negb inQ).
    + apply IH; [|constructor].
      apply Forall_app. split; [exact Hv|]. constructor; [|constructor].
      apply trim_keeps, Hc.
    + apply IH; [exact Hv|]. apply Forall_app. split; [exact Hc|].
      constructor; [|constructor]. apply N.eqb_neq. exact Eq.
Qed.

(** X28.  No value [parseCSVRow] returns holds a double quote: every quote of the
    row only switches the quoting state, a doubled one inside a quoted
    field included. *)
Theorem parseCSVRow_drops_every_quote (row : list N) :
  Forall (Forall (fun c => c <> quote_char)) (parseCSVRow row).
Proof. apply scan_no_quote; constructor. Qed.

End CsvFacts.
